(** * MI-3 news pipeline: item identity, event bus, scheduler, webhook, hub

    A shallow embedding of the ingestion core of the MI-3 news scraper
    (storage/schemas.py, bus/stream.py, ingest/adaptive_feeds_worker.py,
    adapters/mappers.py, adapters/webhook_adapter.py, realtime/hub.py)
    and the properties its specification states about it, followed by
    properties of the code around them: the rest of the bus interface, the
    legacy format, fetching, parsing and saving in the scheduler, the
    statistics and the background task of the webhook, the endpoints of
    the hub.

    Conventions of the embedding.
    - A Python [str] is a Rocq [string] holding its UTF-8 bytes, so that
      [s.encode('utf-8')] is the string itself.
    - Python floats (clock readings, token counts, polling intervals) are
      idealised as rationals [Q]; results are compared with [Qeq].
    - [time.time()] is an input: every operation takes the readings it makes.
    - An exception is an explicit outcome, never a missing result. *)

From Stdlib Require Import ZArith QArith Qround Lqa String Ascii List Lia Bool.
From Stdlib Require Import Sorted Permutation.
From stdpp Require Import gmap strings list.
Import ListNotations.

Set Warnings "-register-all".

Local Open Scope string_scope.
Local Open Scope list_scope.
Local Open Scope Z_scope.

(* ===================================================================== *)
(** ** hashlib.sha256 and hmac (FIPS 180-4, RFC 2104) *)
(* ===================================================================== *)

Module SHA256.

(** 32-bit words are integers in [0, 2^32); every sum wraps. *)
Definition wrap (x : Z) : Z := x mod 4294967296.
Definition add32 (x y : Z) : Z := wrap (x + y).
Definition rotr (n x : Z) : Z :=
  Z.lor (Z.shiftr x n) (wrap (Z.shiftl x (32 - n))).
Definition not32 (x : Z) : Z := 4294967295 - x.

Definition ch (x y z : Z) : Z := Z.lxor (Z.land x y) (Z.land (not32 x) z).
Definition maj (x y z : Z) : Z :=
  Z.lxor (Z.lxor (Z.land x y) (Z.land x z)) (Z.land y z).
Definition bsig0 (x : Z) : Z := Z.lxor (Z.lxor (rotr 2 x) (rotr 13 x)) (rotr 22 x).
Definition bsig1 (x : Z) : Z := Z.lxor (Z.lxor (rotr 6 x) (rotr 11 x)) (rotr 25 x).
Definition ssig0 (x : Z) : Z := Z.lxor (Z.lxor (rotr 7 x) (rotr 18 x)) (Z.shiftr x 3).
Definition ssig1 (x : Z) : Z := Z.lxor (Z.lxor (rotr 17 x) (rotr 19 x)) (Z.shiftr x 10).

(** Round constants, in decimal. *)
Definition round_constants : list Z :=
  [ 1116352408; 1899447441; 3049323471; 3921009573; 961987163; 1508970993;
    2453635748; 2870763221; 3624381080; 310598401; 607225278; 1426881987;
    1925078388; 2162078206; 2614888103; 3248222580; 3835390401; 4022224774;
    264347078; 604807628; 770255983; 1249150122; 1555081692; 1996064986;
    2554220882; 2821834349; 2952996808; 3210313671; 3336571891; 3584528711;
    113926993; 338241895; 666307205; 773529912; 1294757372; 1396182291;
    1695183700; 1986661051; 2177026350; 2456956037; 2730485921; 2820302411;
    3259730800; 3345764771; 3516065817; 3600352804; 4094571909; 275423344;
    430227734; 506948616; 659060556; 883997877; 958139571; 1322822218;
    1537002063; 1747873779; 1955562222; 2024104815; 2227730452; 2361852424;
    2428436474; 2756734187; 3204031479; 3329325298 ].

Record hstate := HState {
  ha : Z; hb : Z; hc : Z; hd : Z; he : Z; hf : Z; hg : Z; hh : Z }.

Definition initial_hash : hstate :=
  HState 1779033703 3144134277 1013904242 2773480762
         1359893119 2600822924 528734635 1541459225.

(** Bytes of a message, as integers in [0, 256). *)
Definition bytes_of_string (s : string) : list Z :=
  List.map (fun c => Z.of_N (N_of_ascii c)) (list_ascii_of_string s).

(** Big-endian encoding of [x] on [n] bytes. *)
Fixpoint be_bytes (n : nat) (x : Z) : list Z :=
  match n with
  | O => []
  | S k => (Z.shiftr x (8 * Z.of_nat k)) mod 256 :: be_bytes k x
  end.

(** Padding: a 1 bit, zeros up to 56 mod 64, then the bit length on 64 bits. *)
Definition pad (msg : list Z) : list Z :=
  let len := Z.of_nat (List.length msg) in
  let zeros := Z.to_nat ((55 - len) mod 64) in
  msg ++ 128 :: List.repeat 0 zeros ++ be_bytes 8 (8 * len).

Fixpoint words_of_bytes (fuel : nat) (bs : list Z) : list Z :=
  match fuel, bs with
  | S k, b0 :: b1 :: b2 :: b3 :: rest =>
      (b0 * 16777216 + b1 * 65536 + b2 * 256 + b3) :: words_of_bytes k rest
  | _, _ => []
  end.

(** The message schedule is kept most recent word first. *)
Fixpoint extend_schedule (n : nat) (w : list Z) : list Z :=
  match n with
  | O => w
  | S k =>
      let nw :=
        add32 (add32 (ssig1 (List.nth 1 w 0)) (List.nth 6 w 0))
              (add32 (ssig0 (List.nth 14 w 0)) (List.nth 15 w 0)) in
      extend_schedule k (nw :: w)
  end.

Definition schedule (block : list Z) : list Z :=
  List.rev (extend_schedule 48 (List.rev block)).

Definition round (s : hstate) (kw : Z * Z) : hstate :=
  let t1 := add32 (add32 (add32 (hh s) (bsig1 (he s)))
                         (add32 (ch (he s) (hf s) (hg s)) (fst kw))) (snd kw) in
  let t2 := add32 (bsig0 (ha s)) (maj (ha s) (hb s) (hc s)) in
  HState (add32 t1 t2) (ha s) (hb s) (hc s) (add32 (hd s) t1) (he s) (hf s) (hg s).

Definition compress (s : hstate) (block : list Z) : hstate :=
  let r := List.fold_left round (List.combine round_constants (schedule block)) s in
  HState (add32 (ha s) (ha r)) (add32 (hb s) (hb r)) (add32 (hc s) (hc r))
         (add32 (hd s) (hd r)) (add32 (he s) (he r)) (add32 (hf s) (hf r))
         (add32 (hg s) (hg r)) (add32 (hh s) (hh r)).

Fixpoint blocks (fuel : nat) (ws : list Z) : list (list Z) :=
  match fuel with
  | O => []
  | S k =>
      match ws with
      | [] => []
      | _ => List.firstn 16 ws :: blocks k (List.skipn 16 ws)
      end
  end.

Definition digest_words (msg : list Z) : list Z :=
  let p := pad msg in
  let ws := words_of_bytes (List.length p) p in
  let s := List.fold_left compress (blocks (List.length ws) ws) initial_hash in
  [ha s; hb s; hc s; hd s; he s; hf s; hg s; hh s].

(** [digest()]: the 32 bytes of the hash. *)
Definition digest (msg : list Z) : list Z :=
  List.concat (List.map (be_bytes 4) (digest_words msg)).

Definition hex_digit (d : Z) : ascii :=
  ascii_of_N (Z.to_N (if d <? 10 then 48 + d else 87 + d)).

Definition hex_of_bytes (bs : list Z) : string :=
  string_of_list_ascii
    (List.concat (List.map (fun b => [hex_digit (b / 16); hex_digit (b mod 16)]) bs)).

(** [hashlib.sha256(data).hexdigest()]: 64 lower-case hex digits. *)
Definition hexdigest (msg : list Z) : string := hex_of_bytes (digest msg).

(** [hmac.new(key, msg, hashlib.sha256).hexdigest()]. *)
Definition hmac_hexdigest (key msg : list Z) : string :=
  let k0 := if (64 <? Z.of_nat (List.length key)) then digest key else key in
  let k := k0 ++ List.repeat 0 (64 - List.length k0)%nat in
  let ipad := List.map (Z.lxor 54) k in
  let opad := List.map (Z.lxor 92) k in
  hexdigest (opad ++ digest (ipad ++ msg)).

End SHA256.

(* ===================================================================== *)
(** ** Python values, dictionaries and exceptions *)
(* ===================================================================== *)

Module Py.

(** JSON-shaped values, as payloads and item dictionaries hold them. *)
Inductive pyval : Type :=
| VNone
| VBool (b : bool)
| VInt (n : Z)
| VStr (s : string)
| VList (l : list pyval)
| VDict (d : list (string * pyval)).

(** A [Dict[str, Any]]: the first binding of a key is the one looked up. *)
Definition dict : Type := list (string * pyval).

Inductive exn : Type :=
| ValueError | TypeError | KeyError | AttributeError | UnboundLocalError.

Inductive result (A : Type) : Type :=
| Ok (a : A)
| Raise (e : exn).
Arguments Ok {A} a.
Arguments Raise {A} e.

Definition bind {A B} (r : result A) (k : A -> result B) : result B :=
  match r with
  | Ok a => k a
  | Raise e => Raise e
  end.

(** [try: body except Exception: handler]. *)
Definition try_except {A} (body : result A) (handler : exn -> result A) : result A :=
  match body with
  | Ok a => Ok a
  | Raise e => handler e
  end.

(** Truth value of an object ([bool(v)]). *)
Definition truthy (v : pyval) : bool :=
  match v with
  | VNone => false
  | VBool b => b
  | VInt n => negb (n =? 0)
  | VStr s => negb (String.eqb s "")
  | VList l => match l with [] => false | _ => true end
  | VDict d => match d with [] => false | _ => true end
  end.

Fixpoint lookup (k : string) (d : dict) : option pyval :=
  match d with
  | [] => None
  | (k', v) :: rest => if String.eqb k k' then Some v else lookup k rest
  end.

(** [d.get(k)] and [d.get(k, default)]. *)
Definition get (d : dict) (k : string) : pyval :=
  match lookup k d with Some v => v | None => VNone end.
Definition get_default (d : dict) (k : string) (dflt : pyval) : pyval :=
  match lookup k d with Some v => v | None => dflt end.

(** [k in d]. *)
Definition has_key (d : dict) (k : string) : bool :=
  match lookup k d with Some _ => true | None => false end.

(** [d[k] = v]: an existing key keeps its place, a new one goes last. *)
Fixpoint set (k : string) (v : pyval) (d : dict) : dict :=
  match d with
  | [] => [(k, v)]
  | (k', v') :: rest =>
      if String.eqb k k' then (k, v) :: rest else (k', v') :: set k v rest
  end.

(** [s.lower()], on the ASCII letters. *)
Definition lower_char (c : ascii) : ascii :=
  let n := N_of_ascii c in
  if (65 <=? n)%N && (n <=? 90)%N then ascii_of_N (n + 32) else c.

Fixpoint lower (s : string) : string :=
  match s with
  | EmptyString => EmptyString
  | String c rest => String (lower_char c) (lower rest)
  end.

(** [needle in hay], on strings. *)
Fixpoint contains (needle hay : string) : bool :=
  String.prefix needle hay
  || match hay with
     | EmptyString => false
     | String _ rest => contains needle rest
     end.

(** [s[n:]]. *)
Fixpoint drop (n : nat) (s : string) : string :=
  match n, s with
  | S k, String _ rest => drop k rest
  | _, _ => s
  end.

(** [s.split(sep)[0]] for a one-character separator. *)
Fixpoint before (sep : ascii) (s : string) : string :=
  match s with
  | EmptyString => EmptyString
  | String c rest => if Ascii.eqb c sep then EmptyString else String c (before sep rest)
  end.

(** HTTP headers and other [Dict[str, str]]. *)
Definition strdict : Type := list (string * string).

Fixpoint str_lookup (k : string) (d : strdict) : option string :=
  match d with
  | [] => None
  | (k', v) :: rest => if String.eqb k k' then Some v else str_lookup k rest
  end.

(** [d.get(k, default)] on a [Dict[str, str]]. *)
Definition str_get (d : strdict) (k dflt : string) : string :=
  match str_lookup k d with Some v => v | None => dflt end.

(** [o.get(k, default)] on an object that may not be a dictionary. *)
Definition obj_get (o : pyval) (k : string) (dflt : pyval) : result pyval :=
  match o with
  | VDict d => Ok (get_default d k dflt)
  | _ => Raise AttributeError
  end.

(** [v.lower()] on an object that may not be a string. *)
Definition obj_lower (v : pyval) : result string :=
  match v with
  | VStr s => Ok (lower s)
  | _ => Raise AttributeError
  end.

(** [min(a, b)] and [max(a, b)] on numbers: the first argument wins ties. *)
Definition qlt (a b : Q) : bool := negb (Qle_bool b a).
Definition min_ (a b : Q) : Q := if qlt b a then b else a.
Definition max_ (a b : Q) : Q := if qlt a b then b else a.

End Py.
Import Py.

(* ===================================================================== *)
(** ** storage/schemas.py *)
(* ===================================================================== *)

Module Schemas.

(** A [datetime]; [tzinfo] is the UTC offset in seconds, [None] when naive. *)
Record datetime := DateTime {
  year : Z; month : Z; day : Z;
  hour : Z; minute : Z; second : Z; microsecond : Z;
  tzinfo : option Z }.

(** [dt.replace(second=0, microsecond=0)]. *)
Definition replace_second_microsecond (dt : datetime) : datetime :=
  DateTime (year dt) (month dt) (day dt) (hour dt) (minute dt) 0 0 (tzinfo dt).

Definition digit (d : Z) : ascii := ascii_of_N (Z.to_N (48 + d mod 10)).

(** [n] on [w] decimal digits, zero padded. *)
Fixpoint zpad (w : nat) (n : Z) : string :=
  match w with
  | O => ""
  | S k => zpad k (n / 10) +:+ String (digit n) ""
  end.

Definition format_offset (off : Z) : string :=
  let a := Z.abs off in
  (if off <? 0 then "-" else "+") +:+ zpad 2 (a / 3600) +:+ ":" +:+ zpad 2 (a / 60 mod 60)
  +:+ (if a mod 60 =? 0 then "" else ":" +:+ zpad 2 (a mod 60)).

(** [dt.isoformat()]. *)
Definition isoformat (dt : datetime) : string :=
  zpad 4 (year dt) +:+ "-" +:+ zpad 2 (month dt) +:+ "-" +:+ zpad 2 (day dt) +:+ "T"
  +:+ zpad 2 (hour dt) +:+ ":" +:+ zpad 2 (minute dt) +:+ ":" +:+ zpad 2 (second dt)
  +:+ (if microsecond dt =? 0 then "" else "." +:+ zpad 6 (microsecond dt))
  +:+ match tzinfo dt with None => "" | Some off => format_offset off end.

(** The unified item of all adapters, with the field types its dataclass
    declares. *)
Record RawItem := mkRawItem {
  id : string;
  topic : string;
  title : string;
  link : string;
  published : string;
  source : string;
  publisher : string;
  summary : option string;
  tags : option string;
  raw_payload : option dict }.

Definition with_id (it : RawItem) (i : string) : RawItem :=
  mkRawItem i (topic it) (title it) (link it) (published it) (source it)
            (publisher it) (summary it) (tags it) (raw_payload it).

(** [hashlib.sha256(content.encode('utf-8')).hexdigest()[:16]]. *)
Definition sha256_16 (content : string) : string :=
  String.substring 0 16 (SHA256.hexdigest (SHA256.bytes_of_string content)).

Section WithDateParser.

(** [dateutil.parser.parse]: [None] stands for any exception it raises. *)
Variable date_parse : string -> option datetime.

(** [RawItem._normalize_published_for_id]. *)
Definition _normalize_published_for_id (it : RawItem) : string :=
  if String.eqb (published it) "" then ""
  else match date_parse (published it) with
       | Some dt => isoformat (replace_second_microsecond dt)
       | None => ""
       end.

(** [RawItem.make_id]. *)
Definition make_id (it : RawItem) : string :=
  let published_norm := _normalize_published_for_id it in
  let content := link it +:+ "|" +:+ title it +:+ "|" +:+ published_norm in
  sha256_16 content.

Definition nonempty (s : string) : bool := negb (String.eqb s "").

(** [RawItem.__post_init__], run by every construction of an item. *)
Definition __post_init__ (it : RawItem) : result RawItem :=
  let it := if String.eqb (id it) "" then with_id it (make_id it) else it in
  if nonempty (title it) && nonempty (link it) && nonempty (published it)
     && nonempty (source it) && nonempty (publisher it)
  then Ok it
  else Raise ValueError.

(** [validate_raw_item]. *)
Definition required_fields : list string :=
  ["title"; "link"; "published"; "source"; "publisher"].

Definition validate_raw_item (item_data : dict) : bool :=
  if forallb (fun field => truthy (get item_data field)) required_fields
  then match get item_data "published" with
       | VStr s => match date_parse s with Some _ => true | None => false end
       | _ => false (* the parser raises TypeError on a non-string *)
       end
  else false.

End WithDateParser.

Definition opt_field (k : string) (o : option pyval) : dict :=
  match o with Some v => [(k, v)] | None => [] end.

(** [RawItem.to_dict]: the fields in order, without the [None] ones. *)
Definition to_dict (it : RawItem) : dict :=
  [("id", VStr (id it)); ("topic", VStr (topic it)); ("title", VStr (title it));
   ("link", VStr (link it)); ("published", VStr (published it));
   ("source", VStr (source it)); ("publisher", VStr (publisher it))]
  ++ opt_field "summary" (option_map VStr (summary it))
  ++ opt_field "tags" (option_map VStr (tags it))
  ++ opt_field "raw_payload" (option_map VDict (raw_payload it)).

(** A parser for the one shape [isoformat()] itself prints,
    [YYYY-MM-DDTHH:MM:SS] followed by nothing, [Z] or [+HH:MM] / [-HH:MM],
    on which it returns what [dateutil.parser.parse] returns.  It only
    instantiates [date_parse] in the examples. *)
Definition digit_val (c : ascii) : option Z :=
  let n := Z.of_N (N_of_ascii c) in
  if (48 <=? n) && (n <=? 57) then Some (n - 48) else None.

Fixpoint number (cs : list ascii) (acc : Z) : option Z :=
  match cs with
  | [] => Some acc
  | c :: rest =>
      match digit_val c with
      | Some d => number rest (10 * acc + d)
      | None => None
      end
  end.

Definition field (s : string) (start len : nat) : option Z :=
  let sub := String.substring start len s in
  if (String.length sub =? len)%nat then number (list_ascii_of_string sub) 0 else None.

Definition leap (y : Z) : bool :=
  ((y mod 4 =? 0) && negb (y mod 100 =? 0)) || (y mod 400 =? 0).

Definition days_in_month (y m : Z) : Z :=
  if m =? 2 then (if leap y then 29 else 28)
  else if (m =? 4) || (m =? 6) || (m =? 9) || (m =? 11) then 30 else 31.

Definition iso_zone (z : string) : option (option Z) :=
  if String.eqb z "" then Some None
  else if String.eqb z "Z" then Some (Some 0)
  else
    match String.get 0 z, field z 1 2, String.get 3 z, field z 4 2 with
    | Some sgn, Some h, Some colon, Some m =>
        if (String.length z =? 6)%nat && Ascii.eqb colon ":"
           && (h <? 24) && (m <? 60)
        then if Ascii.eqb sgn "+" then Some (Some (h * 3600 + m * 60))
             else if Ascii.eqb sgn "-" then Some (Some (- (h * 3600 + m * 60)))
             else None
        else None
    | _, _, _, _ => None
    end.

Definition iso_parse (s : string) : option datetime :=
  match field s 0 4, field s 5 2, field s 8 2,
        field s 11 2, field s 14 2, field s 17 2 with
  | Some y, Some mo, Some d, Some h, Some mi, Some sec =>
      if String.eqb (String.substring 4 1 s) "-"
         && String.eqb (String.substring 7 1 s) "-"
         && String.eqb (String.substring 10 1 s) "T"
         && String.eqb (String.substring 13 1 s) ":"
         && String.eqb (String.substring 16 1 s) ":"
         && (1 <=? y) && (1 <=? mo) && (mo <=? 12)
         && (1 <=? d) && (d <=? days_in_month y mo)
         && (h <? 24) && (mi <? 60) && (sec <? 60)
      then match iso_zone (String.substring 19 (String.length s - 19) s) with
           | Some tz => Some (DateTime y mo d h mi sec 0 tz)
           | None => None
           end
      else None
  | _, _, _, _, _, _ => None
  end.

End Schemas.

(* ===================================================================== *)
(** ** ingest/adaptive_feeds_worker.py: the scheduler's own item *)
(* ===================================================================== *)

Module Worker.

(** The scheduler's local [RawItem] dataclass. *)
Record RawItem := mkRawItem {
  id : string;
  title : string;
  link : string;
  published : string;
  source : string;
  publisher : string;
  summary : option string;
  category : option string }.

(** [RawItem.generate_id]. *)
Definition generate_id (it : RawItem) : string :=
  let content := title it +:+ link it +:+ published it in
  Schemas.sha256_16 content.

(** [RawItem.__post_init__]: it only fills the id in. *)
Definition __post_init__ (it : RawItem) : RawItem :=
  if String.eqb (id it) "" then
    mkRawItem (generate_id it) (title it) (link it) (published it) (source it)
              (publisher it) (summary it) (category it)
  else it.

End Worker.

(* ===================================================================== *)
(** ** ingest/adaptive_feeds_worker.py: per-host adaptive scheduling *)
(* ===================================================================== *)

Module Scheduler.

(** The fields of [RealtimeSettings] that the scheduler reads. *)
Record Settings := mkSettings {
  poll_baseline_seconds : Z;
  poll_min_seconds : Z;
  poll_max_seconds : Z;
  backoff_base : Z;
  backoff_factor : Q }.

(** The environment defaults of [load_settings]. *)
Definition default_settings : Settings := mkSettings 60 30 900 30 2.

Record HostState := mkHostState {
  next_due : Q;
  interval : Q;
  etag : option string;
  last_modified : option string;
  consecutive_ok : Z;
  consecutive_fail : Z;
  last_status : option Z;
  backoff_logged : bool }.

(** [any(code == c for code in status_codes if code is not None)]. *)
Definition has_code (c : Z) (status_codes : list (option Z)) : bool :=
  existsb (fun code => match code with Some x => x =? c | None => false end)
          status_codes.

Definition has_server_error (status_codes : list (option Z)) : bool :=
  existsb (fun code => match code with
                       | Some x => negb (x =? 0) && (500 <=? x)
                       | None => false
                       end) status_codes.

Definition has_client_error (status_codes : list (option Z)) : bool :=
  existsb (fun code => match code with Some _ => false | None => true end)
          status_codes.

(** [AdaptiveFeedWorker._update_host_state]; [jitter] is the draw of
    [random.uniform] over [jitter_range_seconds].  The log lines that end
    the method change nothing and are left out. *)
Definition _update_host_state (cfg : Settings) (state : HostState)
    (status_codes : list (option Z)) (new_items : Z) (now jitter : Q) : HostState :=
  let has_success := has_code 200 status_codes in
  let has_not_modified := has_code 304 status_codes in
  let has_rate_limit := has_code 429 status_codes in
  let has_forbidden := has_code 403 status_codes in
  let has_server_error := has_server_error status_codes in
  let has_client_error := has_client_error status_codes in
  (* consecutive counters *)
  let ok := has_success || has_not_modified in
  let c_ok :=
    if ok then consecutive_ok state + 1
    else if consecutive_fail state + 1 =? 1 then 0 else consecutive_ok state in
  let c_fail := if ok then 0 else consecutive_fail state + 1 in
  let logged := if ok then false else backoff_logged state in
  (* interval adjustment *)
  let '(new_interval, logged) :=
    if has_success && (0 <? new_items) then
      (max_ (inject_Z (poll_min_seconds cfg)) (interval state * (9 # 10))%Q, logged)
    else if has_not_modified || (has_success && (new_items =? 0)) then
      (min_ (interval state * (11 # 10))%Q (inject_Z (2 * poll_baseline_seconds cfg)),
       logged)
    else if has_rate_limit || has_forbidden || has_server_error || has_client_error then
      let backoff_interval :=
        (max_ (interval state) (inject_Z (backoff_base cfg)) * backoff_factor cfg)%Q in
      (min_ backoff_interval (inject_Z (poll_max_seconds cfg)), true)
    else (interval state, logged) in
  mkHostState (now + new_interval + jitter)%Q new_interval
              (etag state) (last_modified state) c_ok c_fail
              (last_status state) logged.

(** One polling cycle of a host as the scheduler sees it. *)
Record cycle := mkCycle {
  codes : list (option Z); found : Z; at_time : Q; drawn_jitter : Q }.

Definition after (cfg : Settings) (state : HostState) (c : cycle) : HostState :=
  _update_host_state cfg state (codes c) (found c) (at_time c) (drawn_jitter c).


End Scheduler.

(* ===================================================================== *)
(** ** bus/stream.py *)
(* ===================================================================== *)

Module Bus.

(** What a set or dictionary keeps of a hashable message id: [True] and
    [1] are one key. *)
Inductive pykey : Type :=
| KNone
| KInt (n : Z)
| KStr (s : string).

#[global] Instance pykey_eq_dec : EqDecision pykey.
Proof. solve_decision. Defined.

#[global] Instance pykey_countable : Countable pykey :=
  inj_countable'
    (fun k => match k with
              | KNone => inl tt
              | KInt n => inr (inl n)
              | KStr s => inr (inr s)
              end)
    (fun x => match x with
              | inl _ => KNone
              | inr (inl n) => KInt n
              | inr (inr s) => KStr s
              end)
    (fun k => match k with KNone => eq_refl | KInt _ => eq_refl | KStr _ => eq_refl end).

(** [hash(v)]: lists and dictionaries are unhashable. *)
Definition hash_key (v : pyval) : result pykey :=
  match v with
  | VNone => Ok KNone
  | VBool b => Ok (KInt (if b then 1 else 0))
  | VInt n => Ok (KInt n)
  | VStr s => Ok (KStr s)
  | VList _ => Raise TypeError
  | VDict _ => Raise TypeError
  end.

Record StreamMessage := mkStreamMessage {
  msg_id : pyval;
  msg_channel : string;
  msg_data : dict;
  msg_timestamp : Q;
  msg_source : string }.

(** *** RateLimiter *)

Record RateLimiter := mkRateLimiter {
  tokens_per_second : Q;
  max_tokens : Z;
  tokens : Q;
  last_update : Q }.

(** [RateLimiter.__init__], at clock reading [now]. *)
Definition RateLimiter_init (tokens_per_second : Q) (max_tokens : Z) (now : Q)
  : RateLimiter :=
  mkRateLimiter tokens_per_second max_tokens (inject_Z max_tokens) now.

(** [RateLimiter.allow], at clock reading [now]. *)
Definition allow (rl : RateLimiter) (now : Q) : bool * RateLimiter :=
  let elapsed := (now - last_update rl)%Q in
  let refilled :=
    min_ (inject_Z (max_tokens rl)) (tokens rl + elapsed * tokens_per_second rl)%Q in
  if Qle_bool 1 refilled
  then (true, mkRateLimiter (tokens_per_second rl) (max_tokens rl) (refilled - 1)%Q now)
  else (false, mkRateLimiter (tokens_per_second rl) (max_tokens rl) refilled now).

(** [int(x)]: truncation towards zero. *)
Definition py_int (x : Q) : Z := Z.quot (Qnum x) (Zpos (Qden x)).

(** *** Bounded channel history *)

(** [deque(maxlen=1000)]. *)
Definition channel_maxlen : nat := 1000.

(** [deque.append] on a deque bounded by [maxlen]: the new element goes to
    the right and, if the deque got too long, the leftmost one is dropped. *)
Definition deque_append {A} (maxlen : nat) (d : list A) (x : A) : list A :=
  let d' := d ++ [x] in
  if (maxlen <? List.length d')%nat then List.tl d' else d'.

(** *** EventBus *)

Record EventBus := mkEventBus {
  max_recent_items : Z;
  recent_ttl_seconds : Z;
  default_rate_limit : Q;
  channels : gmap string (list StreamMessage);
  recent_ids : gset pykey;
  recent_timestamps : list (pykey * Q);
  rate_limiters : gmap string RateLimiter;
  subscribers : gmap string (list nat) }.

(** [EventBus.__init__]; its defaults are 10000, 3600 and 10.0. *)
Definition EventBus_init (max_recent_items recent_ttl_seconds : Z)
    (default_rate_limit : Q) : EventBus :=
  mkEventBus max_recent_items recent_ttl_seconds default_rate_limit ∅ ∅ [] ∅ ∅.

Definition with_channels (b : EventBus) (c : gmap string (list StreamMessage)) :=
  mkEventBus (max_recent_items b) (recent_ttl_seconds b) (default_rate_limit b)
             c (recent_ids b) (recent_timestamps b) (rate_limiters b) (subscribers b).
Definition with_recent (b : EventBus) (ids : gset pykey) (ts : list (pykey * Q)) :=
  mkEventBus (max_recent_items b) (recent_ttl_seconds b) (default_rate_limit b)
             (channels b) ids ts (rate_limiters b) (subscribers b).
Definition with_rate_limiters (b : EventBus) (r : gmap string RateLimiter) :=
  mkEventBus (max_recent_items b) (recent_ttl_seconds b) (default_rate_limit b)
             (channels b) (recent_ids b) (recent_timestamps b) r (subscribers b).
Definition with_subscribers (b : EventBus) (s : gmap string (list nat)) :=
  mkEventBus (max_recent_items b) (recent_ttl_seconds b) (default_rate_limit b)
             (channels b) (recent_ids b) (recent_timestamps b) (rate_limiters b) s.

(** The history of a channel; a [defaultdict] answers an unknown channel
    with an empty deque. *)
Definition history (b : EventBus) (channel : string) : list StreamMessage :=
  default [] (channels b !! channel).

(** [EventBus._get_rate_limiter]; [now] is read only when a limiter is made. *)
Definition _get_rate_limiter (b : EventBus) (source : string) (now : Q)
  : RateLimiter * EventBus :=
  match rate_limiters b !! source with
  | Some rl => (rl, b)
  | None =>
      let rl := RateLimiter_init (default_rate_limit b)
                                 (py_int (default_rate_limit b * 5)%Q) now in
      (rl, with_rate_limiters b (<[source := rl]> (rate_limiters b)))
  end.

(** *** Recent-id tracking.  [recent_timestamps] is a dictionary in
    insertion order, which [min] walks. *)

(** [d.pop(k, None)]. *)
Definition dict_pop (k : pykey) (d : list (pykey * Q)) : list (pykey * Q) :=
  List.filter (fun e => negb (bool_decide (fst e = k))) d.

(** [d[k] = v]. *)
Fixpoint dict_store (k : pykey) (v : Q) (d : list (pykey * Q)) : list (pykey * Q) :=
  match d with
  | [] => [(k, v)]
  | e :: rest =>
      if bool_decide (fst e = k) then (k, v) :: rest else e :: dict_store k v rest
  end.

(** [min(d.keys(), key=lambda x: d[x])]: the first of the smallest. *)
Fixpoint oldest_from (best : pykey * Q) (d : list (pykey * Q)) : pykey * Q :=
  match d with
  | [] => best
  | e :: rest => oldest_from (if qlt (snd e) (snd best) then e else best) rest
  end.

Definition oldest (d : list (pykey * Q)) : result pykey :=
  match d with
  | [] => Raise ValueError
  | e :: rest => Ok (fst (oldest_from e rest))
  end.

(** The [while len(recent_ids) > max_recent_items] loop of
    [_cleanup_recent]; every turn pops a key of the dictionary, so its
    length bounds the number of turns. *)
Fixpoint enforce_max (fuel : nat) (max : Z) (ids : gset pykey)
    (ts : list (pykey * Q)) : result unit * (gset pykey * list (pykey * Q)) :=
  if max <? Z.of_nat (size ids) then
    match oldest ts with
    | Raise e => (Raise e, (ids, ts))
    | Ok oldest_id =>
        match fuel with
        | O => (Raise ValueError, (ids, ts))
        | S f => enforce_max f max (ids ∖ {[oldest_id]}) (dict_pop oldest_id ts)
        end
    end
  else (Ok tt, (ids, ts)).

(** [EventBus._cleanup_recent], at clock reading [now]. *)
Definition _cleanup_recent (b : EventBus) (now : Q) : result unit * EventBus :=
  let cutoff := (now - inject_Z (recent_ttl_seconds b))%Q in
  let expired_ids :=
    List.map fst (List.filter (fun e => qlt (snd e) cutoff) (recent_timestamps b)) in
  let ids := List.fold_left (fun s k => s ∖ {[k]}) expired_ids (recent_ids b) in
  let ts := List.fold_left (fun d k => dict_pop k d) expired_ids (recent_timestamps b) in
  let '(r, (ids, ts)) := enforce_max (List.length ts) (max_recent_items b) ids ts in
  (r, with_recent b ids ts).

(** [EventBus.seen_recent]. *)
Definition seen_recent (b : EventBus) (message_id : pyval) (now : Q)
  : result bool * EventBus :=
  let '(r, b) := _cleanup_recent b now in
  match r with
  | Raise e => (Raise e, b)
  | Ok _ =>
      match hash_key message_id with
      | Raise e => (Raise e, b)
      | Ok k => (Ok (bool_decide (k ∈ recent_ids b)), b)
      end
  end.

(** [EventBus._mark_seen]. *)
Definition _mark_seen (b : EventBus) (message_id : pyval) (now : Q)
  : result unit * EventBus :=
  match hash_key message_id with
  | Raise e => (Raise e, b)
  | Ok k => (Ok tt, with_recent b ({[k]} ∪ recent_ids b)
                                (dict_store k now (recent_timestamps b)))
  end.

(** The clock readings of one [xadd_json] call, in the order it makes them. *)
Record readings := mkReadings {
  at_default_id : string; (* [str(time.time())] inside the default id *)
  at_limiter_init : Q;
  at_allow : Q;
  at_cleanup : Q;
  at_message : Q;
  at_mark : Q }.

Section WithDateParser.

Variable date_parse : string -> option Schemas.datetime.

(** [EventBus.xadd_json].  Subscriber callbacks get the message and have no
    hold on the bus; what they raise is caught. *)
Definition xadd_json (b : EventBus) (channel : string) (data : dict)
    (source : string) (clk : readings) : result bool * EventBus :=
  let checked :=
    if String.eqb channel "news.raw" then
      if Schemas.validate_raw_item date_parse data then Some (get data "id") else None
    else Some (get_default data "id" (VStr (channel +:+ ":" +:+ at_default_id clk))) in
  match checked with
  | None => (Ok false, b)
  | Some message_id =>
      if negb (truthy message_id) then (Ok false, b)
      else
        (* rate limiting *)
        let '(rate_limiter, b) := _get_rate_limiter b source (at_limiter_init clk) in
        let '(allowed, rate_limiter) := allow rate_limiter (at_allow clk) in
        let b := with_rate_limiters b (<[source := rate_limiter]> (rate_limiters b)) in
        if negb allowed then (Ok false, b)
        else
          (* deduplication *)
          match seen_recent b message_id (at_cleanup clk) with
          | (Raise e, b) => (Raise e, b)
          | (Ok true, b) => (Ok false, b)
          | (Ok false, b) =>
              let message :=
                mkStreamMessage message_id channel data (at_message clk) source in
              let b := with_channels b
                         (<[channel := deque_append channel_maxlen (history b channel)
                                                    message]> (channels b)) in
              match _mark_seen b message_id (at_mark clk) with
              | (Raise e, b) => (Raise e, b)
              | (Ok _, b) =>
                  let b := with_subscribers b
                             (<[channel := default [] (subscribers b !! channel)]>
                                (subscribers b)) in
                  (Ok true, b)
              end
          end
  end.

(** [publish_raw_item] of an item already turned into its dictionary. *)
Definition publish_raw_item (b : EventBus) (item : dict) (source : string)
    (clk : readings) : result bool * EventBus :=
  xadd_json b "news.raw" item source clk.

(** [l[:n]]. *)
Definition slice_to {A} (n : Z) (l : list A) : list A :=
  if n <? 0 then List.firstn (Z.to_nat (Z.of_nat (List.length l) + n)) l
  else List.firstn (Z.to_nat n) l.

(** [EventBus.get_recent_messages]: most recent first. *)
Definition get_recent_messages (b : EventBus) (channel : string) (limit : Z)
  : list dict * EventBus :=
  let messages := List.rev (history b channel) in
  (List.map msg_data (slice_to limit messages),
   with_channels b (<[channel := history b channel]> (channels b))).

(** [EventBus.subscribe] and [EventBus.unsubscribe]; a callback is a handle. *)
Definition subscribe (b : EventBus) (channel : string) (callback : nat) : EventBus :=
  with_subscribers b
    (<[channel := default [] (subscribers b !! channel) ++ [callback]]> (subscribers b)).

Fixpoint remove_first (x : nat) (l : list nat) : list nat :=
  match l with
  | [] => []
  | y :: rest => if (x =? y)%nat then rest else y :: remove_first x rest
  end.

Definition unsubscribe (b : EventBus) (channel : string) (callback : nat) : EventBus :=
  with_subscribers b
    (<[channel := remove_first callback (default [] (subscribers b !! channel))]>
       (subscribers b)).

(** The operations of the bus, and a bus after one of them (whatever its
    outcome). *)
Inductive operation : Type :=
| OpXadd (channel : string) (data : dict) (source : string) (clk : readings)
| OpSeenRecent (message_id : pyval) (now : Q)
| OpMarkSeen (message_id : pyval) (now : Q)
| OpRecentMessages (channel : string) (limit : Z)
| OpSubscribe (channel : string) (callback : nat)
| OpUnsubscribe (channel : string) (callback : nat).

Definition run (b : EventBus) (o : operation) : EventBus :=
  match o with
  | OpXadd channel data source clk => snd (xadd_json b channel data source clk)
  | OpSeenRecent message_id now => snd (seen_recent b message_id now)
  | OpMarkSeen message_id now => snd (_mark_seen b message_id now)
  | OpRecentMessages channel limit => snd (get_recent_messages b channel limit)
  | OpSubscribe channel callback => subscribe b channel callback
  | OpUnsubscribe channel callback => unsubscribe b channel callback
  end.

End WithDateParser.

End Bus.

(* ===================================================================== *)
(** ** adapters/mappers.py *)
(* ===================================================================== *)

Module Mappers.

Section WithVendorMappers.

(** The vendor mappers build a [RawItem] from the fields they pick; they
    raise when a configuration key is missing, when tags cannot be joined
    or when [RawItem.__post_init__] finds a required field empty.  The
    entry points only dispatch to them, so they are taken as they come. *)
Variables _map_reuters_ws _map_bloomberg_ws _map_cnbc_ws _map_generic_ws
  : pyval -> dict -> result Schemas.RawItem.
Variables _map_reuters_webhook _map_bloomberg_webhook _map_cnbc_webhook
          _map_yahoo_webhook _map_generic_webhook
  : pyval -> strdict -> result Schemas.RawItem.
Variables _map_bloomberg_newswire _map_reuters_newswire _map_dow_jones_newswire
          _map_generic_newswire
  : pyval -> dict -> result Schemas.RawItem.

(** [map_ws_payload_to_raw]. *)
Definition map_ws_payload_to_raw (payload : pyval) (cfg : dict)
  : result (option Schemas.RawItem) :=
  try_except
    (bind (obj_lower (get_default cfg "name" (VStr "unknown"))) (fun vendor =>
     bind (if contains "reuters" vendor then _map_reuters_ws payload cfg
           else if contains "bloomberg" vendor then _map_bloomberg_ws payload cfg
           else if contains "cnbc" vendor then _map_cnbc_ws payload cfg
           else _map_generic_ws payload cfg)
          (fun item => Ok (Some item))))
    (fun e =>
       (* the handler formats cfg.get('name', 'unknown') and the payload *)
       Ok None).

(** The vendor hint of [map_webhook_payload_to_raw]: a chain of [or] that
    stops at the first non-empty value, then [.lower()]. *)
Definition webhook_vendor (payload : pyval) (headers : strdict) : result string :=
  let x_vendor := str_get headers "X-Vendor" "" in
  if negb (String.eqb x_vendor "") then Ok (lower x_vendor)
  else
    let user_agent := str_get headers "User-Agent" "" in
    if negb (String.eqb user_agent "") then Ok (lower user_agent)
    else
      bind (obj_get payload "vendor" (VStr "")) (fun v =>
        if truthy v then obj_lower v
        else bind (obj_get payload "source" (VStr "unknown")) obj_lower).

(** [map_webhook_payload_to_raw].  Its handler formats the local variable
    [vendor], which is bound only if the first statement of the [try]
    block completed. *)
Definition map_webhook_payload_to_raw (payload : pyval) (headers : strdict)
  : result (option Schemas.RawItem) :=
  let vendor := webhook_vendor payload headers in
  try_except
    (bind vendor (fun vendor =>
     bind (if contains "reuters" vendor then _map_reuters_webhook payload headers
           else if contains "bloomberg" vendor then _map_bloomberg_webhook payload headers
           else if contains "cnbc" vendor || contains "nbc" vendor
                then _map_cnbc_webhook payload headers
           else if contains "yahoo" vendor then _map_yahoo_webhook payload headers
           else _map_generic_webhook payload headers)
          (fun item => Ok (Some item))))
    (fun e =>
       match vendor with
       | Ok _ => Ok None
       | Raise _ => Raise UnboundLocalError
       end).

(** [map_newswire_to_raw]. *)
Definition map_newswire_to_raw (payload : pyval) (cfg : dict)
  : result (option Schemas.RawItem) :=
  try_except
    (bind (obj_lower (get_default cfg "vendor" (VStr "unknown"))) (fun vendor =>
     bind (if String.eqb vendor "bloomberg" || String.eqb vendor "bloomberg_api"
           then _map_bloomberg_newswire payload cfg
           else if String.eqb vendor "reuters" || String.eqb vendor "reuters_eikon"
           then _map_reuters_newswire payload cfg
           else if String.eqb vendor "dow_jones" || String.eqb vendor "factiva"
           then _map_dow_jones_newswire payload cfg
           else _map_generic_newswire payload cfg)
          (fun item => Ok (Some item))))
    (fun e => Ok None).

(** [not d] for an optional dictionary. *)
Definition absent {A} (d : option (list A)) : bool :=
  match d with
  | None => true
  | Some [] => true
  | Some _ => false
  end.

(** [safe_map_payload]. *)
Definition safe_map_payload (payload : pyval) (adapter_type : string)
    (config : option dict) (headers : option strdict)
  : result (option Schemas.RawItem) :=
  try_except
    (if String.eqb adapter_type "websocket" then
       if absent config then Raise ValueError
       else map_ws_payload_to_raw payload (default [] config)
     else if String.eqb adapter_type "webhook" then
       if absent headers then Raise ValueError
       else map_webhook_payload_to_raw payload (default [] headers)
     else if String.eqb adapter_type "newswire" then
       if absent config then Raise ValueError
       else map_newswire_to_raw payload (default [] config)
     else Raise ValueError)
    (fun e => Ok None).

End WithVendorMappers.

End Mappers.

(* ===================================================================== *)
(** ** adapters/webhook_adapter.py *)
(* ===================================================================== *)

Module Webhook.

(** [hmac.compare_digest] on two [str]: it raises on non-ASCII text. *)
Definition is_ascii (s : string) : bool :=
  forallb (fun c => (N_of_ascii c <? 128)%N) (list_ascii_of_string s).

Definition compare_digest (a b : string) : result bool :=
  if is_ascii a && is_ascii b then Ok (String.eqb a b) else Raise TypeError.

(** The hex text the signature header carries, prefix removed. *)
Definition provided_hash (signature : string) : string :=
  if String.prefix "sha256=" signature then drop 7 signature
  else if String.prefix "v0=" signature then drop 3 signature
  else signature.

(** [hmac.new(secret.encode('utf-8'), payload_body, hashlib.sha256).hexdigest()]. *)
Definition expected_hash (payload_body secret : string) : string :=
  SHA256.hmac_hexdigest (SHA256.bytes_of_string secret)
                        (SHA256.bytes_of_string payload_body).

(** [validate_signature]; the body is the raw bytes of the request. *)
Definition validate_signature (payload_body signature secret : string) : bool :=
  if String.eqb secret "" || String.eqb signature "" then false
  else
    match try_except
            (compare_digest (expected_hash payload_body secret)
                            (provided_hash signature))
            (fun e => Ok false)
    with
    | Ok r => r
    | Raise _ => false
    end.

(** [extract_vendor_from_headers]. *)
Definition vendor_headers : list string :=
  ["X-Vendor"; "X-Source"; "User-Agent"; "X-GitHub-Event"; "X-Slack-Signature"].

Definition vendor_of_value (value : string) : string :=
  if contains "github" value then "github"
  else if contains "slack" value then "slack"
  else if contains "reuters" value then "reuters"
  else if contains "bloomberg" value then "bloomberg"
  else if contains "cnbc" value || contains "nbc" value then "cnbc"
  else if contains "yahoo" value then "yahoo"
  else before "/" value.

Fixpoint first_vendor (names : list string) (headers : strdict) : string :=
  match names with
  | [] => "unknown"
  | header :: rest =>
      let value := lower (str_get headers header "") in
      if negb (String.eqb value "") then vendor_of_value value
      else first_vendor rest headers
  end.

Definition extract_vendor_from_headers (headers : strdict) : string :=
  first_vendor vendor_headers headers.

(** A request as [receive_webhook] sees it: the raw body, what
    [request.json()] makes of it ([None] when it raises), the headers as a
    dictionary, and the four headers the framework hands over by name. *)
Record request := mkRequest {
  body : string;
  json : option pyval;
  headers : strdict;
  x_signature : option string;
  x_hub_signature_256 : option string;
  x_slack_signature : option string;
  x_vendor : option string }.

(** [a or b] on optional strings. *)
Definition or_str (a : option string) (b : string) : string :=
  match a with
  | Some s => if String.eqb s "" then b else s
  | None => b
  end.

(** The signature [receive_webhook] checks. *)
Definition signature_of (req : request) : string :=
  or_str (x_signature req)
    (or_str (x_hub_signature_256 req)
       (or_str (x_slack_signature req) (str_get (headers req) "authorization" ""))).

(** The background task [process_webhook_payload(payload, headers, vendor)]. *)
Record task := mkTask {
  task_payload : pyval;
  task_headers : strdict;
  task_vendor : string }.

Inductive response : Type :=
| Accepted (* WebhookResponse(status="accepted", ...) *)
| HTTPException (status_code : Z) (detail : string).

(** [receive_webhook], for the configured [webhook_secret]: the response and
    the background tasks it scheduled.  The statistics counters, on which
    no response depends, are left out. *)
Definition receive_webhook (webhook_secret : string) (req : request)
  : response * list task :=
  let vendor := or_str (x_vendor req) (extract_vendor_from_headers (headers req)) in
  let signature := signature_of req in
  if negb (String.eqb webhook_secret "") && String.eqb signature "" then
    (HTTPException 401 "Missing signature", [])
  else if negb (String.eqb webhook_secret "")
          && negb (validate_signature (body req) signature webhook_secret) then
    (HTTPException 401 "Invalid signature", [])
  else
    match json req with
    | None => (HTTPException 400 "Invalid JSON payload", [])
    | Some payload => (Accepted, [mkTask payload (headers req) vendor])
    end.

End Webhook.

(* ===================================================================== *)
(** ** realtime/hub.py: the merged view *)
(* ===================================================================== *)

Module Hub.
Import Bus.

(** [a < b] between two sort keys, for strings (by code point, which is
    the byte order of UTF-8) and for integers, booleans counting as 0 and
    1; between other values of this model it raises [TypeError]. *)
Definition py_lt (a b : pyval) : result bool :=
  match a, b with
  | VStr x, VStr y => Ok (String.ltb x y)
  | VInt x, VInt y => Ok (x <? y)
  | VInt x, VBool y => Ok (x <? (if y then 1 else 0))
  | VBool x, VInt y => Ok ((if x then 1 else 0) <? y)
  | VBool x, VBool y => Ok (negb x && y)
  | _, _ => Raise TypeError
  end.

Definition raises {A} (r : result A) : bool :=
  match r with Ok _ => false | Raise _ => true end.

Definition holds (r : result bool) : bool :=
  match r with Ok b => b | Raise _ => false end.

(** [x.get('published', '')], the sort key. *)
Definition published_key (x : dict) : pyval := get_default x "published" (VStr "").

(** No comparison between two of the keys raises. *)
Fixpoint comparable (keys : list pyval) : bool :=
  match keys with
  | [] => true
  | k :: rest =>
      forallb (fun k' => negb (raises (py_lt k k')) && negb (raises (py_lt k' k))) rest
      && comparable rest
  end.

(** Where a stable descending sort puts [x] in front of the already sorted
    items that come after it. *)
Fixpoint insert_desc (x : dict) (sorted : list dict) : list dict :=
  match sorted with
  | [] => [x]
  | y :: rest =>
      if holds (py_lt (published_key x) (published_key y))
      then y :: insert_desc x rest
      else x :: sorted
  end.

Definition sorted_desc (items : list dict) : list dict :=
  List.fold_right insert_desc [] items.

Section WithAbortedSort.

(** The order [list.sort] leaves a list in when a comparison raises in
    the middle of it, which Python does not specify. *)
Variable aborted_sort : list dict -> list dict.

(** [try: all_items.sort(key=..., reverse=True) except Exception: ...]:
    a sort that completes is stable, whatever its algorithm. *)
Definition sort_by_published (items : list dict) : list dict :=
  if comparable (List.map published_key items) then sorted_desc items
  else aborted_sort items.

(** The conversion of a legacy snapshot item. *)
Definition legacy_topic (item : dict) : dict :=
  if has_key item "category" && negb (has_key item "topic")
  then set "topic" (get item "category") item
  else item.

(** One turn of a deduplication loop of [get_latest_items]. *)
Definition add_item (convert : dict -> dict) (st : list dict * gset pykey)
    (item : dict) : result (list dict * gset pykey) :=
  let '(all_items, seen_ids) := st in
  let item_id := get item "id" in
  if truthy item_id then
    bind (hash_key item_id) (fun k =>
      if bool_decide (k ∈ seen_ids) then Ok st
      else Ok (all_items ++ [convert item], {[k]} ∪ seen_ids))
  else Ok st.

Fixpoint add_items (convert : dict -> dict) (st : list dict * gset pykey)
    (items : list dict) : result (list dict * gset pykey) :=
  match items with
  | [] => Ok st
  | item :: rest => bind (add_item convert st item) (fun st => add_items convert st rest)
  end.

(** [UnifiedDataManager._get_event_bus_items]. *)
Definition _get_event_bus_items (b : EventBus) (limit : Z) : list dict * EventBus :=
  get_recent_messages b "news.raw" limit.

(** [UnifiedDataManager.get_latest_items]; [rss_items] is the item list of
    the loaded snapshot. *)
Definition get_latest_items (b : EventBus) (rss_items : list dict) (limit : Z)
  : result (list dict) * EventBus :=
  let '(event_items, b) := _get_event_bus_items b (limit * 2) in
  (bind (add_items (fun item => item) ([], ∅) event_items) (fun st =>
   bind (add_items legacy_topic st rss_items) (fun st =>
   Ok (slice_to limit (sort_by_published (fst st))))),
   b).

End WithAbortedSort.

End Hub.

(* ===================================================================== *)
(** ** storage/schemas.py: the legacy format *)
(* ===================================================================== *)

Module Legacy.
Import Schemas.

(** [RawItem.to_legacy_dict]: every value is a string. *)
Definition to_legacy_dict (it : RawItem) : strdict :=
  [("id", id it); ("title", title it); ("link", link it);
   ("published", published it); ("source", source it);
   ("publisher", publisher it);
   ("summary", match summary it with
               | Some s => if String.eqb s "" then "" else s
               | None => ""
               end);
   ("category", topic it)].

(** [d[k]] on a [Dict[str, str]]. *)
Definition str_item (d : strdict) (k : string) : result string :=
  match str_lookup k d with Some v => Ok v | None => Raise KeyError end.

Section WithDateParser.

Variable date_parse : string -> option datetime.

(** [RawItem.from_legacy_dict], on the legacy dictionaries, whose values
    are strings; the arguments are evaluated in the order they are
    written, then the constructor runs [__post_init__]. *)
Definition from_legacy_dict (data : strdict) : result RawItem :=
  let id_ := str_get data "id" "" in
  let topic_ := str_get data "category" "news" in
  bind (str_item data "title") (fun title_ =>
  bind (str_item data "link") (fun link_ =>
  bind (str_item data "published") (fun published_ =>
  bind (str_item data "source") (fun source_ =>
  bind (str_item data "publisher") (fun publisher_ =>
  __post_init__ date_parse
    (mkRawItem id_ topic_ title_ link_ published_ source_ publisher_
               (str_lookup "summary" data) None None)))))).

End WithDateParser.

End Legacy.

(* ===================================================================== *)
(** ** ingest/adaptive_feeds_worker.py: fetching, parsing and saving *)
(* ===================================================================== *)

Module Ingest.
Import Scheduler.

Definition with_interval (state : HostState) (i : Q) : HostState :=
  mkHostState (next_due state) i (etag state) (last_modified state)
              (consecutive_ok state) (consecutive_fail state)
              (last_status state) (backoff_logged state).

Definition with_validators (state : HostState) (e lm : option string) : HostState :=
  mkHostState (next_due state) (interval state) e lm
              (consecutive_ok state) (consecutive_fail state)
              (last_status state) (backoff_logged state).

(** What the HTTP exchange of [_fetch_feed] came to: a response, with its
    status, the three headers the method reads and, for a 200, the count
    [_parse_feed_content] returns for its body; or a timeout, a client
    error or any other exception. *)
Inductive exchange : Type :=
| Response (status : Z) (etag_header last_modified_header retry_after : option string)
           (new_items : Z)
| Failure.

Section WithIntParser.

(** [int(s)] on a string: [None] stands for [ValueError]. *)
Variable int_of_str : string -> option Z.

(** [AdaptiveFeedWorker._fetch_feed], from the response on: the status and
    item count it returns, and the host state it leaves.  The fetch
    counter of the statistics is left out. *)
Definition _fetch_feed (state : HostState) (x : exchange)
  : (option Z * Z) * HostState :=
  match x with
  | Failure => ((None, 0), state)
  | Response status etag_header last_modified_header retry_after new_items =>
      if status =? 304 then ((Some 304, 0), state)
      else if status =? 200 then
        ((Some 200, new_items), with_validators state etag_header last_modified_header)
      else if status =? 429 then
        let state :=
          match retry_after with
          | Some s =>
              if negb (String.eqb s "") then
                match int_of_str s with
                | Some retry_seconds =>
                    with_interval state (max_ (inject_Z retry_seconds) (interval state))
                | None => state
                end
              else state
          | None => state
          end in
        ((Some 429, 0), state)
      else ((Some status, 0), state)
  end.

End WithIntParser.


(** The hosts [_tick] polls at clock reading [now]. *)
Definition due_hosts (host_states : list (string * HostState)) (now : Q)
  : list string :=
  List.map fst (List.filter (fun hs => Qle_bool (next_due (snd hs)) now) host_states).

(** [dataclasses.asdict] of the scheduler's item. *)
Definition opt_str (o : option string) : pyval :=
  match o with Some s => VStr s | None => VNone end.

Definition asdict (item : Worker.RawItem) : dict :=
  [("id", VStr (Worker.id item)); ("title", VStr (Worker.title item));
   ("link", VStr (Worker.link item)); ("published", VStr (Worker.published item));
   ("source", VStr (Worker.source item)); ("publisher", VStr (Worker.publisher item));
   ("summary", opt_str (Worker.summary item));
   ("category", opt_str (Worker.category item))].

(** The snapshot file, once loaded. *)
Record FeedData := mkFeedData {
  items : list dict;
  last_updated : option string;
  total_items : Z }.

(** [AdaptiveFeedWorker._save_items]: [file] is the snapshot read from the
    disk, [None] when there is no file yet, [now_iso] the timestamp it
    writes; the result is the snapshot it writes back.  The disk is
    taken to work. *)
Definition _save_items (new_items : list Worker.RawItem) (file : option FeedData)
    (now_iso : string) : FeedData :=
  let data := default (mkFeedData [] None 0) file in
  let kept := List.firstn 1000 (List.map asdict new_items ++ items data) in
  mkFeedData kept (Some now_iso) (Z.of_nat (List.length kept)).

(** One turn of the loop of [_parse_feed_content] over an entry that
    [_extract_item_data] turned into an item, or failed on. *)
Definition parse_entry (st : list Worker.RawItem * gset string)
    (extracted : result Worker.RawItem) : list Worker.RawItem * gset string :=
  match extracted with
  | Raise _ => st
  | Ok item =>
      if bool_decide (Worker.id item ∈ snd st) then st
      else (fst st ++ [item], {[Worker.id item]} ∪ snd st)
  end.

(** [AdaptiveFeedWorker._parse_feed_content] on a body that [feedparser]
    parsed: the count it returns, the seen ids and the snapshot it leaves. *)
Definition _parse_feed_content (max_items_per_feed : Z) (seen_items : gset string)
    (file : option FeedData) (entries : list (result Worker.RawItem))
    (now_iso : string) : Z * (gset string * option FeedData) :=
  let '(new_items, seen_items) :=
    List.fold_left parse_entry (Bus.slice_to max_items_per_feed entries)
                   ([], seen_items) in
  (Z.of_nat (List.length new_items),
   (seen_items,
    match new_items with
    | [] => file
    | _ => Some (_save_items new_items file now_iso)
    end)).

End Ingest.

(* ===================================================================== *)
(** ** adapters/webhook_adapter.py: statistics, background task, test
    endpoint *)
(* ===================================================================== *)

Module WebhookApp.
Import Webhook.

(** An entry of [WebhookStats.vendor_stats]. *)
Record VendorStats := mkVendorStats {
  requests : Z;
  valid : Z;
  errors : Z }.

(** [WebhookStats], without the start time that only the uptime reads. *)
Record WebhookStats := mkWebhookStats {
  total_requests : Z;
  valid_requests : Z;
  invalid_signatures : Z;
  mapping_errors : Z;
  published_items : Z;
  duplicate_items : Z;
  rate_limited : Z;
  vendor_stats : gmap string VendorStats }.

Definition WebhookStats_init : WebhookStats := mkWebhookStats 0 0 0 0 0 0 0 ∅.

Definition with_vendor_stats (s : WebhookStats) (v : gmap string VendorStats)
  : WebhookStats :=
  mkWebhookStats (total_requests s) (valid_requests s) (invalid_signatures s)
                 (mapping_errors s) (published_items s) (duplicate_items s)
                 (rate_limited s) v.

(** [WebhookStats.record_request]. *)
Definition record_request (s : WebhookStats) (vendor : string) : WebhookStats :=
  let entry := default (mkVendorStats 0 0 0) (vendor_stats s !! vendor) in
  mkWebhookStats (total_requests s + 1) (valid_requests s) (invalid_signatures s)
                 (mapping_errors s) (published_items s) (duplicate_items s)
                 (rate_limited s)
                 (<[vendor := mkVendorStats (requests entry + 1) (valid entry)
                                            (errors entry)]> (vendor_stats s)).

(** [WebhookStats.record_valid]: the vendor entry is indexed, not looked
    up, after the total has been counted. *)
Definition record_valid (s : WebhookStats) (vendor : string)
  : result unit * WebhookStats :=
  let s := mkWebhookStats (total_requests s) (valid_requests s + 1)
                          (invalid_signatures s) (mapping_errors s)
                          (published_items s) (duplicate_items s) (rate_limited s)
                          (vendor_stats s) in
  match vendor_stats s !! vendor with
  | None => (Raise KeyError, s)
  | Some entry =>
      (Ok tt,
       with_vendor_stats s
         (<[vendor := mkVendorStats (requests entry) (valid entry + 1) (errors entry)]>
            (vendor_stats s)))
  end.

(** [WebhookStats.record_error]. *)
Definition record_error (s : WebhookStats) (error_type vendor : string)
  : WebhookStats :=
  let s :=
    if String.eqb error_type "invalid_signature" then
      mkWebhookStats (total_requests s) (valid_requests s) (invalid_signatures s + 1)
                     (mapping_errors s) (published_items s) (duplicate_items s)
                     (rate_limited s) (vendor_stats s)
    else if String.eqb error_type "mapping_error" then
      mkWebhookStats (total_requests s) (valid_requests s) (invalid_signatures s)
                     (mapping_errors s + 1) (published_items s) (duplicate_items s)
                     (rate_limited s) (vendor_stats s)
    else if String.eqb error_type "rate_limited" then
      mkWebhookStats (total_requests s) (valid_requests s) (invalid_signatures s)
                     (mapping_errors s) (published_items s) (duplicate_items s)
                     (rate_limited s + 1) (vendor_stats s)
    else s in
  match vendor_stats s !! vendor with
  | Some entry =>
      with_vendor_stats s
        (<[vendor := mkVendorStats (requests entry) (valid entry) (errors entry + 1)]>
           (vendor_stats s))
  | None => s
  end.

(** [WebhookStats.record_published] and [WebhookStats.record_duplicate]. *)
Definition record_published (s : WebhookStats) : WebhookStats :=
  mkWebhookStats (total_requests s) (valid_requests s) (invalid_signatures s)
                 (mapping_errors s) (published_items s + 1) (duplicate_items s)
                 (rate_limited s) (vendor_stats s).

Definition record_duplicate (s : WebhookStats) : WebhookStats :=
  mkWebhookStats (total_requests s) (valid_requests s) (invalid_signatures s)
                 (mapping_errors s) (published_items s) (duplicate_items s + 1)
                 (rate_limited s) (vendor_stats s).

(** The [success_rate] of [WebhookStats.get_stats]. *)
Definition success_rate (s : WebhookStats) : Q :=
  (inject_Z (valid_requests s) / inject_Z (Z.max 1 (total_requests s)))%Q.

(** [receive_webhook] with the statistics it keeps: the response, the
    background tasks it scheduled and the counters it leaves.  An
    exception that escapes the handler is the framework's 500. *)
Definition receive_webhook (webhook_secret : string) (stats : WebhookStats)
    (req : request) : (response * list task) * WebhookStats :=
  let vendor := or_str (x_vendor req) (extract_vendor_from_headers (headers req)) in
  let stats := record_request stats vendor in
  let signature := signature_of req in
  if negb (String.eqb webhook_secret "") && String.eqb signature "" then
    ((HTTPException 401 "Missing signature", []),
     record_error stats "invalid_signature" vendor)
  else if negb (String.eqb webhook_secret "")
          && negb (validate_signature (body req) signature webhook_secret) then
    ((HTTPException 401 "Invalid signature", []),
     record_error stats "invalid_signature" vendor)
  else
    match json req with
    | None =>
        ((HTTPException 400 "Invalid JSON payload", []),
         record_error stats "mapping_error" vendor)
    | Some payload =>
        match record_valid stats vendor with
        | (Raise _, stats) => ((HTTPException 500 "Internal Server Error", []), stats)
        | (Ok _, stats) => ((Accepted, [mkTask payload (headers req) vendor]), stats)
        end
    end.

Section WithMappers.

Variables _map_reuters_webhook _map_bloomberg_webhook _map_cnbc_webhook
          _map_yahoo_webhook _map_generic_webhook
  : pyval -> strdict -> result Schemas.RawItem.
Variable date_parse : string -> option Schemas.datetime.

Let map_webhook_payload_to_raw :=
  Mappers.map_webhook_payload_to_raw _map_reuters_webhook _map_bloomberg_webhook
    _map_cnbc_webhook _map_yahoo_webhook _map_generic_webhook.

(** [process_webhook_payload], on the statistics and the bus: every
    exception ends in its handler. *)
Definition process_webhook_payload (st : WebhookStats * Bus.EventBus)
    (payload : pyval) (headers : strdict) (vendor : string) (clk : Bus.readings)
  : option Schemas.RawItem * (WebhookStats * Bus.EventBus) :=
  let '(stats, b) := st in
  match map_webhook_payload_to_raw payload headers with
  | Raise _ => (None, (record_error stats "mapping_error" vendor, b))
  | Ok None => (None, (record_error stats "mapping_error" vendor, b))
  | Ok (Some raw_item) =>
      let item_dict := Schemas.to_dict raw_item in
      if negb (Schemas.validate_raw_item date_parse item_dict) then
        (None, (record_error stats "mapping_error" vendor, b))
      else
        match Bus.xadd_json date_parse b "news.raw" item_dict
                            ("webhook:" +:+ vendor) clk with
        | (Raise _, b) => (None, (record_error stats "mapping_error" vendor, b))
        | (Ok true, b) => (Some raw_item, (record_published stats, b))
        | (Ok false, b) => (Some raw_item, (record_duplicate stats, b))
        end
  end.

(** What [test_webhook] answers. *)
Inductive test_response : Type :=
| TestSuccess (item_id : string) (* WebhookResponse(status="success", ...) *)
| TestError                      (* WebhookResponse(status="error", ...) *)
| TestHTTPException (status_code : Z) (detail : string).

(** [test_webhook]; [x_vendor] is [None] when the request has no such
    header, and the parameter then takes its default. *)
Definition test_webhook (webhook_secret : string) (st : WebhookStats * Bus.EventBus)
    (payload : dict) (x_vendor : option string) (clk : Bus.readings)
  : test_response * (WebhookStats * Bus.EventBus) :=
  if negb (String.eqb webhook_secret "") then
    (TestHTTPException 403 "Test endpoint disabled when webhook secret is configured",
     st)
  else
    let x_vendor := match x_vendor with Some v => v | None => "test" end in
    let vendor := if String.eqb x_vendor "" then "test" else x_vendor in
    let headers := [("X-Vendor", vendor)] in
    match process_webhook_payload st (VDict payload) headers vendor clk with
    | (Some raw_item, st) => (TestSuccess (Schemas.id raw_item), st)
    | (None, st) => (TestError, st)
    end.

End WithMappers.

End WebhookApp.

(* ===================================================================== *)
(** ** realtime/hub.py: statistics and endpoints *)
(* ===================================================================== *)

Module Api.
Import Bus.

(** A value of the dictionary [UnifiedDataManager.get_stats] returns: a
    number, a text or nothing, the statistics of the bus (a dictionary
    derived from the bus), or the sources, which the method lists in the
    arbitrary order of a set. *)
Inductive stat : Type :=
| SInt (n : Z)
| SText (s : option string)
| SBus (b : EventBus)
| SSources (sources : gset pykey).

(** [set(item.get("source", "") for item in items)]. *)
Fixpoint sources_of (items : list dict) : result (gset pykey) :=
  match items with
  | [] => Ok ∅
  | item :: rest =>
      bind (hash_key (get_default item "source" (VStr ""))) (fun k =>
      bind (sources_of rest) (fun s => Ok ({[k]} ∪ s)))
  end.

(** [UnifiedDataManager.get_stats]; [rss_data] is the loaded snapshot. *)
Definition get_stats (b : EventBus) (rss_data : Ingest.FeedData)
  : result (list (string * stat)) * EventBus :=
  let '(event_items, b) := Hub._get_event_bus_items b 1000 in
  (bind (sources_of (Ingest.items rss_data)) (fun rss_sources =>
   bind (sources_of event_items) (fun event_sources =>
   let all_sources := rss_sources ∪ event_sources in
   Ok [("rss_items", SInt (Ingest.total_items rss_data));
       ("event_bus_items", SInt (Z.of_nat (List.length event_items)));
       ("total_sources", SInt (Z.of_nat (size all_sources)));
       ("rss_last_updated", SText (Ingest.last_updated rss_data));
       ("event_bus_stats", SBus b);
       ("unified_sources", SSources all_sources)])),
   b).

Fixpoint stat_lookup (k : string) (stats : list (string * stat)) : option stat :=
  match stats with
  | [] => None
  | (k', v) :: rest => if String.eqb k k' then Some v else stat_lookup k rest
  end.

(** [v > 0] on a value of the statistics. *)
Definition positive (v : stat) : result bool :=
  match v with
  | SInt n => Ok (0 <? n)
  | _ => Raise TypeError
  end.

(** What [/health] answers: the healthy body with its two data fields, or
    the 503 of its handler. *)
Inductive health : Type :=
| Healthy (data_available : bool) (last_data_update : option stat)
| Unhealthy (status_code : Z).

(** [health_check]. *)
Definition health_check (b : EventBus) (rss_data : Ingest.FeedData)
  : health * EventBus :=
  let '(stats, b) := get_stats b rss_data in
  (match bind stats (fun stats =>
           bind (positive (default (SInt 0) (stat_lookup "total_items" stats)))
                (fun data_available =>
           Ok (Healthy data_available (stat_lookup "last_updated" stats)))) with
   | Ok answer => answer
   | Raise _ => Unhealthy 503
   end, b).

Section WithAbortedSort.

Variable aborted_sort : list dict -> list dict.

(** [item.get("source", "").lower() == source.lower()]. *)
Definition source_is (source : string) (item : dict) : result bool :=
  bind (obj_lower (get_default item "source" (VStr ""))) (fun s =>
  Ok (String.eqb s (lower source))).

(** The list comprehension that filters by source. *)
Fixpoint filter_source (source : string) (items : list dict) : result (list dict) :=
  match items with
  | [] => Ok []
  | item :: rest =>
      bind (source_is source item) (fun keep =>
      bind (filter_source source rest) (fun kept =>
      Ok (if keep then item :: kept else kept)))
  end.

(** What [/latest] answers. *)
Inductive latest_response : Type :=
| Latest (items : list dict) (count : Z) (limit : Z) (source_filter : option string)
| LatestHTTPException (status_code : Z) (detail : string).

(** The [/latest] endpoint; [rss_items] is the item list of the loaded
    snapshot. *)
Definition get_latest_items (b : EventBus) (rss_items : list dict) (limit : Z)
    (source : option string) : latest_response * EventBus :=
  let limit := Z.max 1 (Z.min limit 500) in
  let '(view, b) := Hub.get_latest_items aborted_sort b rss_items (limit * 2) in
  (match bind view (fun items =>
           bind (match source with
                 | Some s => if negb (String.eqb s "") then filter_source s items
                             else Ok items
                 | None => Ok items
                 end) (fun items =>
           Ok (slice_to limit items))) with
   | Ok items => Latest items (Z.of_nat (List.length items)) limit source
   | Raise _ => LatestHTTPException 500 "Internal server error"
   end, b).

End WithAbortedSort.

End Api.

(* ===================================================================== *)
(** * Properties *)
(* ===================================================================== *)

(** ** Known answers of the hash functions *)

Example sha256_abc :
  SHA256.hexdigest (SHA256.bytes_of_string "abc")
  = "ba7816bf8f01cfea414140de5dae2223b00361a396177a9cb410ff61f20015ad".
Proof. vm_compute. reflexivity. Qed.

Example sha256_empty :
  SHA256.hexdigest []
  = "e3b0c44298fc1c149afbf4c8996fb92427ae41e4649b934ca495991b7852b855".
Proof. vm_compute. reflexivity. Qed.

Example sha256_two_blocks :
  SHA256.hexdigest (List.repeat 97 70)
  = "6bd5e5034855a11241f0dee8fc72850ffd9955b28347a86428b5fa19119f6ad0".
Proof. vm_compute. reflexivity. Qed.

Example hmac_sha256_fox :
  SHA256.hmac_hexdigest (SHA256.bytes_of_string "key")
    (SHA256.bytes_of_string "The quick brown fox jumps over the lazy dog")
  = "f7bc83f430538424b13298e6aa6fb143ef4d59a14946175997479dbc2d1a3cd8".
Proof. vm_compute. reflexivity. Qed.

Example iso_parse_ex :
  Schemas.iso_parse "2024-01-01T00:00:30Z"
  = Some (Schemas.DateTime 2024 1 1 0 0 30 0 (Some 0)).
Proof. vm_compute. reflexivity. Qed.

Example isoformat_ex :
  Schemas.isoformat (Schemas.DateTime 2024 1 1 0 0 30 0 (Some (-19800)))
  = "2024-01-01T00:00:30-05:30".
Proof. vm_compute. reflexivity. Qed.

(** ** Python arithmetic *)

Module PyProps.

Lemma min_spec (a b : Q) :
  ((b < a)%Q /\ min_ a b = b) \/ ((a <= b)%Q /\ min_ a b = a).
Proof.
  unfold min_, qlt. destruct (Qle_bool a b) eqn:E; simpl.
  - right. split; [apply Qle_bool_iff; exact E | reflexivity].
  - left. split; [|reflexivity].
    apply Qnot_le_lt. intros H. apply Qle_bool_iff in H. congruence.
Qed.

Lemma max_spec (a b : Q) :
  ((a < b)%Q /\ max_ a b = b) \/ ((b <= a)%Q /\ max_ a b = a).
Proof.
  unfold max_, qlt. destruct (Qle_bool b a) eqn:E; simpl.
  - right. split; [apply Qle_bool_iff; exact E | reflexivity].
  - left. split; [|reflexivity].
    apply Qnot_le_lt. intros H. apply Qle_bool_iff in H. congruence.
Qed.

Lemma qlt_spec (a b : Q) : qlt a b = true <-> (a < b)%Q.
Proof.
  unfold qlt. split.
  - intros H. apply Qnot_le_lt. intros L. apply Qle_bool_iff in L.
    rewrite L in H. discriminate.
  - intros H. destruct (Qle_bool b a) eqn:E; [|reflexivity].
    apply Qle_bool_iff in E. exfalso. lra.
Qed.

End PyProps.

(** ** Item identity (storage/schemas.py) *)

Module SchemasProps.
Import Schemas.

Section Identity.
Variable date_parse : string -> option datetime.




(** An item with an empty required field is refused by its constructor. *)
Lemma post_init_requires_fields (it : RawItem) :
  title it = "" \/ link it = "" \/ published it = "" \/ source it = ""
  \/ publisher it = "" ->
  __post_init__ date_parse it = Raise ValueError.
Proof.
  intros H. unfold __post_init__, nonempty.
  destruct (String.eqb (id it) ""); simpl;
    destruct H as [->|[->|[->|[->| ->]]]]; simpl;
    rewrite ?andb_false_r; reflexivity.
Qed.

(** An item built without an id carries the generated one. *)
Lemma post_init_generates_id (it it' : RawItem) :
  id it = "" -> __post_init__ date_parse it = Ok it' ->
  id it' = make_id date_parse it.
Proof.
  unfold __post_init__. intros Hid. rewrite Hid. simpl.
  destruct (_ && _); [|discriminate]. intros [= <-]. reflexivity.
Qed.

End Identity.

Definition story (ts : string) : RawItem :=
  mkRawItem "" "news" "A" "http://x/1" ts "webhook:acme" "acme" None None None.


(** The id of that story, as Python computes it. *)
Example make_id_known_answer :
  make_id iso_parse (story "2024-01-01T00:00:30Z") = "3dfb1ccb33b8c5b0".
Proof. vm_compute. reflexivity. Qed.

End SchemasProps.

(** ** The scheduler's local item id (ingest/adaptive_feeds_worker.py) *)

Module WorkerProps.

(** A parsed feed entry, as [_extract_item_data] hands it to both item
    types: title, link and the published string. *)
Definition local_item (t l p : string) : Worker.RawItem :=
  Worker.mkRawItem "" t l p "feed" "publisher" None None.
Definition canonical_item (t l p : string) : Schemas.RawItem :=
  Schemas.mkRawItem "" "news" t l p "feed" "publisher" None None None.

(** C7, refuted: for the entry titled A at http://x/1 published at
    2024-01-01T00:00:30+00:00 the scheduler's id differs from the
    canonical one. *)
Lemma local_id_differs_from_canonical :
  Worker.id (Worker.__post_init__
               (local_item "A" "http://x/1" "2024-01-01T00:00:30+00:00"))
  <> Schemas.make_id Schemas.iso_parse
       (canonical_item "A" "http://x/1" "2024-01-01T00:00:30+00:00").
Proof. vm_compute. discriminate. Qed.

(** Nor does the local rule collapse two timestamps of one minute, which
    the canonical rule does. *)
Lemma local_id_keeps_seconds :
  Worker.generate_id (local_item "A" "http://x/1" "2024-01-01T00:00:30+00:00")
  <> Worker.generate_id (local_item "A" "http://x/1" "2024-01-01T00:00:45+00:00").
Proof. vm_compute. discriminate. Qed.

(** C7, amended: an entry built without an id gets as id the first 16 hex
    digits of SHA-256 of title, link and the whole published string put
    end to end, so two entries share it as soon as those three strings
    agree. *)
Theorem local_id_rule (a b : Worker.RawItem) :
  Worker.id a = "" ->
  Worker.id (Worker.__post_init__ a)
  = Schemas.sha256_16 (Worker.title a +:+ Worker.link a +:+ Worker.published a)
  /\ (Worker.id b = "" ->
      Worker.title a = Worker.title b ->
      Worker.link a = Worker.link b ->
      Worker.published a = Worker.published b ->
      Worker.id (Worker.__post_init__ a) = Worker.id (Worker.__post_init__ b)).
Proof.
  intros Ha. unfold Worker.__post_init__. rewrite Ha. simpl. split.
  - reflexivity.
  - intros Hb Ht Hl Hp. rewrite Hb. simpl.
    unfold Worker.generate_id. rewrite Ht, Hl, Hp. reflexivity.
Qed.

(** The rule on the entry of the counterexample. *)
Lemma local_id_rule_witness :
  Worker.id (Worker.__post_init__
               (local_item "A" "http://x/1" "2024-01-01T00:00:30+00:00"))
  = Schemas.sha256_16 "Ahttp://x/12024-01-01T00:00:30+00:00".
Proof.
  exact (proj1 (local_id_rule
                  (local_item "A" "http://x/1" "2024-01-01T00:00:30+00:00")
                  (local_item "A" "http://x/1" "2024-01-01T00:00:30+00:00")
                  eq_refl)).
Defined.

Example local_id_known_answer :
  Worker.generate_id (local_item "A" "http://x/1" "2024-01-01T00:00:30+00:00")
  = "769753140eaf6707".
Proof. vm_compute. reflexivity. Qed.

End WorkerProps.

(** ** Interval adaptation (ingest/adaptive_feeds_worker.py) *)

Module SchedulerProps.
Import Scheduler PyProps.







End SchedulerProps.

(** ** The event bus (bus/stream.py) *)

Module BusProps.
Import Bus PyProps.

(** *** What each step leaves alone *)

Lemma cleanup_frame b now :
  exists ids ts, snd (_cleanup_recent b now) = with_recent b ids ts.
Proof.
  unfold _cleanup_recent.
  destruct (enforce_max _ _ _ _) as [r [ids ts]]. simpl. eauto.
Qed.

Lemma seen_recent_frame b message_id now :
  exists ids ts, snd (seen_recent b message_id now) = with_recent b ids ts.
Proof.
  unfold seen_recent.
  destruct (cleanup_frame b now) as (ids & ts & E).
  destruct (_cleanup_recent b now) as [r b1]. simpl in E. subst b1.
  destruct r; [destruct (hash_key message_id)|]; simpl; eauto.
Qed.

Lemma mark_seen_frame b message_id now :
  exists ids ts, snd (_mark_seen b message_id now) = with_recent b ids ts.
Proof.
  unfold _mark_seen. destruct (hash_key message_id); simpl; [eauto|].
  exists (recent_ids b), (recent_timestamps b). destruct b; reflexivity.
Qed.

Lemma seen_recent_hashable b message_id now r b' :
  seen_recent b message_id now = (Ok r, b') ->
  exists k, hash_key message_id = Ok k.
Proof.
  unfold seen_recent. destruct (_cleanup_recent b now) as [[]].
  - destruct (hash_key message_id); [eauto | discriminate].
  - discriminate.
Qed.

Lemma get_rate_limiter_frame b source now :
  exists r, snd (_get_rate_limiter b source now) = with_rate_limiters b r.
Proof.
  unfold _get_rate_limiter. destruct (rate_limiters b !! source); simpl; [|eauto].
  exists (rate_limiters b). destruct b; reflexivity.
Qed.

(** *** The recent-id dictionary *)

Definition keys (d : list (pykey * Q)) : list pykey := List.map fst d.

Lemma dict_pop_in k d e : In e (dict_pop k d) <-> In e d /\ fst e <> k.
Proof.
  unfold dict_pop. rewrite filter_In. split; intros [H1 H2]; split; trivial.
  - intros E. rewrite bool_decide_eq_true_2 in H2 by exact E. discriminate.
  - rewrite bool_decide_eq_false_2 by exact H2. reflexivity.
Qed.

Lemma keys_pop k d k' : In k' (keys (dict_pop k d)) <-> In k' (keys d) /\ k' <> k.
Proof.
  unfold keys. rewrite !in_map_iff. split.
  - intros (e & <- & He). apply dict_pop_in in He as [He Hk]. eauto.
  - intros [(e & <- & He) Hk]. exists e. split; [reflexivity|].
    apply dict_pop_in. auto.
Qed.

Lemma NoDup_pop k d : List.NoDup (keys d) -> List.NoDup (keys (dict_pop k d)).
Proof.
  induction d as [|e d IH]; simpl; intros H; [constructor|].
  inversion H as [|? ? Hn Hd]; subst.
  destruct (bool_decide (fst e = k)); simpl; [auto|].
  constructor; [|auto]. intros Hin. apply keys_pop in Hin. tauto.
Qed.

Lemma length_pop_lt k d :
  In k (keys d) -> (List.length (dict_pop k d) < List.length d)%nat.
Proof.
  induction d as [|e d IH]; simpl; [tauto|]. intros [E|Hin].
  - rewrite bool_decide_eq_true_2 by exact E. simpl.
    pose proof (List.filter_length_le (fun e => negb (bool_decide (fst e = k))) d).
    unfold dict_pop. lia.
  - specialize (IH Hin). destruct (bool_decide (fst e = k)); simpl; lia.
Qed.

Lemma keys_store k v d k' :
  In k' (keys (dict_store k v d)) <-> k' = k \/ In k' (keys d).
Proof.
  induction d as [|e d IH]; simpl; [intuition congruence|].
  destruct (bool_decide_reflect (fst e = k)) as [E|N]; simpl.
  - subst. intuition congruence.
  - rewrite IH. intuition congruence.
Qed.

Lemma NoDup_store k v d : List.NoDup (keys d) -> List.NoDup (keys (dict_store k v d)).
Proof.
  induction d as [|e d IH]; simpl; intros H.
  - constructor; [simpl; tauto | constructor].
  - inversion H as [|? ? Hn Hd]; subst.
    destruct (bool_decide_reflect (fst e = k)) as [E|N]; simpl.
    + subst. constructor; assumption.
    + constructor; [|auto]. intros Hin. apply keys_store in Hin as [?|?]; congruence.
Qed.

Lemma store_in k v d : In (k, v) (dict_store k v d).
Proof.
  induction d as [|e d IH]; simpl; [auto|].
  destruct (bool_decide (fst e = k)); simpl; auto.
Qed.

Lemma NoDup_keys_functional d k (a b : Q) :
  List.NoDup (keys d) -> In (k, a) d -> In (k, b) d -> a = b.
Proof.
  induction d as [|e d IH]; simpl; [tauto|]. intros H Ha Hb.
  inversion H as [|? ? Hn Hd]; subst.
  assert (Hk : forall x, In (k, x) d -> In k (keys d)).
  { intros x Hx. apply in_map_iff. exists (k, x). auto. }
  destruct Ha as [->|Ha], Hb as [Hb|Hb].
  - congruence.
  - simpl in Hn. exfalso. eauto.
  - subst e. simpl in Hn. exfalso. eauto.
  - auto.
Qed.

Lemma oldest_from_in best d :
  oldest_from best d = best \/ In (oldest_from best d) d.
Proof.
  revert best. induction d as [|e d IH]; intros best; simpl; [auto|].
  destruct (IH (if qlt (snd e) (snd best) then e else best)) as [E|Hin]; [|auto].
  rewrite E. destruct (qlt (snd e) (snd best)); auto.
Qed.

Lemma oldest_in d : d <> [] -> exists k, oldest d = Ok k /\ In k (keys d).
Proof.
  destruct d as [|e d]; [congruence|]. intros _. simpl.
  eexists. split; [reflexivity|].
  destruct (oldest_from_in e d) as [->|Hin]; [left; reflexivity|].
  right. apply in_map. exact Hin.
Qed.

(** Removing the expired ids, from the set and from the dictionary. *)
Lemma fold_discard (l : list pykey) : forall (s : gset pykey) k,
  k ∈ List.fold_left (fun s k => s ∖ {[k]}) l s <-> k ∈ s /\ ~ In k l.
Proof.
  induction l as [|x l IH]; intros s k; simpl; [tauto|].
  rewrite IH. rewrite elem_of_difference, elem_of_singleton. intuition congruence.
Qed.

Lemma fold_pop_keys (l : list pykey) : forall d k,
  In k (keys (List.fold_left (fun d k => dict_pop k d) l d))
  <-> In k (keys d) /\ ~ In k l.
Proof.
  induction l as [|x l IH]; intros d k; simpl; [tauto|].
  rewrite IH, keys_pop. intuition congruence.
Qed.

Lemma fold_pop_NoDup (l : list pykey) : forall d,
  List.NoDup (keys d) ->
  List.NoDup (keys (List.fold_left (fun d k => dict_pop k d) l d)).
Proof.
  induction l as [|x l IH]; intros d H; simpl; [exact H|].
  apply IH, NoDup_pop, H.
Qed.

(** *** Well-formed buses: the id set and the timestamp dictionary hold the
    same ids, and the cap is not negative. *)

Definition in_sync (ids : gset pykey) (ts : list (pykey * Q)) : Prop :=
  List.NoDup (keys ts) /\ forall k, k ∈ ids <-> In k (keys ts).

Definition wf (b : EventBus) : Prop :=
  in_sync (recent_ids b) (recent_timestamps b) /\ 0 <= max_recent_items b.

Lemma enforce_max_idle fuel max ids ts :
  Z.of_nat (size ids) <= max -> enforce_max fuel max ids ts = (Ok tt, (ids, ts)).
Proof.
  intros H. destruct fuel; simpl;
    (destruct (Z.ltb_spec max (Z.of_nat (size ids))); [lia | reflexivity]).
Qed.

(** On a well-formed bus the eviction loop ends without an exception. *)
Lemma enforce_max_sync max : 0 <= max -> forall fuel ids ts,
  (List.length ts <= fuel)%nat -> in_sync ids ts ->
  exists ids' ts',
    enforce_max fuel max ids ts = (Ok tt, (ids', ts'))
    /\ in_sync ids' ts' /\ ids' ⊆ ids.
Proof.
  intros Hmax. induction fuel as [|fuel IH]; intros ids ts Hlen [Hnd Hsync].
  - destruct ts; [|simpl in Hlen; lia].
    assert (ids ≡ ∅) as He.
    { apply elem_of_equiv_empty. intros k Hk. apply Hsync in Hk. exact Hk. }
    exists ids, []. split; [|split; [split; assumption | reflexivity]].
    apply enforce_max_idle. apply size_empty_iff in He. lia.
  - simpl. destruct (Z.ltb_spec max (Z.of_nat (size ids))) as [L|L].
    + assert (Hne : ts <> []).
      { intros ->. assert (ids ≡ ∅) as He.
        { apply elem_of_equiv_empty. intros k Hk. apply Hsync in Hk. exact Hk. }
        apply size_empty_iff in He. lia. }
      destruct (oldest_in ts Hne) as (k & -> & Hk).
      destruct (IH (ids ∖ {[k]}) (dict_pop k ts)) as (ids' & ts' & E & Hs & Hsub).
      * pose proof (length_pop_lt k ts Hk). lia.
      * split; [apply NoDup_pop, Hnd|]. intros k'.
        rewrite elem_of_difference, elem_of_singleton, keys_pop, Hsync. tauto.
      * exists ids', ts'. split; [exact E|]. split; [exact Hs|].
        intros x Hx. apply Hsub, elem_of_difference in Hx. tauto.
    + exists ids, ts. split; [reflexivity|]. split; [split; assumption|reflexivity].
Qed.

(** The loop never runs out of fuel: any fuel from the length of the
    dictionary on gives the same result. *)
Lemma enforce_max_fuel max : forall f1 f2 ids ts,
  (List.length ts <= f1)%nat -> (List.length ts <= f2)%nat ->
  enforce_max f1 max ids ts = enforce_max f2 max ids ts.
Proof.
  induction f1 as [|f1 IH]; intros f2 ids ts H1 H2.
  - destruct ts; [|simpl in H1; lia]. destruct f2; reflexivity.
  - destruct f2 as [|f2].
    + destruct ts; [|simpl in H2; lia]. reflexivity.
    + simpl. destruct (max <? Z.of_nat (size ids)); [|reflexivity].
      destruct ts as [|e ts]; [reflexivity|].
      destruct (oldest_in (e :: ts) ltac:(discriminate)) as (k & -> & Hk).
      pose proof (length_pop_lt k (e :: ts) Hk).
      apply IH; lia.
Qed.

Lemma mark_seen_sync ids ts k (now : Q) :
  in_sync ids ts -> in_sync ({[k]} ∪ ids) (dict_store k now ts).
Proof.
  intros [Hnd Hsync]. split; [apply NoDup_store, Hnd|].
  intros k'. rewrite elem_of_union, elem_of_singleton, keys_store, Hsync. tauto.
Qed.

Lemma cleanup_wf b now :
  wf b ->
  exists ids ts,
    _cleanup_recent b now = (Ok tt, with_recent b ids ts)
    /\ wf (with_recent b ids ts) /\ ids ⊆ recent_ids b.
Proof.
  intros [[Hnd Hsync] Hmax]. unfold _cleanup_recent.
  set (expired := List.map fst (List.filter _ (recent_timestamps b))).
  set (ids0 := List.fold_left _ expired (recent_ids b)).
  set (ts0 := List.fold_left _ expired (recent_timestamps b)).
  destruct (enforce_max_sync _ Hmax (List.length ts0) ids0 ts0 (le_n _))
    as (ids & ts & -> & Hs & Hsub).
  - split; [apply fold_pop_NoDup, Hnd|]. intros k.
    unfold ids0, ts0. rewrite fold_discard, fold_pop_keys, Hsync. tauto.
  - exists ids, ts. split; [reflexivity|]. split; [split; assumption|].
    intros k Hk. apply Hsub in Hk. apply fold_discard in Hk. tauto.
Qed.

(** An id that is tracked, is within the TTL and is not pushed out by the
    cap is reported as seen. *)
Lemma seen_recent_tracked b v k ts now :
  hash_key v = Ok k ->
  List.NoDup (keys (recent_timestamps b)) ->
  k ∈ recent_ids b ->
  In (k, ts) (recent_timestamps b) ->
  (now - inject_Z (recent_ttl_seconds b) <= ts)%Q ->
  Z.of_nat (size (recent_ids b)) <= max_recent_items b ->
  exists ids' ts', seen_recent b v now = (Ok true, with_recent b ids' ts').
Proof.
  intros Hk Hnd Hin Hts Httl Hcap. unfold seen_recent, _cleanup_recent.
  set (expired := List.map fst (List.filter _ (recent_timestamps b))).
  set (ids0 := List.fold_left _ expired (recent_ids b)).
  set (ts0 := List.fold_left _ expired (recent_timestamps b)).
  assert (Hsub : ids0 ⊆ recent_ids b).
  { intros x Hx. apply fold_discard in Hx. tauto. }
  rewrite enforce_max_idle by (apply subseteq_size in Hsub; lia).
  simpl. rewrite Hk. exists ids0, ts0.
  rewrite bool_decide_eq_true_2; [reflexivity|].
  apply fold_discard. split; [exact Hin|].
  unfold expired. rewrite in_map_iff. intros ([k' t'] & Ek & Hf). simpl in Ek. subst k'.
  apply filter_In in Hf as [Hf Hlt]. simpl in Hlt. apply qlt_spec in Hlt.
  rewrite (NoDup_keys_functional _ _ _ _ Hnd Hts Hf) in Httl. lra.
Qed.

(** *** The token bucket *)

(** The rule of [allow]: refill to [min(capacity, tokens + elapsed * rate)],
    then take one token if there is one. *)
Lemma allow_rule rl now :
  let refilled :=
    min_ (inject_Z (max_tokens rl))
         (tokens rl + (now - last_update rl) * tokens_per_second rl)%Q in
  fst (allow rl now) = Qle_bool 1 refilled
  /\ tokens (snd (allow rl now))
     = (if Qle_bool 1 refilled then (refilled - 1)%Q else refilled)
  /\ max_tokens (snd (allow rl now)) = max_tokens rl
  /\ tokens_per_second (snd (allow rl now)) = tokens_per_second rl
  /\ last_update (snd (allow rl now)) = now.
Proof.
  unfold allow. simpl. destruct (Qle_bool 1 _); simpl; repeat split.
Qed.



Section Publish.

Variable date_parse : string -> option Schemas.datetime.

(** The two ways a publish ends: accepted, with the message appended to
    its channel, or not, with every history as it was. *)
Lemma xadd_json_channels b channel data source clk r b' :
  xadd_json date_parse b channel data source clk = (r, b') ->
  (r = Ok true
   /\ exists message_id,
       channels b'
       = <[channel := deque_append channel_maxlen (history b channel)
                        (mkStreamMessage message_id channel data
                                         (at_message clk) source)]> (channels b))
  \/ (r <> Ok true /\ channels b' = channels b).
Proof.
  unfold xadd_json.
  destruct (if String.eqb channel "news.raw" then _ else _) as [message_id|];
    [|intros [= <- <-]; right; split; [discriminate|reflexivity]].
  destruct (negb (truthy message_id));
    [intros [= <- <-]; right; split; [discriminate|reflexivity]|].
  destruct (get_rate_limiter_frame b source (at_limiter_init clk)) as (rls & E1).
  destruct (_get_rate_limiter b source (at_limiter_init clk)) as [rl b1].
  simpl in E1. subst b1.
  destruct (allow rl (at_allow clk)) as [allowed rl'].
  destruct (negb allowed);
    [intros [= <- <-]; right; split; [discriminate|reflexivity]|].
  set (b2 := with_rate_limiters _ _).
  destruct (seen_recent_frame b2 message_id (at_cleanup clk)) as (ids & ts & E2).
  destruct (seen_recent b2 message_id (at_cleanup clk)) as [rs b3] eqn:Es.
  simpl in E2. subst b3.
  destruct rs as [[|]|e];
    [intros [= <- <-]; right; split; [discriminate|reflexivity]| |
     intros [= <- <-]; right; split; [discriminate|reflexivity]].
  destruct (seen_recent_hashable _ _ _ _ _ Es) as [k Hk].
  unfold _mark_seen. rewrite Hk.
  intros [= <- <-]. left. split; [reflexivity|]. exists message_id. reflexivity.
Qed.

(** *** Bounded history *)

(** Every channel holds at most 1000 messages. *)
Definition bounded (b : EventBus) : Prop :=
  forall channel, (List.length (history b channel) <= 1000)%nat.

Lemma deque_append_length {A} (d : list A) (x : A) :
  (List.length d <= 1000)%nat ->
  (List.length (deque_append channel_maxlen d x) <= 1000)%nat.
Proof.
  intros H. unfold deque_append, channel_maxlen.
  destruct (Nat.ltb_spec 1000 (List.length (d ++ [x]))) as [L|L]; [|exact L].
  rewrite length_app in L. simpl in L.
  destruct d; simpl in *; [lia|]. rewrite length_app. simpl. lia.
Qed.

Lemma deque_append_full {A} (d : list A) (x : A) :
  List.length d = 1000%nat ->
  exists first rest, d = first :: rest /\ deque_append channel_maxlen d x = rest ++ [x].
Proof.
  intros H. destruct d as [|first rest]; [discriminate|].
  exists first, rest. split; [reflexivity|].
  unfold deque_append, channel_maxlen.
  destruct (Nat.ltb_spec 1000 (List.length ((first :: rest) ++ [x]))) as [L|L].
  - reflexivity.
  - rewrite length_app, H in L. simpl in L. lia.
Qed.

Lemma history_insert b c channel l channel' :
  history (with_channels b (<[channel := l]> c)) channel'
  = if decide (channel = channel') then l else default [] (c !! channel').
Proof.
  unfold history. simpl. rewrite lookup_insert. destruct (decide _); reflexivity.
Qed.

Lemma bounded_frame b b' :
  channels b' = channels b -> bounded b -> bounded b'.
Proof. intros E H channel. unfold history. rewrite E. apply H. Qed.

Lemma xadd_json_bounded b channel data source clk :
  bounded b -> bounded (snd (xadd_json date_parse b channel data source clk)).
Proof.
  intros H.
  destruct (xadd_json date_parse b channel data source clk) as [r b'] eqn:E.
  destruct (xadd_json_channels _ _ _ _ _ _ _ E) as [[_ [m Hc]]|[_ Hc]]; simpl.
  - intros channel'. unfold history. rewrite Hc, lookup_insert.
    destruct (decide (channel = channel')); simpl.
    + apply deque_append_length, H.
    + apply H.
  - exact (bounded_frame _ _ Hc H).
Qed.

Lemma run_bounded b o : bounded b -> bounded (run date_parse b o).
Proof.
  intros H. destruct o; simpl.
  - apply xadd_json_bounded, H.
  - destruct (seen_recent_frame b message_id now) as (ids & ts & ->).
    exact (bounded_frame _ b eq_refl H).
  - destruct (mark_seen_frame b message_id now) as (ids & ts & ->).
    exact (bounded_frame _ b eq_refl H).
  - intros channel'. rewrite history_insert.
    destruct (decide _); [subst|]; apply H.
  - exact (bounded_frame _ b eq_refl H).
  - exact (bounded_frame _ b eq_refl H).
Qed.

(** A bus after a sequence of operations. *)
Definition run_all (b : EventBus) (ops : list operation) : EventBus :=
  List.fold_left (run date_parse) ops b.

Lemma run_all_bounded ops : forall b, bounded b -> bounded (run_all b ops).
Proof.
  induction ops as [|o ops IH]; intros b H; simpl; [exact H|].
  apply IH, run_bounded, H.
Qed.

Lemma init_bounded m ttl rate : bounded (EventBus_init m ttl rate).
Proof. intros channel. unfold history. simpl. rewrite lookup_empty. simpl. lia. Qed.

(** C10: whatever the configured number of tracked ids, after any sequence
    of bus operations every channel holds at most 1000 messages, and a
    publish accepted into a channel that holds 1000 drops that channel's
    oldest message and stores the new one last. *)
Theorem channel_history_bounded :
  (forall max_recent ttl rate ops channel,
      (List.length (history (run_all (EventBus_init max_recent ttl rate) ops) channel)
       <= 1000)%nat)
  /\ (forall b channel data source clk b',
         List.length (history b channel) = 1000%nat ->
         xadd_json date_parse b channel data source clk = (Ok true, b') ->
         exists oldest_message rest message,
           history b channel = oldest_message :: rest
           /\ history b' channel = rest ++ [message]
           /\ msg_data message = data /\ msg_channel message = channel
           /\ msg_source message = source
           /\ forall other, other <> channel -> history b' other = history b other).
Proof.
  split.
  - intros. apply run_all_bounded, init_bounded.
  - intros b channel data source clk b' Hfull E.
    destruct (xadd_json_channels _ _ _ _ _ _ _ E) as [[_ [m Hc]]|[N _]];
      [|congruence].
    destruct (deque_append_full (history b channel)
                (mkStreamMessage m channel data (at_message clk) source) Hfull)
      as (first & rest & Hd & Ha).
    exists first, rest, (mkStreamMessage m channel data (at_message clk) source).
    split; [exact Hd|]. split.
    + unfold history at 1. rewrite Hc, lookup_insert_eq. simpl. exact Ha.
    + repeat split. intros other Ho. unfold history.
      rewrite Hc, lookup_insert_ne by congruence. reflexivity.
Qed.

(** *** One publish, step by step *)

(** The hashable, non-empty id an item carries, if it carries one. *)
Definition item_key (data : dict) : option pykey :=
  match lookup "id" data with
  | Some v => if truthy v then
                match hash_key v with Ok k => Some k | Raise _ => None end
              else None
  | None => None
  end.

(** The item passes the structural check of its channel. *)
Definition passes_validation (channel : string) (data : dict) : Prop :=
  channel = "news.raw" -> Schemas.validate_raw_item date_parse data = true.

Lemma get_rate_limiter_insert b source now rl' :
  <[source := rl']> (rate_limiters (snd (_get_rate_limiter b source now)))
  = <[source := rl']> (rate_limiters b).
Proof.
  unfold _get_rate_limiter. destruct (rate_limiters b !! source); simpl.
  - reflexivity.
  - apply insert_insert_eq.
Qed.

Lemma get_rate_limiter_recent b source now :
  recent_ids (snd (_get_rate_limiter b source now)) = recent_ids b
  /\ recent_timestamps (snd (_get_rate_limiter b source now)) = recent_timestamps b
  /\ max_recent_items (snd (_get_rate_limiter b source now)) = max_recent_items b
  /\ recent_ttl_seconds (snd (_get_rate_limiter b source now)) = recent_ttl_seconds b
  /\ default_rate_limit (snd (_get_rate_limiter b source now)) = default_rate_limit b
  /\ channels (snd (_get_rate_limiter b source now)) = channels b.
Proof.
  unfold _get_rate_limiter. destruct (rate_limiters b !! source); simpl; tauto.
Qed.

(** Up to the rate limiter, a publish of an item with a usable id. *)
Lemma xadd_json_to_limiter b channel data source clk k :
  passes_validation channel data ->
  item_key data = Some k ->
  exists v, lookup "id" data = Some v /\ truthy v = true /\ hash_key v = Ok k
  /\ xadd_json date_parse b channel data source clk
     = let '(rate_limiter, b1) := _get_rate_limiter b source (at_limiter_init clk) in
       let '(allowed, rate_limiter) := allow rate_limiter (at_allow clk) in
       let b2 := with_rate_limiters b1 (<[source := rate_limiter]> (rate_limiters b1)) in
       if negb allowed then (Ok false, b2)
       else
         match seen_recent b2 v (at_cleanup clk) with
         | (Raise e, b3) => (Raise e, b3)
         | (Ok true, b3) => (Ok false, b3)
         | (Ok false, b3) =>
             let message := mkStreamMessage v channel data (at_message clk) source in
             let b4 := with_channels b3
                         (<[channel := deque_append channel_maxlen (history b3 channel)
                                                    message]> (channels b3)) in
             match _mark_seen b4 v (at_mark clk) with
             | (Raise e, b5) => (Raise e, b5)
             | (Ok _, b5) =>
                 (Ok true,
                  with_subscribers b5
                    (<[channel := default [] (subscribers b5 !! channel)]>
                       (subscribers b5)))
             end
         end.
Proof.
  intros Hval Hkey. unfold item_key in Hkey.
  destruct (lookup "id" data) as [v|] eqn:Hl; [|discriminate].
  destruct (truthy v) eqn:Ht; [|discriminate].
  destruct (hash_key v) as [k'|] eqn:Hh; [|discriminate].
  injection Hkey as ->.
  exists v. split; [reflexivity|]. split; [exact Ht|]. split; [exact Hh|].
  unfold xadd_json.
  assert (Hid : (if String.eqb channel "news.raw"
                 then if Schemas.validate_raw_item date_parse data
                      then Some (get data "id") else None
                 else Some (get_default data "id"
                              (VStr (channel +:+ ":" +:+ at_default_id clk))))
                = Some v).
  { unfold get, get_default. rewrite Hl.
    destruct (String.eqb_spec channel "news.raw") as [E|N]; [|reflexivity].
    rewrite (Hval E). reflexivity. }
  rewrite Hid, Ht. reflexivity.
Qed.

(** A publish the limiter refuses only touches the limiter. *)
Lemma publish_limited b channel data source clk k rl' :
  passes_validation channel data ->
  item_key data = Some k ->
  allow (fst (_get_rate_limiter b source (at_limiter_init clk))) (at_allow clk)
  = (false, rl') ->
  xadd_json date_parse b channel data source clk
  = (Ok false, with_rate_limiters b (<[source := rl']> (rate_limiters b))).
Proof.
  intros Hval Hkey Hallow.
  destruct (xadd_json_to_limiter b channel data source clk k Hval Hkey)
    as (v & _ & _ & _ & ->).
  pose proof (get_rate_limiter_insert b source (at_limiter_init clk) rl') as Hi.
  destruct (get_rate_limiter_frame b source (at_limiter_init clk)) as (rls & Hf).
  destruct (_get_rate_limiter b source (at_limiter_init clk)) as [rl b1].
  simpl in *. rewrite Hallow. simpl. subst b1. simpl in *. rewrite Hi. reflexivity.
Qed.

(** A publish the limiter allows is decided by the ids left after the
    clean-up: refused if the id is among them, accepted otherwise, and then
    the bus stays well formed and tracks the id. *)
Lemma publish_allowed b channel data source clk k rl' :
  wf b ->
  passes_validation channel data ->
  item_key data = Some k ->
  allow (fst (_get_rate_limiter b source (at_limiter_init clk))) (at_allow clk)
  = (true, rl') ->
  exists ids ts,
    ids ⊆ recent_ids b
    /\ (k ∈ ids ->
        xadd_json date_parse b channel data source clk
        = (Ok false,
           with_recent (with_rate_limiters b (<[source := rl']> (rate_limiters b)))
                       ids ts))
    /\ (k ∉ ids ->
        exists b',
          xadd_json date_parse b channel data source clk = (Ok true, b')
          /\ wf b'
          /\ rate_limiters b' = <[source := rl']> (rate_limiters b)
          /\ default_rate_limit b' = default_rate_limit b
          /\ recent_ttl_seconds b' = recent_ttl_seconds b
          /\ max_recent_items b' = max_recent_items b
          /\ k ∈ recent_ids b'
          /\ In (k, at_mark clk) (recent_timestamps b')
          /\ (forall k', k' ∈ recent_ids b' -> k' = k \/ k' ∈ recent_ids b)).
Proof.
  intros Hwf Hval Hkey Hallow.
  destruct (xadd_json_to_limiter b channel data source clk k Hval Hkey)
    as (v & _ & _ & Hh & ->).
  pose proof (get_rate_limiter_insert b source (at_limiter_init clk) rl') as Hi.
  destruct (get_rate_limiter_frame b source (at_limiter_init clk)) as (rls & Hf).
  destruct (_get_rate_limiter b source (at_limiter_init clk)) as [rl b1].
  simpl in *. rewrite Hallow. simpl. subst b1. simpl in *. rewrite Hi.
  set (b2 := with_rate_limiters _ _).
  assert (Hwf2 : wf b2) by exact Hwf.
  destruct (cleanup_wf b2 (at_cleanup clk) Hwf2) as (ids & ts & Hc & Hwf3 & Hsub).
  unfold seen_recent. rewrite Hc, Hh. simpl recent_ids.
  exists ids, ts. split; [exact Hsub|]. split; intros Hk.
  - rewrite (bool_decide_eq_true_2 _ Hk). reflexivity.
  - rewrite (bool_decide_eq_false_2 _ Hk).
    unfold _mark_seen. rewrite Hh. simpl.
    eexists. split; [reflexivity|]. simpl.
    destruct Hwf3 as [Hs Hmax]. simpl in *.
    split; [|repeat split].
    + split; [exact (mark_seen_sync ids ts k (at_mark clk) Hs) | exact Hmax].
    + apply elem_of_union_l, elem_of_singleton. reflexivity.
    + apply store_in.
    + intros k' Hin. apply elem_of_union in Hin as [Hin|Hin].
      * left. apply elem_of_singleton in Hin. exact Hin.
      * right. apply Hsub, Hin.
Qed.

Lemma publish_accepted b channel data source clk k rl' :
  wf b ->
  passes_validation channel data ->
  item_key data = Some k ->
  k ∉ recent_ids b ->
  allow (fst (_get_rate_limiter b source (at_limiter_init clk))) (at_allow clk)
  = (true, rl') ->
  exists b',
    xadd_json date_parse b channel data source clk = (Ok true, b')
    /\ wf b'
    /\ rate_limiters b' = <[source := rl']> (rate_limiters b)
    /\ default_rate_limit b' = default_rate_limit b
    /\ recent_ttl_seconds b' = recent_ttl_seconds b
    /\ max_recent_items b' = max_recent_items b
    /\ k ∈ recent_ids b'
    /\ In (k, at_mark clk) (recent_timestamps b')
    /\ (forall k', k' ∈ recent_ids b' -> k' = k \/ k' ∈ recent_ids b).
Proof.
  intros Hwf Hval Hkey Hnew Hallow.
  destruct (publish_allowed b channel data source clk k rl' Hwf Hval Hkey Hallow)
    as (ids & ts & Hsub & _ & Hacc).
  apply Hacc. intros Hin. apply Hnew, (Hsub k Hin).
Qed.

(** *** A tracked id is refused *)

(** An item whose id the bus tracks with a timestamp inside the TTL
    window, on a bus that tracks no more ids than its cap allows, is
    refused, and every history is left as it was. *)
Lemma tracked_rejected b channel data source clk v k ts :
  lookup "id" data = Some v ->
  hash_key v = Ok k ->
  List.NoDup (keys (recent_timestamps b)) ->
  k ∈ recent_ids b ->
  In (k, ts) (recent_timestamps b) ->
  (at_cleanup clk - inject_Z (recent_ttl_seconds b) <= ts)%Q ->
  Z.of_nat (size (recent_ids b)) <= max_recent_items b ->
  exists b',
    xadd_json date_parse b channel data source clk = (Ok false, b')
    /\ channels b' = channels b
    /\ List.length (history b' channel) = List.length (history b channel).
Proof.
  intros Hl Hh Hnd Hin Hts Httl Hcap.
  assert (Hgoal : exists b', xadd_json date_parse b channel data source clk
                             = (Ok false, b') /\ channels b' = channels b).
  { unfold xadd_json.
    destruct (if String.eqb channel "news.raw" then _ else _) as [message_id|] eqn:Hid;
      [|eauto].
    assert (message_id = v) as ->.
    { unfold get, get_default in Hid. rewrite Hl in Hid.
      destruct (String.eqb channel "news.raw");
        [destruct (Schemas.validate_raw_item date_parse data)|]; congruence. }
    destruct (negb (truthy v)); [eauto|].
    destruct (get_rate_limiter_frame b source (at_limiter_init clk)) as (rls & E1).
    destruct (_get_rate_limiter b source (at_limiter_init clk)) as [rl b1].
    simpl in E1. subst b1.
    destruct (allow rl (at_allow clk)) as [allowed rl'].
    destruct (negb allowed); [eauto|].
    set (b2 := with_rate_limiters _ _).
    destruct (seen_recent_tracked b2 v k ts (at_cleanup clk) Hh Hnd Hin Hts Httl Hcap)
      as (ids' & ts' & ->).
    eauto. }
  destruct Hgoal as (b' & E & Hc). exists b'. repeat split; trivial.
  unfold history. rewrite Hc. reflexivity.
Qed.

(** An accepted id is tracked from then on, with the time of acceptance. *)
Lemma accepted_is_tracked b channel data source clk k b' :
  wf b ->
  item_key data = Some k ->
  xadd_json date_parse b channel data source clk = (Ok true, b') ->
  wf b' /\ k ∈ recent_ids b' /\ In (k, at_mark clk) (recent_timestamps b').
Proof.
  intros Hwf Hkey E.
  assert (Hval : passes_validation channel data).
  { intros ->. revert E. unfold xadd_json. simpl.
    destruct (Schemas.validate_raw_item date_parse data); [reflexivity|discriminate]. }
  destruct (allow (fst (_get_rate_limiter b source (at_limiter_init clk)))
                  (at_allow clk)) as [[|] rl'] eqn:Ha.
  - destruct (publish_allowed b channel data source clk k rl' Hwf Hval Hkey Ha)
      as (ids & ts & _ & Hdup & Hacc).
    destruct (decide (k ∈ ids)) as [Hin|Hnew].
    + rewrite (Hdup Hin) in E. discriminate.
    + destruct (Hacc Hnew) as (b'' & E' & Hwf' & _ & _ & _ & _ & H1 & H2 & _).
      rewrite E' in E. injection E as <-. auto.
  - rewrite (publish_limited b channel data source clk k rl' Hval Hkey Ha) in E.
    discriminate.
Qed.

(** C2, amended: an item whose id the bus tracks with a timestamp inside
    the TTL window, on a bus that tracks no more ids than its cap allows
    (so that the cap evicts nothing), is refused by a publish, on any
    channel and from any source, and every history is left as it was; and
    an id is so tracked once it has been accepted: a second publish of it,
    made within the TTL of the first while the cap is not exceeded, is
    refused. *)
Theorem tracked_id_rejected :
  (forall b channel data source clk v k ts,
      lookup "id" data = Some v ->
      hash_key v = Ok k ->
      List.NoDup (keys (recent_timestamps b)) ->
      k ∈ recent_ids b ->
      In (k, ts) (recent_timestamps b) ->
      (at_cleanup clk - inject_Z (recent_ttl_seconds b) <= ts)%Q ->
      Z.of_nat (size (recent_ids b)) <= max_recent_items b ->
      exists b',
        xadd_json date_parse b channel data source clk = (Ok false, b')
        /\ channels b' = channels b
        /\ List.length (history b' channel) = List.length (history b channel))
  /\ (forall b0 channel0 data0 source0 clk0 b1 channel data source clk v k,
         wf b0 ->
         item_key data0 = Some k ->
         xadd_json date_parse b0 channel0 data0 source0 clk0 = (Ok true, b1) ->
         lookup "id" data = Some v ->
         hash_key v = Ok k ->
         (at_cleanup clk - inject_Z (recent_ttl_seconds b1) <= at_mark clk0)%Q ->
         Z.of_nat (size (recent_ids b1)) <= max_recent_items b1 ->
         exists b2,
           xadd_json date_parse b1 channel data source clk = (Ok false, b2)
           /\ channels b2 = channels b1
           /\ List.length (history b2 channel) = List.length (history b1 channel)).
Proof.
  split.
  - intros. eapply tracked_rejected; eassumption.
  - intros b0 channel0 data0 source0 clk0 b1 channel data source clk v k
           Hwf Hkey Hacc Hl Hh Httl Hcap.
    destruct (accepted_is_tracked _ _ _ _ _ _ _ Hwf Hkey Hacc)
      as ([[Hnd _] _] & Hin & Hts).
    exact (tracked_rejected b1 channel data source clk v k (at_mark clk0)
             Hl Hh Hnd Hin Hts Httl Hcap).
Qed.

(** *** Well-formedness is an invariant *)

Lemma xadd_json_wf b channel data source clk :
  wf b -> wf (snd (xadd_json date_parse b channel data source clk)).
Proof.
  intros Hwf. unfold xadd_json.
  destruct (if String.eqb channel "news.raw" then _ else _) as [message_id|];
    [|exact Hwf].
  destruct (negb (truthy message_id)); [exact Hwf|].
  destruct (get_rate_limiter_frame b source (at_limiter_init clk)) as (rls & E1).
  destruct (_get_rate_limiter b source (at_limiter_init clk)) as [rl b1].
  simpl in E1. subst b1.
  destruct (allow rl (at_allow clk)) as [allowed rl'].
  destruct (negb allowed); [exact Hwf|].
  set (b2 := with_rate_limiters _ _).
  assert (Hwf2 : wf b2) by exact Hwf.
  destruct (cleanup_wf b2 (at_cleanup clk) Hwf2) as (ids & ts & Hc & Hwf3 & _).
  unfold seen_recent. rewrite Hc.
  destruct (hash_key message_id) as [k|e] eqn:Hh; [|exact Hwf3].
  destruct (bool_decide _); [exact Hwf3|].
  unfold _mark_seen. rewrite Hh. simpl.
  destruct Hwf3 as [Hs Hmax]. split; [|exact Hmax].
  exact (mark_seen_sync ids ts k (at_mark clk) Hs).
Qed.

Lemma run_wf b o : wf b -> wf (run date_parse b o).
Proof.
  intros Hwf. destruct o; simpl.
  - apply xadd_json_wf, Hwf.
  - destruct (cleanup_wf b now Hwf) as (ids & ts & Hc & Hwf' & _).
    unfold seen_recent. rewrite Hc. destruct (hash_key message_id); exact Hwf'.
  - unfold _mark_seen. destruct (hash_key message_id) as [k|e]; [|exact Hwf].
    destruct Hwf as [Hs Hmax]. split; [|exact Hmax].
    exact (mark_seen_sync _ _ k now Hs).
  - exact Hwf.
  - exact Hwf.
  - exact Hwf.
Qed.

(** Every bus made with a cap that is not negative stays well formed. *)
Lemma reachable_wf max_recent ttl rate ops :
  0 <= max_recent ->
  wf (List.fold_left (run date_parse) ops (EventBus_init max_recent ttl rate)).
Proof.
  intros Hmax.
  assert (H0 : wf (EventBus_init max_recent ttl rate)).
  { split; [split|exact Hmax]; simpl; [constructor|].
    intros k. split; [intros H; exact (not_elem_of_empty k H) | tauto]. }
  revert H0. generalize (EventBus_init max_recent ttl rate).
  induction ops as [|o ops IH]; intros b Hb; simpl; [exact Hb|].
  apply IH, run_wf, Hb.
Qed.

(** *** A burst against a fresh bucket *)







(** *** Validation comes first *)

(** An item that lacks a required field, or whose [published] is not a
    string the date parser accepts. *)
Definition structurally_invalid (data : dict) : Prop :=
  (exists field, In field Schemas.required_fields /\ truthy (get data field) = false)
  \/ (forall s, get data "published" = VStr s -> date_parse s = None).

Lemma invalid_not_validated data :
  structurally_invalid data -> Schemas.validate_raw_item date_parse data = false.
Proof.
  intros [(field & Hin & Hf)|Hp]; unfold Schemas.validate_raw_item.
  - destruct (forallb _ _) eqn:E; [|reflexivity].
    rewrite forallb_forall in E. rewrite (E field Hin) in Hf. discriminate.
  - destruct (forallb _ _); [|reflexivity].
    destruct (get data "published") as [| | |s| |]; try reflexivity.
    rewrite (Hp s eq_refl). reflexivity.
Qed.

(** C8, amended: on the raw-news channel a structurally invalid item is
    rejected before anything else happens: the bus, with its rate
    limiters and histories, is left exactly as it was. *)
Theorem invalid_item_rejected_untouched b data source clk :
  structurally_invalid data ->
  xadd_json date_parse b "news.raw" data source clk = (Ok false, b)
  /\ publish_raw_item date_parse b data source clk = (Ok false, b).
Proof.
  intros H. unfold publish_raw_item, xadd_json. simpl.
  rewrite (invalid_not_validated _ H). split; reflexivity.
Qed.

End Publish.

(** *** Concrete runs, with the ISO parser *)

Definition item (i : string) : dict :=
  [("id", VStr i); ("topic", VStr "news"); ("title", VStr "A");
   ("link", VStr "http://x/1"); ("published", VStr "2024-01-01T00:00:30Z");
   ("source", VStr "webhook:acme"); ("publisher", VStr "acme")].

(** Every reading of a call made at time [t]. *)
Definition at_ (t : Q) : readings := mkReadings "0.0" t t t t t.

Definition publish := publish_raw_item Schemas.iso_parse.

(** A bus that tracks one id at most. *)
Definition tiny : EventBus := EventBus_init 1 3600 10.
Definition tiny_a : EventBus := snd (publish tiny (item "a") "acme" (at_ 0)).
Definition tiny_ab : EventBus := snd (publish tiny_a (item "b") "acme" (at_ 1)).

(** C2, refuted: on a bus capped at one tracked id, "a" is accepted at
    time 0 and "b" at time 1; at time 2, well inside the TTL of 3600 s,
    "a" is accepted again and the history grows from 2 to 3. *)
Lemma duplicate_accepted_after_cap_eviction :
  fst (publish tiny (item "a") "acme" (at_ 0)) = Ok true
  /\ fst (publish tiny_a (item "b") "acme" (at_ 1)) = Ok true
  /\ fst (publish tiny_ab (item "a") "acme" (at_ 2)) = Ok true
  /\ List.length (history tiny_ab "news.raw") = 2%nat
  /\ List.length
       (history (snd (publish tiny_ab (item "a") "acme" (at_ 2))) "news.raw")
     = 3%nat.
Proof. vm_compute. repeat split. Qed.

Definition default_bus : EventBus := EventBus_init 10000 3600 10.
Definition default_a : EventBus :=
  snd (publish default_bus (item "a") "acme" (at_ 0)).

(** The id accepted at time 0 is refused at time 5, from another source. *)
Lemma tracked_id_rejected_witness :
  exists b',
    xadd_json Schemas.iso_parse default_a "news.raw" (item "a") "other" (at_ 5)
    = (Ok false, b')
    /\ channels b' = channels default_a
    /\ List.length (history b' "news.raw")
       = List.length (history default_a "news.raw").
Proof.
  assert (Hacc : xadd_json Schemas.iso_parse default_bus "news.raw" (item "a")
                           "acme" (at_ 0) = (Ok true, default_a)).
  { unfold default_a, publish, publish_raw_item.
    destruct (xadd_json Schemas.iso_parse default_bus "news.raw" (item "a") "acme"
                        (at_ 0)) as [r b'] eqn:E.
    assert (Hr : fst (xadd_json Schemas.iso_parse default_bus "news.raw" (item "a")
                                "acme" (at_ 0)) = Ok true).
    { vm_compute. reflexivity. }
    rewrite E in Hr. simpl in Hr. subst r. reflexivity. }
  refine (proj2 (tracked_id_rejected Schemas.iso_parse)
            default_bus "news.raw" (item "a") "acme" (at_ 0) default_a
            "news.raw" (item "a") "other" (at_ 5) (VStr "a") (KStr "a")
            _ eq_refl Hacc eq_refl eq_refl _ _).
  - split; [split|]; simpl.
    + constructor.
    + intros k. split; [intros H; exact (not_elem_of_empty k H) | tauto].
    + lia.
  - vm_compute. discriminate.
  - vm_compute. discriminate.
Defined.



Definition untitled : dict :=
  [("id", VStr "x"); ("link", VStr "http://x/1");
   ("published", VStr "2024-01-01T00:00:30Z");
   ("source", VStr "webhook:acme"); ("publisher", VStr "acme")].

(** An item without a title, on the raw-news channel. *)
Lemma invalid_item_rejected_untouched_witness :
  xadd_json Schemas.iso_parse default_a "news.raw" untitled "acme" (at_ 1)
  = (Ok false, default_a)
  /\ publish_raw_item Schemas.iso_parse default_a untitled "acme" (at_ 1)
     = (Ok false, default_a).
Proof.
  apply (invalid_item_rejected_untouched Schemas.iso_parse default_a untitled
           "acme" (at_ 1)).
  left. exists "title". split; [simpl; tauto | reflexivity].
Defined.

(** C8, refuted as stated for every publish: on another channel than
    news.raw nothing is validated; the untitled item is accepted there, a
    token of the source is taken and the channel's history grows. *)
Lemma invalid_item_accepted_elsewhere :
  structurally_invalid Schemas.iso_parse untitled
  /\ fst (xadd_json Schemas.iso_parse default_bus "news.processed" untitled
            "acme" (at_ 1)) = Ok true
  /\ List.length
       (history (snd (xadd_json Schemas.iso_parse default_bus "news.processed"
                        untitled "acme" (at_ 1))) "news.processed") = 1%nat
  /\ tokens <$> (rate_limiters
                   (snd (xadd_json Schemas.iso_parse default_bus "news.processed"
                           untitled "acme" (at_ 1))) !! "acme")
     = Some (50 - 1)%Q.
Proof.
  split.
  - left. exists "title". split; [simpl; tauto | reflexivity].
  - vm_compute. repeat split.
Qed.

(** A bus whose raw-news channel holds 1000 messages. *)
Definition filler : StreamMessage :=
  mkStreamMessage (VStr "old") "news.raw" (item "old") 0 "acme".
Definition full_bus : EventBus :=
  with_channels default_bus {[ "news.raw" := List.repeat filler 1000 ]}.

(** A publish into the full channel. *)
Lemma channel_history_bounded_witness :
  exists oldest_message rest message,
    history full_bus "news.raw" = oldest_message :: rest
    /\ history (snd (publish full_bus (item "a") "acme" (at_ 1))) "news.raw"
       = rest ++ [message]
    /\ msg_data message = item "a".
Proof.
  assert (Hfull : List.length (history full_bus "news.raw") = 1000%nat).
  { vm_compute. reflexivity. }
  assert (Hacc : xadd_json Schemas.iso_parse full_bus "news.raw" (item "a") "acme"
                           (at_ 1)
                 = (Ok true, snd (publish full_bus (item "a") "acme" (at_ 1)))).
  { unfold publish, publish_raw_item.
    destruct (xadd_json Schemas.iso_parse full_bus "news.raw" (item "a") "acme"
                        (at_ 1)) as [r b'] eqn:E.
    assert (Hr : fst (xadd_json Schemas.iso_parse full_bus "news.raw" (item "a")
                                "acme" (at_ 1)) = Ok true).
    { vm_compute. reflexivity. }
    rewrite E in Hr. simpl in Hr. subst r. reflexivity. }
  destruct (proj2 (channel_history_bounded Schemas.iso_parse)
              full_bus "news.raw" (item "a") "acme" (at_ 1) _ Hfull Hacc)
    as (o & rest & m & H1 & H2 & H3 & _).
  exists o, rest, m. auto.
Defined.

End BusProps.

(** ** The normalizer entry points (adapters/mappers.py) *)

Module MappersProps.
Import Mappers.

Section EntryPoints.

Variables ws_reuters ws_bloomberg ws_cnbc ws_generic
  : pyval -> dict -> result Schemas.RawItem.
Variables wh_reuters wh_bloomberg wh_cnbc wh_yahoo wh_generic
  : pyval -> strdict -> result Schemas.RawItem.
Variables nw_bloomberg nw_reuters nw_dow_jones nw_generic
  : pyval -> dict -> result Schemas.RawItem.

Let map_ws := map_ws_payload_to_raw ws_reuters ws_bloomberg ws_cnbc ws_generic.
Let map_webhook :=
  map_webhook_payload_to_raw wh_reuters wh_bloomberg wh_cnbc wh_yahoo wh_generic.
Let map_newswire :=
  map_newswire_to_raw nw_bloomberg nw_reuters nw_dow_jones nw_generic.
Let safe_map :=
  safe_map_payload ws_reuters ws_bloomberg ws_cnbc ws_generic
                   wh_reuters wh_bloomberg wh_cnbc wh_yahoo wh_generic
                   nw_bloomberg nw_reuters nw_dow_jones nw_generic.

Lemma try_except_total {A} (body : result (option A)) :
  exists r, try_except body (fun _ => Ok None) = Ok r.
Proof. destruct body; simpl; eauto. Qed.

(** The websocket and newswire mappers return, whatever the vendor mappers
    do. *)
Lemma map_ws_never_raises payload cfg : exists r, map_ws payload cfg = Ok r.
Proof. apply try_except_total. Qed.

Lemma map_newswire_never_raises payload cfg : exists r, map_newswire payload cfg = Ok r.
Proof. apply try_except_total. Qed.

(** So does the wrapper, which also catches what the webhook mapper lets
    through. *)
Lemma safe_map_payload_never_raises payload adapter_type config headers :
  exists r, safe_map payload adapter_type config headers = Ok r.
Proof. apply try_except_total. Qed.

(** What they return: the item of the vendor mapper, or none when the
    vendor mapper raised, for instance the [ValueError] of
    [RawItem.__post_init__]. *)
Lemma map_ws_result payload cfg r :
  map_ws payload cfg = Ok r ->
  r = None
  \/ exists item, r = Some item
                  /\ (ws_reuters payload cfg = Ok item \/ ws_bloomberg payload cfg = Ok item
                      \/ ws_cnbc payload cfg = Ok item \/ ws_generic payload cfg = Ok item).
Proof.
  unfold map_ws, map_ws_payload_to_raw.
  destruct (obj_lower _) as [vendor|]; simpl; [|intros [= <-]; auto].
  destruct (contains "reuters" vendor);
    [|destruct (contains "bloomberg" vendor); [|destruct (contains "cnbc" vendor)]];
  match goal with
  | |- context [bind (?f payload cfg) _] => destruct (f payload cfg) as [item|] eqn:E
  end; simpl; intros [= <-]; eauto 7.
Qed.

Lemma map_webhook_vendor_failure payload headers e :
  wh_reuters payload headers = Raise e ->
  contains "reuters" (lower (str_get headers "X-Vendor" "")) = true ->
  str_get headers "X-Vendor" "" <> "" ->
  map_webhook payload headers = Ok None.
Proof.
  intros Hr Hc Hv. unfold map_webhook, map_webhook_payload_to_raw, webhook_vendor.
  destruct (String.eqb_spec (str_get headers "X-Vendor" "") ""); [contradiction|].
  simpl. rewrite Hc, Hr. reflexivity.
Qed.

(** The webhook mapper raises exactly when its vendor hint cannot be
    computed, and what it raises then is the handler's own error. *)
Lemma map_webhook_raises_iff payload headers e :
  map_webhook payload headers = Raise e
  <-> (exists e', webhook_vendor payload headers = Raise e') /\ e = UnboundLocalError.
Proof.
  unfold map_webhook, map_webhook_payload_to_raw.
  destruct (webhook_vendor payload headers) as [vendor|e'] eqn:E; simpl.
  - split.
    + destruct (if contains "reuters" vendor then _ else _); simpl; discriminate.
    + intros [[e' He'] _]. discriminate.
  - split.
    + intros [= <-]. eauto.
    + intros [_ ->]. reflexivity.
Qed.

(** The headers a webhook request arrives with (lower-case names), and a
    JSON body whose vendor field is a number. *)
Definition plain_headers : strdict :=
  [("user-agent", "curl/8.5.0"); ("content-type", "application/json")].
Definition numeric_vendor : pyval := VDict [("vendor", VInt 123)].

(** C6, the failing entry point: on the payload {"vendor": 123} the
    webhook mapper raises UnboundLocalError past its boundary instead of
    returning none, whatever the vendor mappers are. *)
Theorem map_webhook_raises_unbound_vendor :
  map_webhook numeric_vendor plain_headers = Raise UnboundLocalError
  /\ safe_map numeric_vendor "webhook" None (Some plain_headers) = Ok None.
Proof. split; reflexivity. Qed.

End EntryPoints.

End MappersProps.

(** ** The webhook receiver (adapters/webhook_adapter.py) *)

Module WebhookProps.
Import Webhook.

(** *** The hex digest is 64 ASCII hex digits *)

Definition is_hex (c : ascii) : Prop :=
  (N_of_ascii c < 128)%N /\ c <> "s"%char /\ c <> "v"%char.

Lemma hex_digit_is_hex d : 0 <= d < 16 -> is_hex (SHA256.hex_digit d).
Proof.
  intros H.
  assert (C : d = 0 \/ d = 1 \/ d = 2 \/ d = 3 \/ d = 4 \/ d = 5 \/ d = 6 \/ d = 7
              \/ d = 8 \/ d = 9 \/ d = 10 \/ d = 11 \/ d = 12 \/ d = 13 \/ d = 14
              \/ d = 15) by lia.
  repeat (destruct C as [->|C]; [vm_compute; repeat split; discriminate|]).
  subst. vm_compute. repeat split; discriminate.
Qed.

Lemma be_bytes_range n x : Forall (fun b => 0 <= b < 256) (SHA256.be_bytes n x).
Proof.
  induction n as [|n IH]; simpl; constructor; [|exact IH].
  apply Z.mod_pos_bound. lia.
Qed.

Lemma digest_range msg : Forall (fun b => 0 <= b < 256) (SHA256.digest msg).
Proof.
  unfold SHA256.digest. apply List.Forall_forall. intros b Hb.
  apply List.in_concat in Hb as (l & Hl & Hb).
  apply List.in_map_iff in Hl as (w & <- & _).
  exact (proj1 (List.Forall_forall _ _) (be_bytes_range 4 w) b Hb).
Qed.

Lemma digest_cons msg : exists b rest, SHA256.digest msg = b :: rest.
Proof.
  unfold SHA256.digest, SHA256.digest_words. cbv zeta.
  cbn [List.map List.concat SHA256.be_bytes List.app]. eauto.
Qed.

Lemma hex_of_bytes_ascii bs :
  Forall (fun b => 0 <= b < 256) bs ->
  is_ascii (SHA256.hex_of_bytes bs) = true.
Proof.
  unfold is_ascii, SHA256.hex_of_bytes. rewrite list_ascii_of_string_of_list_ascii.
  induction 1 as [|b bs Hb _ IH]; [reflexivity|].
  cbn [List.map List.concat List.app forallb]. rewrite IH.
  destruct (hex_digit_is_hex (b / 16)) as (H1 & _).
  { split; [apply Z.div_pos; lia | apply Z.div_lt_upper_bound; lia]. }
  destruct (hex_digit_is_hex (b mod 16)) as (H2 & _).
  { apply Z.mod_pos_bound. lia. }
  apply N.ltb_lt in H1, H2. rewrite H1, H2. reflexivity.
Qed.

Lemma hexdigest_shape msg :
  is_ascii (SHA256.hexdigest msg) = true
  /\ exists c rest, SHA256.hexdigest msg = String c rest /\ is_hex c.
Proof.
  pose proof (digest_range msg) as Hr. unfold SHA256.hexdigest.
  split; [apply hex_of_bytes_ascii, Hr|].
  destruct (digest_cons msg) as (b & rest & E). rewrite E in *.
  inversion Hr as [|? ? Hb _]; subst.
  unfold SHA256.hex_of_bytes. cbn [List.map List.concat List.app string_of_list_ascii].
  eexists _, _. split; [reflexivity|].
  apply hex_digit_is_hex.
  split; [apply Z.div_pos; lia | apply Z.div_lt_upper_bound; lia].
Qed.

Lemma expected_hash_shape payload_body secret :
  is_ascii (expected_hash payload_body secret) = true
  /\ exists c rest, expected_hash payload_body secret = String c rest /\ is_hex c.
Proof. unfold expected_hash, SHA256.hmac_hexdigest. apply hexdigest_shape. Qed.

(** *** validate_signature *)

Arguments expected_hash : simpl never.
Arguments validate_signature : simpl never.

(** A signature is valid exactly when it is not empty and, once its
    [sha256=] or [v0=] prefix is removed, it is the HMAC-SHA256 of the raw
    body under the secret, in lower-case hex. *)
Lemma validate_signature_iff payload_body signature secret :
  secret <> "" ->
  validate_signature payload_body signature secret = true
  <-> signature <> ""
      /\ provided_hash signature = expected_hash payload_body secret.
Proof.
  intros Hs. unfold validate_signature, compare_digest.
  destruct (String.eqb_spec secret "") as [|_]; [contradiction|].
  rewrite orb_false_l.
  destruct (String.eqb_spec signature "") as [->|Hn].
  - split; [discriminate | intros [H _]; contradiction].
  - destruct (expected_hash_shape payload_body secret) as [Ha _]. rewrite Ha.
    rewrite andb_true_l.
    destruct (is_ascii (provided_hash signature)) eqn:Hp; unfold try_except.
    + rewrite String.eqb_eq. split; [intros <-; auto | intros [_ ->]; reflexivity].
    + split; [discriminate|]. intros [_ E]. rewrite E in Hp. congruence.
Qed.

Lemma provided_hash_prefixed (h : string) :
  provided_hash ("sha256=" +:+ h) = h /\ provided_hash ("v0=" +:+ h) = h.
Proof. destruct h; split; reflexivity. Qed.

Lemma provided_hash_bare c rest :
  is_hex c -> provided_hash (String c rest) = String c rest.
Proof.
  intros (_ & Hs & Hv). unfold provided_hash. cbn [String.prefix].
  destruct (ascii_dec "s" c) as [<-|]; [contradiction|].
  destruct (ascii_dec "v" c) as [<-|]; [contradiction|]. reflexivity.
Qed.

(** The three accepted spellings of a correct signature. *)
Lemma correct_signature_accepted payload_body secret :
  secret <> "" ->
  validate_signature payload_body ("sha256=" +:+ expected_hash payload_body secret)
                     secret = true
  /\ validate_signature payload_body ("v0=" +:+ expected_hash payload_body secret)
                        secret = true
  /\ validate_signature payload_body (expected_hash payload_body secret) secret
     = true.
Proof.
  intros Hs.
  destruct (expected_hash_shape payload_body secret) as (_ & c & rest & E & Hc).
  destruct (provided_hash_prefixed (expected_hash payload_body secret)) as [P1 P2].
  split; [|split]; apply validate_signature_iff; trivial.
  - split; [intros H; discriminate H | exact P1].
  - split; [intros H; discriminate H | exact P2].
  - rewrite E. split; [discriminate | apply provided_hash_bare, Hc].
Qed.

(** C4, amended: with a secret configured, a request whose signature is
    missing or does not verify gets a 401 and schedules nothing; a request
    whose signature verifies is acknowledged as accepted, with its payload
    scheduled, when its body parses as JSON, and gets a 400 otherwise.  A
    signature verifies exactly when, stripped of a sha256= or v0= prefix, it
    is the lower-case hex HMAC-SHA256 of the raw body; all three spellings
    of the right digest verify. *)
Theorem signature_gate secret req :
  secret <> "" ->
  let signature := signature_of req in
  let h := expected_hash (body req) secret in
  ((signature = "" \/ validate_signature (body req) signature secret = false) ->
   exists detail, receive_webhook secret req = (HTTPException 401 detail, []))
  /\ (validate_signature (body req) signature secret = true ->
      receive_webhook secret req
      = match json req with
        | Some payload =>
            (Accepted,
             [mkTask payload (headers req)
                     (or_str (x_vendor req) (extract_vendor_from_headers (headers req)))])
        | None => (HTTPException 400 "Invalid JSON payload", [])
        end)
  /\ (validate_signature (body req) signature secret = true
      <-> signature <> "" /\ provided_hash signature = h)
  /\ (validate_signature (body req) ("sha256=" +:+ h) secret = true
      /\ validate_signature (body req) ("v0=" +:+ h) secret = true
      /\ validate_signature (body req) h secret = true).
Proof.
  intros Hs signature h. subst h.
  split; [|split; [|split]].
  - unfold receive_webhook. fold signature.
    destruct (String.eqb_spec secret "") as [|_]; [contradiction|]. simpl.
    intros [->|Hv].
    + simpl. eauto.
    + destruct (String.eqb signature ""); [eauto|]. rewrite Hv. simpl. eauto.
  - unfold receive_webhook. fold signature. intros Hv.
    assert (Hn : signature <> "").
    { apply (validate_signature_iff (body req) signature secret Hs) in Hv. tauto. }
    destruct (String.eqb_spec secret "") as [|_]; [contradiction|].
    destruct (String.eqb_spec signature "") as [|_]; [contradiction|].
    rewrite Hv. simpl. destruct (json req); reflexivity.
  - apply validate_signature_iff, Hs.
  - apply correct_signature_accepted, Hs.
Qed.

(** *** Concrete requests *)

Definition signed (raw : string) (parsed : option pyval) (sig : option string)
  : request :=
  mkRequest raw parsed [("content-type", "application/json")] sig None None None.

(** The body [{"title":"A"}] and what [request.json()] makes of it. *)
Definition dq : string := String (ascii_of_nat 34) "".
Definition story_body : string :=
  "{" +:+ dq +:+ "title" +:+ dq +:+ ":" +:+ dq +:+ "A" +:+ dq +:+ "}".
Definition story_payload : pyval := VDict [("title", VStr "A")].

Example hmac_of_story :
  expected_hash story_body "s3cret"
  = "94fd2633a32aa284c6b41c82ce5edc339604ddfdaca844e5aad1b879d9884c0d".
Proof. vm_compute. reflexivity. Qed.

(** The same body with the right and with a wrong signature. *)
Lemma signature_gate_witness :
  receive_webhook "s3cret"
    (signed story_body (Some story_payload)
       (Some "sha256=94fd2633a32aa284c6b41c82ce5edc339604ddfdaca844e5aad1b879d9884c0d"))
  = (Accepted, [mkTask story_payload [("content-type", "application/json")] "unknown"])
  /\ exists detail,
      receive_webhook "s3cret"
        (signed story_body (Some story_payload)
           (Some "sha256=0000000000000000000000000000000000000000000000000000000000000000"))
      = (HTTPException 401 detail, []).
Proof.
  split.
  - refine (proj1 (proj2 (signature_gate "s3cret"
              (signed story_body (Some story_payload)
                 (Some "sha256=94fd2633a32aa284c6b41c82ce5edc339604ddfdaca844e5aad1b879d9884c0d"))
              _)) _).
    + discriminate.
    + vm_compute. reflexivity.
  - refine (proj1 (signature_gate "s3cret"
              (signed story_body (Some story_payload)
                 (Some "sha256=0000000000000000000000000000000000000000000000000000000000000000"))
              _) _).
    + discriminate.
    + right. vm_compute. reflexivity.
Defined.

(** C4, refuted as stated: the body [not json] with the right signature
    gets a 400, not an acknowledgement, while with a wrong one it gets the
    401. *)
Lemma signed_non_json_body_gets_400 :
  validate_signature "not json"
    "sha256=4b182846723bcbd5b91346e9611da460827b94fdc3a46048f4fcc992ac54f99f"
    "s3cret" = true
  /\ receive_webhook "s3cret"
       (signed "not json" None
          (Some "sha256=4b182846723bcbd5b91346e9611da460827b94fdc3a46048f4fcc992ac54f99f"))
     = (HTTPException 400 "Invalid JSON payload", [])
  /\ receive_webhook "s3cret" (signed "not json" None (Some "sha256=00"))
     = (HTTPException 401 "Invalid signature", []).
Proof. vm_compute. repeat split. Qed.

End WebhookProps.

(** ** The merged view of the hub (realtime/hub.py) *)

Module HubProps.
Import Bus Hub BusProps.

(** *** Dictionaries *)

Lemma lookup_set_other k k' v (d : dict) :
  k <> k' -> lookup k (set k' v d) = lookup k d.
Proof.
  intros Hk. induction d as [|[k0 v0] d IH]; simpl.
  - destruct (String.eqb_spec k k'); [contradiction | reflexivity].
  - destruct (String.eqb_spec k' k0) as [->|N]; simpl.
    + destruct (String.eqb_spec k k0); [contradiction | reflexivity].
    + destruct (String.eqb_spec k k0); [reflexivity | exact IH].
Qed.

Lemma legacy_topic_id item : item_key (legacy_topic item) = item_key item.
Proof.
  unfold legacy_topic, item_key.
  destruct (has_key item "category" && negb (has_key item "topic")); [|reflexivity].
  rewrite lookup_set_other by discriminate. reflexivity.
Qed.

Lemma legacy_topic_published item :
  published_key (legacy_topic item) = published_key item.
Proof.
  unfold legacy_topic, published_key, get_default.
  destruct (has_key item "category" && negb (has_key item "topic")); [|reflexivity].
  rewrite lookup_set_other by discriminate. reflexivity.
Qed.

(** *** The two deduplication loops *)

(** The id of the item is empty or can be hashed. *)
Definition usable_id (item : dict) : Prop :=
  truthy (get item "id") = true -> exists k, hash_key (get item "id") = Ok k.

(** One turn of the loop, when nothing raises. *)
Definition step (convert : dict -> dict) (st : list dict * gset pykey)
    (item : dict) : list dict * gset pykey :=
  match item_key item with
  | Some k =>
      if bool_decide (k ∈ snd st) then st
      else (fst st ++ [convert item], {[k]} ∪ snd st)
  | None => st
  end.

Lemma add_item_step convert st item :
  usable_id item -> add_item convert st item = Ok (step convert st item).
Proof.
  intros Hu. unfold add_item, step, item_key, usable_id, get in *.
  destruct st as [all_items seen_ids]. simpl.
  destruct (lookup "id" item) as [v|]; [|reflexivity].
  destruct (truthy v); [|reflexivity].
  destruct (Hu eq_refl) as [k ->]. simpl.
  destruct (bool_decide (k ∈ seen_ids)); reflexivity.
Qed.

Lemma add_items_steps convert items : forall st,
  Forall usable_id items ->
  add_items convert st items = Ok (List.fold_left (step convert) items st).
Proof.
  induction items as [|item rest IH]; intros st H; simpl; [reflexivity|].
  inversion H as [|? ? Hu Hrest]; subst.
  rewrite (add_item_step convert st item Hu). simpl. apply IH, Hrest.
Qed.

Lemma step_eq convert acc seen item :
  step convert (acc, seen) item
  = match item_key item with
    | Some k =>
        if bool_decide (k ∈ seen) then (acc, seen)
        else (acc ++ [convert item], {[k]} ∪ seen)
    | None => (acc, seen)
    end.
Proof. reflexivity. Qed.

(** The first item of a list that carries the id [k]. *)
Definition first_with_key (k : pykey) (items : list dict) : option dict :=
  List.find (fun item => bool_decide (item_key item = Some k)) items.

Lemma first_with_key_cons k item rest :
  first_with_key k (item :: rest)
  = if bool_decide (item_key item = Some k) then Some item
    else first_with_key k rest.
Proof. reflexivity. Qed.

Lemma first_with_key_id k items item :
  first_with_key k items = Some item -> item_key item = Some k /\ In item items.
Proof.
  intros H. apply List.find_some in H as [Hin Hk].
  apply bool_decide_eq_true in Hk. auto.
Qed.

(** What a loop adds to the items and to the seen ids. *)
Lemma dedup_spec convert items :
  (forall item, item_key (convert item) = item_key item) ->
  forall acc seen,
  exists added,
    fst (List.fold_left (step convert) items (acc, seen)) = acc ++ added
    /\ (forall k, k ∈ snd (List.fold_left (step convert) items (acc, seen))
                  <-> k ∈ seen \/ is_Some (first_with_key k items))
    /\ (forall x, In x added
                  <-> (exists k item, (k ∉ seen) /\ first_with_key k items = Some item
                                      /\ x = convert item))
    /\ List.NoDup (List.map item_key added)
    /\ (forall x, In x added -> exists k, item_key x = Some k /\ k ∉ seen).
Proof.
  intros Hc. induction items as [|item rest IH]; intros acc seen.
  - exists []. simpl. rewrite app_nil_r. repeat split.
    + intros H. left. exact H.
    + intros [H|[x H]]; [exact H | discriminate].
    + tauto.
    + intros (k & it & _ & H & _). discriminate.
    + constructor.
    + tauto.
  - simpl List.fold_left. rewrite step_eq.
    destruct (item_key item) as [k0|] eqn:Hk.
    2:{ destruct (IH acc seen) as (added & H1 & H2 & H3 & H4 & H5).
        exists added. split; [exact H1|]. split; [|split; [|split]]; trivial.
        - intros k. rewrite H2, first_with_key_cons, Hk.
          rewrite bool_decide_eq_false_2 by discriminate. reflexivity.
        - intros x. rewrite H3. setoid_rewrite first_with_key_cons. rewrite Hk.
          setoid_rewrite bool_decide_eq_false_2; [reflexivity | discriminate]. }
    destruct (bool_decide_reflect (k0 ∈ seen)) as [Hin|Hnew].
    + destruct (IH acc seen) as (added & H1 & H2 & H3 & H4 & H5).
      exists added. split; [exact H1|]. split; [|split; [|split]]; trivial.
      * intros k. rewrite H2, first_with_key_cons, Hk.
        destruct (bool_decide_reflect (Some k0 = Some k)) as [[= ->]|N]; [|reflexivity].
        split; intros _; left; exact Hin.
      * intros x. rewrite H3. split; intros (k & it & Hn & Hf & Hx);
          exists k, it; (split; [exact Hn|]); (split; [|exact Hx]).
        -- rewrite first_with_key_cons, Hk.
           destruct (bool_decide_reflect (Some k0 = Some k)) as [[= ->]|N];
             [contradiction | exact Hf].
        -- rewrite first_with_key_cons, Hk in Hf.
           destruct (bool_decide_reflect (Some k0 = Some k)) as [[= ->]|N];
             [contradiction | exact Hf].
    + destruct (IH (acc ++ [convert item]) ({[k0]} ∪ seen))
        as (added & H1 & H2 & H3 & H4 & H5).
      exists (convert item :: added).
      split; [rewrite H1, <- app_assoc; reflexivity|].
      split; [|split; [|split]].
      * intros k. rewrite H2, elem_of_union, elem_of_singleton.
        rewrite first_with_key_cons, Hk.
        destruct (bool_decide_reflect (Some k0 = Some k)) as [[= ->]|N].
        -- split; [intros _; right; eauto | intros _; left; left; reflexivity].
        -- split; [intros [[->|H]|H]; [congruence | tauto | tauto] | tauto].
      * intros x. split.
        -- intros [<-|Hin]; [|apply H3 in Hin as (k & it & Hn & Hf & ->)].
           ++ exists k0, item. split; [exact Hnew|]. split; [|reflexivity].
              rewrite first_with_key_cons, Hk, bool_decide_eq_true_2; reflexivity.
           ++ exists k, it. rewrite elem_of_union, elem_of_singleton in Hn.
              split; [tauto|]. split; [|reflexivity].
              rewrite first_with_key_cons, Hk, bool_decide_eq_false_2; [exact Hf|].
              intros [= ->]. tauto.
        -- intros (k & it & Hn & Hf & ->).
           rewrite first_with_key_cons, Hk in Hf.
           destruct (bool_decide_reflect (Some k0 = Some k)) as [[= ->]|N].
           ++ left. congruence.
           ++ right. apply H3. exists k, it. rewrite elem_of_union, elem_of_singleton.
              split; [|auto]. intros [->|H]; [congruence | contradiction].
      * simpl. constructor; [|exact H4].
        rewrite Hc, Hk. intros Hin. apply List.in_map_iff in Hin as (x & Hx & Hin).
        destruct (H5 x Hin) as (k & Hk' & Hn). rewrite Hk' in Hx. injection Hx as ->.
        apply Hn, elem_of_union_l, elem_of_singleton. reflexivity.
      * intros x [<-|Hin].
        -- exists k0. rewrite Hc. auto.
        -- destruct (H5 x Hin) as (k & Hk' & Hn). exists k. split; [exact Hk'|].
           intros H. apply Hn, elem_of_union_r, H.
Qed.

(** *** The sort *)

(** The published field of the item is absent or a string. *)
Definition string_published (item : dict) : Prop :=
  exists s, published_key item = VStr s.

(** [a] is not older than [b]: the published string of [b] is at most
    that of [a]. *)
Definition not_older (a b : dict) : Prop :=
  exists sa sb, published_key a = VStr sa /\ published_key b = VStr sb
                /\ String.leb sb sa = true.

Lemma ltb_true_leb x y : String.ltb x y = true -> String.leb x y = true.
Proof. unfold String.ltb, String.leb. destruct (String.compare x y); congruence. Qed.

Lemma ltb_false_leb x y : String.ltb x y = false -> String.leb y x = true.
Proof.
  unfold String.ltb, String.leb. rewrite (String.compare_antisym y x).
  destruct (String.compare x y); simpl; congruence.
Qed.

Lemma insert_desc_perm x l : Permutation (insert_desc x l) (x :: l).
Proof.
  induction l as [|y l IH]; simpl; [reflexivity|].
  destruct (holds _); [|reflexivity].
  rewrite IH. apply perm_swap.
Qed.

Lemma sorted_desc_perm l : Permutation (sorted_desc l) l.
Proof.
  induction l as [|x l IH]; simpl; [reflexivity|].
  rewrite insert_desc_perm. constructor. exact IH.
Qed.

Lemma insert_desc_hd y x l :
  HdRel not_older y l -> not_older y x -> HdRel not_older y (insert_desc x l).
Proof.
  intros Hl Hx. destruct l as [|z l]; simpl; [constructor; exact Hx|].
  destruct (holds _); constructor; [|exact Hx].
  inversion Hl; assumption.
Qed.

Lemma insert_desc_sorted x l :
  string_published x -> Forall string_published l ->
  Sorted not_older l -> Sorted not_older (insert_desc x l).
Proof.
  intros [sx Hx] Hall Hs. induction l as [|y l IH]; simpl.
  - repeat constructor.
  - inversion Hall as [|? ? [sy Hy] Hall']; subst.
    inversion Hs as [|? ? Hs' Hhd]; subst.
    rewrite Hx, Hy. simpl. destruct (String.ltb sx sy) eqn:E.
    + constructor; [apply IH; assumption|].
      apply insert_desc_hd; [exact Hhd|].
      exists sy, sx. auto using ltb_true_leb.
    + constructor; [exact Hs|]. constructor.
      exists sx, sy. auto using ltb_false_leb.
Qed.

Lemma sorted_desc_sorted l :
  Forall string_published l -> Sorted not_older (sorted_desc l).
Proof.
  induction l as [|x l IH]; intros H; simpl; [constructor|].
  inversion H as [|? ? Hx Hl]; subst.
  apply insert_desc_sorted; [exact Hx | | apply IH, Hl].
  apply List.Forall_forall. intros y Hy.
  apply (Permutation_in _ (sorted_desc_perm l)) in Hy.
  exact (proj1 (List.Forall_forall _ _) Hl y Hy).
Qed.

Lemma comparable_strings keys :
  Forall (fun k => exists s, k = VStr s) keys -> comparable keys = true.
Proof.
  induction 1 as [|k keys [s ->] Hrest IH]; simpl; [reflexivity|].
  rewrite IH, andb_true_r. apply forallb_forall. intros k' Hk'.
  destruct (proj1 (List.Forall_forall _ _) Hrest k' Hk') as [s' ->]. reflexivity.
Qed.

Lemma Sorted_firstn {A} (R : A -> A -> Prop) n : forall l,
  Sorted R l -> Sorted R (List.firstn n l).
Proof.
  induction n as [|n IH]; intros l Hs; simpl; [constructor|].
  destruct l as [|x l]; [constructor|].
  inversion Hs as [|? ? Hs' Hhd]; subst. constructor; [apply IH, Hs'|].
  destruct n as [|n]; [constructor|].
  destruct l as [|y l]; constructor. inversion Hhd; assumption.
Qed.

Lemma Sorted_slice_to {A} (R : A -> A -> Prop) n (l : list A) :
  Sorted R l -> Sorted R (slice_to n l).
Proof. intros H. unfold slice_to. destruct (n <? 0); apply Sorted_firstn, H. Qed.

Lemma slice_to_all {A} n (l : list A) :
  Z.of_nat (List.length l) <= n -> slice_to n l = l.
Proof.
  intros H. unfold slice_to. destruct (Z.ltb_spec n 0); [lia|].
  apply List.firstn_all2. lia.
Qed.

(** *** The merged view *)

Section View.

Variable aborted_sort : list dict -> list dict.

(** C9, amended: when every id is empty or hashable and every published
    field is absent or a string, the view is the first [limit] entries of a
    list that holds, once each, the ids found among the bus items asked for
    (the 2 * limit most recent) and the snapshot items: for an id on the bus
    its most recent bus item, for an id only in the snapshot its first
    snapshot item (with the legacy topic filled in); items without an id
    are left out; the list, and so the view, is ordered by published,
    newest first. *)
Theorem merged_view b rss_items limit :
  let event_items := fst (_get_event_bus_items b (limit * 2)) in
  Forall usable_id (event_items ++ rss_items) ->
  Forall string_published (event_items ++ rss_items) ->
  exists full,
    fst (get_latest_items aborted_sort b rss_items limit) = Ok (slice_to limit full)
    /\ (forall x,
           In x full
           <-> (exists k, first_with_key k event_items = Some x)
               \/ (exists k s, first_with_key k event_items = None
                               /\ first_with_key k rss_items = Some s
                               /\ x = legacy_topic s))
    /\ List.NoDup (List.map item_key full)
    /\ (forall x, In x full -> is_Some (item_key x))
    /\ Sorted not_older full
    /\ Sorted not_older (slice_to limit full)
    /\ (Z.of_nat (List.length full) <= limit -> slice_to limit full = full).
Proof.
  intros event_items Hids Hpub.
  apply List.Forall_app in Hids as [HidE HidS].
  apply List.Forall_app in Hpub as [HpubE HpubS].
  unfold get_latest_items.
  destruct (_get_event_bus_items b (limit * 2)) as [events b'] eqn:Eb.
  simpl in event_items. subst event_items. simpl fst.
  rewrite (add_items_steps _ events _ HidE). simpl bind.
  destruct (dedup_spec (fun item => item) events (fun _ => eq_refl) [] ∅)
    as (addedE & E1 & E2 & E3 & E4 & E5).
  destruct (List.fold_left (step (fun item => item)) events ([], ∅))
    as [accE seenE] eqn:EE. simpl in E1, E2. subst accE.
  rewrite (add_items_steps _ rss_items _ HidS). simpl bind.
  destruct (dedup_spec legacy_topic rss_items legacy_topic_id addedE seenE)
    as (addedS & S1 & S2 & S3 & S4 & S5).
  rewrite S1. clear S1 S2.
  set (merged := addedE ++ addedS).
  (* what the two loops collected *)
  assert (HinE : forall x, In x addedE <-> exists k, first_with_key k events = Some x).
  { intros x. rewrite E3. split.
    - intros (k & it & _ & Hf & ->). eauto.
    - intros [k Hf]. exists k, x. split; [apply not_elem_of_empty | auto]. }
  assert (HseenE : forall k, k ∈ seenE <-> first_with_key k events <> None).
  { intros k. rewrite E2. split.
    - intros [H|[x H]]; [exfalso; exact (not_elem_of_empty k H) | congruence].
    - intros H. right. destruct (first_with_key k events); [eauto | congruence]. }
  assert (HinS : forall x, In x addedS
                           <-> exists k s, first_with_key k events = None
                                           /\ first_with_key k rss_items = Some s
                                           /\ x = legacy_topic s).
  { intros x. rewrite S3. split; intros (k & it & Hn & Hf & ->); exists k, it;
      (split; [|auto]).
    - destruct (first_with_key k events) eqn:F; [|reflexivity].
      exfalso. apply Hn, HseenE. congruence.
    - intros H. apply HseenE in H. contradiction. }
  assert (Hstr : Forall string_published merged).
  { apply List.Forall_forall. intros x Hx. apply List.in_app_or in Hx as [Hx|Hx].
    - apply HinE in Hx as [k Hf]. apply first_with_key_id in Hf as [_ Hin].
      exact (proj1 (List.Forall_forall _ _) HpubE x Hin).
    - apply HinS in Hx as (k & it & _ & Hf & ->).
      apply first_with_key_id in Hf as [_ Hin].
      destruct (proj1 (List.Forall_forall _ _) HpubS it Hin) as [p Hp].
      exists p. rewrite legacy_topic_published. exact Hp. }
  assert (Hnd : List.NoDup (List.map item_key merged)).
  { unfold merged. rewrite List.map_app. apply List.NoDup_app; trivial.
    intros key Hk1 Hk2.
    apply List.in_map_iff in Hk1 as (x & <- & Hx).
    apply List.in_map_iff in Hk2 as (y & Hy & Hy').
    destruct (S5 y Hy') as (k & Hk & Hn). apply Hn, HseenE.
    apply HinE in Hx as [k' Hf]. pose proof (first_with_key_id _ _ _ Hf) as [Hk' _].
    assert (k' = k) by congruence. subst k'. congruence. }
  assert (Hsort : sort_by_published aborted_sort merged = sorted_desc merged).
  { unfold sort_by_published. rewrite comparable_strings; [reflexivity|].
    apply List.Forall_forall. intros key Hk.
    apply List.in_map_iff in Hk as (x & <- & Hx).
    exact (proj1 (List.Forall_forall _ _) Hstr x Hx). }
  exists (sorted_desc merged). simpl fst. fold merged. rewrite Hsort.
  pose proof (sorted_desc_perm merged) as Hperm.
  pose proof (sorted_desc_sorted merged Hstr) as Hsorted.
  split; [reflexivity|]. split; [|split; [|split; [|split; [|split]]]].
  - intros x. split.
    + intros Hx. apply (Permutation_in _ Hperm) in Hx.
      apply List.in_app_or in Hx as [Hx|Hx]; [left; apply HinE, Hx | right; apply HinS, Hx].
    + intros Hx. apply (Permutation_in _ (Permutation_sym Hperm)).
      apply List.in_or_app. destruct Hx as [Hx|Hx]; [left; apply HinE, Hx | right; apply HinS, Hx].
  - apply (Permutation_NoDup (l := List.map item_key merged)); [|exact Hnd].
    apply Permutation_map, Permutation_sym, Hperm.
  - intros x Hx. apply (Permutation_in _ Hperm) in Hx.
    apply List.in_app_or in Hx as [Hx|Hx].
    + destruct (E5 x Hx) as (k & -> & _). eauto.
    + destruct (S5 x Hx) as (k & -> & _). eauto.
  - exact Hsorted.
  - apply Sorted_slice_to, Hsorted.
  - apply slice_to_all.
Qed.

End View.

(** *** Concrete views *)

Definition entry (i p : string) : dict :=
  [("id", VStr i); ("topic", VStr "news"); ("title", VStr "A");
   ("link", VStr "http://x/1"); ("published", VStr p);
   ("source", VStr "feed"); ("publisher", VStr "acme")].

(** An item in the legacy format of the scheduler: a category, no topic. *)
Definition legacy (i p : string) : dict :=
  [("id", VStr i); ("title", VStr "A"); ("link", VStr "http://x/1");
   ("published", VStr p); ("source", VStr "feed"); ("publisher", VStr "acme");
   ("category", VStr "markets")].

(** A bus that accepted "a" and then "b". *)
Definition hub_bus : EventBus :=
  snd (publish (snd (publish default_bus (entry "a" "2024-01-01T00:00:30Z")
                       "acme" (at_ 0)))
         (entry "b" "2024-01-03T00:00:30Z") "acme" (at_ 1)).

(** A snapshot with an older copy of "a", two more ids and an item that
    has no id. *)
Definition snapshot : list dict :=
  [entry "a" "2024-01-05T00:00:00Z"; entry "c" "2024-01-02T00:00:00Z";
   [("title", VStr "no id"); ("published", VStr "2024-01-04T00:00:00Z")];
   legacy "d" "2024-01-02T00:00:00Z"].

Definition keep_order (items : list dict) : list dict := items.

Example view_of_hub_bus :
  fst (get_latest_items keep_order hub_bus snapshot 50)
  = Ok [entry "b" "2024-01-03T00:00:30Z";
        entry "c" "2024-01-02T00:00:00Z";
        legacy "d" "2024-01-02T00:00:00Z" ++ [("topic", VStr "markets")];
        entry "a" "2024-01-01T00:00:30Z"].
Proof. vm_compute. reflexivity. Qed.

(** C9, refuted as stated: the view is cut to [limit] entries, and an item
    without an id never enters it.  With limit 2 the ids "d" and "a" of the
    union are missing from the view, and with limit 50 the snapshot item
    without an id is. *)
Lemma view_is_not_the_whole_union :
  fst (get_latest_items keep_order hub_bus snapshot 2)
  = Ok [entry "b" "2024-01-03T00:00:30Z"; entry "c" "2024-01-02T00:00:00Z"]
  /\ In (entry "a" "2024-01-01T00:00:30Z") (fst (_get_event_bus_items hub_bus 4))
  /\ In [("title", VStr "no id"); ("published", VStr "2024-01-04T00:00:00Z")] snapshot
  /\ forall view,
       fst (get_latest_items keep_order hub_bus snapshot 50) = Ok view ->
       ~ In [("title", VStr "no id"); ("published", VStr "2024-01-04T00:00:00Z")] view.
Proof.
  split; [vm_compute; reflexivity|].
  split; [vm_compute; auto|].
  split; [simpl; auto|].
  intros view. rewrite view_of_hub_bus. intros [= <-].
  simpl. intuition discriminate.
Qed.

(** The view of the example bus and snapshot. *)
Lemma merged_view_witness :
  exists full,
    fst (get_latest_items keep_order hub_bus snapshot 50) = Ok (slice_to 50 full)
    /\ List.NoDup (List.map item_key full)
    /\ Sorted not_older full.
Proof.
  destruct (merged_view keep_order hub_bus snapshot 50)
    as (full & H1 & _ & H2 & _ & H3 & _).
  - vm_compute.
    repeat constructor; intros _; eexists; reflexivity.
  - vm_compute.
    repeat constructor; eexists; reflexivity.
  - exists full. auto.
Defined.

End HubProps.

Module LimiterProps.
Import Bus PyProps BusProps.

(** *** The token bucket, call by call *)

(** X1: on a clock that does not run backwards and with a refill rate
    that is not negative, [allow] keeps the token count between zero and
    the capacity; a refused call leaves less than one token, a granted one
    leaves room for the token it took. *)
Theorem allow_keeps_tokens_in_range rl now :
  (0 <= tokens rl)%Q ->
  (tokens rl <= inject_Z (max_tokens rl))%Q ->
  (0 <= tokens_per_second rl)%Q ->
  (last_update rl <= now)%Q ->
  (0 <= tokens (snd (allow rl now)))%Q
  /\ (tokens (snd (allow rl now)) <= inject_Z (max_tokens (snd (allow rl now))))%Q
  /\ (fst (allow rl now) = false -> (tokens (snd (allow rl now)) < 1)%Q)
  /\ (fst (allow rl now) = true ->
      (tokens (snd (allow rl now)) + 1 <= inject_Z (max_tokens rl))%Q).
Proof.
  intros H0 Hcap Hrate Hclock.
  destruct (allow_rule rl now) as (Hf & Ht & Hm & _). cbv zeta in Hf, Ht.
  rewrite Hf, Ht, Hm. clear Hf Ht Hm.
  assert (Hgain : (0 <= (now - last_update rl) * tokens_per_second rl)%Q).
  { apply Qmult_le_0_compat; [lra | exact Hrate]. }
  set (gain := ((now - last_update rl) * tokens_per_second rl)%Q) in *.
  set (cap := inject_Z (max_tokens rl)) in *.
  set (t := tokens rl) in *. clearbody gain cap t. clear Hrate Hclock.
  destruct (min_spec cap (t + gain)%Q) as [[L ->]|[L ->]].
  - destruct (Qle_bool 1 (t + gain)) eqn:E.
    + apply Qle_bool_iff in E. (split; [|split; [|split]]); intros; try discriminate; lra.
    + assert (~ (1 <= t + gain)%Q) by (rewrite <- Qle_bool_iff; congruence).
      (split; [|split; [|split]]); intros; try discriminate; lra.
  - destruct (Qle_bool 1 cap) eqn:E.
    + apply Qle_bool_iff in E. (split; [|split; [|split]]); intros; try discriminate; lra.
    + assert (~ (1 <= cap)%Q) by (rewrite <- Qle_bool_iff; congruence).
      (split; [|split; [|split]]); intros; try discriminate; lra.
Qed.

Definition half_full : RateLimiter := mkRateLimiter 10 50 (1 # 2) 0.

Lemma allow_keeps_tokens_in_range_witness :
  (0 <= tokens (snd (allow half_full (1 # 100))))%Q
  /\ (tokens (snd (allow half_full (1 # 100))) < 1)%Q
  /\ fst (allow half_full (1 # 100)) = false.
Proof.
  assert (H0 : (0 <= tokens half_full)%Q) by (vm_compute; discriminate).
  assert (H1 : (tokens half_full <= inject_Z (max_tokens half_full))%Q)
    by (vm_compute; discriminate).
  assert (H2 : (0 <= tokens_per_second half_full)%Q) by (vm_compute; discriminate).
  assert (H3 : (last_update half_full <= 1 # 100)%Q) by (vm_compute; discriminate).
  destruct (allow_keeps_tokens_in_range half_full (1 # 100) H0 H1 H2 H3)
    as (A & _ & B & _).
  split; [exact A|]. split; [exact (B eq_refl) | reflexivity].
Defined.




End LimiterProps.

Module RecentProps.
Import Bus PyProps BusProps.

(** [min] returns an entry no newer than any other. *)
Lemma oldest_from_le d : forall best e,
  In e (best :: d) -> (snd (oldest_from best d) <= snd e)%Q.
Proof.
  induction d as [|x d IH]; intros best e Hin; simpl.
  - destruct Hin as [->|[]]. lra.
  - assert (Hb : (snd (if qlt (snd x) (snd best) then x else best) <= snd best)%Q
                 /\ (snd (if qlt (snd x) (snd best) then x else best) <= snd x)%Q).
    { destruct (qlt (snd x) (snd best)) eqn:E.
      - apply qlt_spec in E. split; lra.
      - assert (~ (snd x < snd best)%Q) by (rewrite <- qlt_spec; congruence).
        split; lra. }
    destruct Hb as [Hb Hx].
    set (best' := if qlt (snd x) (snd best) then x else best) in *.
    pose proof (IH best' best' (or_introl eq_refl)) as Hmin.
    destruct Hin as [->|[->|Hin]].
    + lra.
    + lra.
    + apply IH. right. exact Hin.
Qed.

Lemma oldest_is_min d k :
  oldest d = Ok k ->
  exists t, In (k, t) d /\ forall e, In e d -> (t <= snd e)%Q.
Proof.
  destruct d as [|e0 d]; simpl; [discriminate|]. intros [= <-].
  exists (snd (oldest_from e0 d)). split.
  - rewrite <- surjective_pairing.
    destruct (oldest_from_in e0 d) as [->|Hin]; [left; reflexivity | right; exact Hin].
  - intros e He. apply oldest_from_le. exact He.
Qed.

Lemma fold_pop_in (l : list pykey) : forall d e,
  In e (List.fold_left (fun d k => dict_pop k d) l d) <-> In e d /\ ~ In (fst e) l.
Proof.
  induction l as [|x l IH]; intros d e; simpl; [tauto|].
  rewrite IH, dict_pop_in. intuition congruence.
Qed.

Lemma in_keys (d : list (pykey * Q)) e : In e d -> In (fst e) (keys d).
Proof. intros H. apply in_map. exact H. Qed.

(** The eviction loop on a dictionary in step with the id set: it ends
    without an exception, brings the number of ids within the cap, keeps
    set and dictionary in step, and every entry it drops is no newer than
    every entry it keeps. *)
Lemma enforce_max_post max : 0 <= max -> forall fuel ids ts,
  (List.length ts <= fuel)%nat -> in_sync ids ts ->
  exists ids' ts',
    enforce_max fuel max ids ts = (Ok tt, (ids', ts'))
    /\ in_sync ids' ts' /\ ids' ⊆ ids
    /\ Z.of_nat (size ids') <= max
    /\ (forall e, In e ts' -> In e ts)
    /\ (forall e e', In e ts -> ~ In e ts' -> In e' ts' -> (snd e <= snd e')%Q).
Proof.
  intros Hmax. induction fuel as [|fuel IH]; intros ids ts Hlen [Hnd Hsync].
  - destruct ts; [|simpl in Hlen; lia].
    assert (ids ≡ ∅) as He.
    { apply elem_of_equiv_empty. intros k Hk. apply Hsync in Hk. exact Hk. }
    apply size_empty_iff in He.
    exists ids, []. rewrite enforce_max_idle by lia.
    split; [reflexivity|]. split; [split; assumption|]. split; [reflexivity|].
    split; [lia|]. split; [tauto|]. intros e e' _ _ [].
  - simpl. destruct (Z.ltb_spec max (Z.of_nat (size ids))) as [L|L].
    + assert (Hne : ts <> []).
      { intros ->. assert (ids ≡ ∅) as He.
        { apply elem_of_equiv_empty. intros k Hk. apply Hsync in Hk. exact Hk. }
        apply size_empty_iff in He. lia. }
      destruct (oldest_in ts Hne) as (k & Ek & Hk).
      destruct (oldest_is_min ts k Ek) as (t & Hkt & Hmin).
      rewrite Ek.
      destruct (IH (ids ∖ {[k]}) (dict_pop k ts))
        as (ids' & ts' & E & Hs & Hsub & Hsize & Hin & Hold).
      * pose proof (length_pop_lt k ts Hk). lia.
      * split; [apply NoDup_pop, Hnd|]. intros k'.
        rewrite elem_of_difference, elem_of_singleton, keys_pop, Hsync. tauto.
      * exists ids', ts'. split; [exact E|]. split; [exact Hs|].
        split; [intros x Hx; apply Hsub, elem_of_difference in Hx; tauto|].
        split; [exact Hsize|].
        split; [intros e He; apply Hin, dict_pop_in in He; tauto|].
        intros e e' He Hne' He'.
        destruct (decide (fst e = k)) as [Ee|Ne].
        -- assert (snd e = t) as ->.
           { apply (NoDup_keys_functional ts k); [exact Hnd| |exact Hkt].
             rewrite <- Ee, <- surjective_pairing. exact He. }
           apply Hmin. apply Hin, dict_pop_in in He'. tauto.
        -- apply Hold; [|exact Hne'|exact He']. apply dict_pop_in. tauto.
    + exists ids, ts. split; [reflexivity|]. split; [split; assumption|].
      split; [reflexivity|]. split; [lia|]. split; [tauto|].
      intros e e' He Hne. contradiction.
Qed.

(** What [_cleanup_recent] leaves of the tracking of a well-formed bus. *)
Lemma cleanup_recent_post b now :
  wf b ->
  exists ids ts,
    _cleanup_recent b now = (Ok tt, with_recent b ids ts)
    /\ in_sync ids ts
    /\ ids ⊆ recent_ids b
    /\ Z.of_nat (size ids) <= max_recent_items b
    /\ (forall e, In e ts ->
           In e (recent_timestamps b)
           /\ (now - inject_Z (recent_ttl_seconds b) <= snd e)%Q)
    /\ (forall e e', In e (recent_timestamps b) -> ~ In e ts -> In e' ts ->
           (snd e <= snd e')%Q).
Proof.
  intros [[Hnd Hsync] Hmax]. unfold _cleanup_recent.
  set (cutoff := (now - inject_Z (recent_ttl_seconds b))%Q).
  set (expired := List.map fst (List.filter _ (recent_timestamps b))).
  set (ids0 := List.fold_left _ expired (recent_ids b)).
  set (ts0 := List.fold_left _ expired (recent_timestamps b)).
  assert (Hkept : forall e, In e ts0 ->
            In e (recent_timestamps b) /\ (cutoff <= snd e)%Q).
  { intros e He. apply fold_pop_in in He as [He Hn]. split; [exact He|].
    destruct (qlt (snd e) cutoff) eqn:E.
    - exfalso. apply Hn. unfold expired. apply in_map, filter_In. auto.
    - assert (~ (snd e < cutoff)%Q) by (rewrite <- qlt_spec; congruence). lra. }
  assert (Hgone : forall e, In e (recent_timestamps b) -> In (fst e) expired ->
            (snd e < cutoff)%Q).
  { intros e He Hx.
    unfold expired in Hx. apply in_map_iff in Hx as ([k' t'] & Ek & Hf).
    simpl in Ek. apply filter_In in Hf as [Hf Hlt]. simpl in Hlt.
    apply qlt_spec in Hlt. subst k'.
    rewrite (surjective_pairing e) in He.
    rewrite (NoDup_keys_functional _ _ _ _ Hnd He Hf). exact Hlt. }
  destruct (enforce_max_post _ Hmax (List.length ts0) ids0 ts0 (le_n _))
    as (ids & ts & -> & Hs & Hsub & Hsize & Hin & Hold).
  - split; [apply fold_pop_NoDup, Hnd|]. intros k.
    unfold ids0, ts0. rewrite fold_discard, fold_pop_keys, Hsync. tauto.
  - exists ids, ts. split; [reflexivity|]. split; [exact Hs|].
    split; [intros k Hk; apply Hsub in Hk; apply fold_discard in Hk; tauto|].
    split; [exact Hsize|]. split; [intros e He; apply Hkept, Hin, He|].
    intros e e' He Hne He'.
    destruct (in_dec pykey_eq_dec (fst e) expired) as [H0|H0].
    + pose proof (Hgone e He H0). pose proof (proj2 (Hkept e' (Hin e' He'))). lra.
    + apply Hold; [|exact Hne|exact He']. apply fold_pop_in. auto.
Qed.

Lemma init_wf max_recent ttl rate :
  0 <= max_recent -> wf (EventBus_init max_recent ttl rate).
Proof.
  intros H. split; [split|]; simpl.
  - constructor.
  - intros k. split; [intros Hk; exact (not_elem_of_empty k Hk) | tauto].
  - exact H.
Qed.

(** X3: on a well-formed bus [_cleanup_recent] never raises, keeps the
    bus well-formed and leaves at most [max_recent_items] tracked ids;
    every timestamp it keeps was there before and is not older than the
    TTL, and whatever it drops, by age or by the cap, is no newer than
    anything it keeps: eviction is oldest first. *)
Theorem cleanup_bounds_tracking b now :
  wf b ->
  fst (_cleanup_recent b now) = Ok tt
  /\ wf (snd (_cleanup_recent b now))
  /\ Z.of_nat (size (recent_ids (snd (_cleanup_recent b now)))) <= max_recent_items b
  /\ recent_ids (snd (_cleanup_recent b now)) ⊆ recent_ids b
  /\ (forall k t, In (k, t) (recent_timestamps (snd (_cleanup_recent b now))) ->
        In (k, t) (recent_timestamps b)
        /\ (now - inject_Z (recent_ttl_seconds b) <= t)%Q)
  /\ (forall dropped kept,
        In dropped (recent_timestamps b) ->
        ~ In dropped (recent_timestamps (snd (_cleanup_recent b now))) ->
        In kept (recent_timestamps (snd (_cleanup_recent b now))) ->
        (snd dropped <= snd kept)%Q).
Proof.
  intros Hwf.
  destruct (cleanup_recent_post b now Hwf)
    as (ids & ts & -> & Hs & Hsub & Hsize & Hin & Hold). simpl.
  split; [reflexivity|]. split; [split; [exact Hs | exact (proj2 Hwf)]|].
  split; [exact Hsize|]. split; [exact Hsub|].
  split; [intros k t H; exact (Hin (k, t) H) | exact Hold].
Qed.

(** X4: an id whose timestamp is older than the TTL is forgotten: the
    next [seen_recent] answers False for it. *)
Theorem expired_id_is_forgotten b v k t now :
  wf b ->
  hash_key v = Ok k ->
  In (k, t) (recent_timestamps b) ->
  (t < now - inject_Z (recent_ttl_seconds b))%Q ->
  fst (seen_recent b v now) = Ok false.
Proof.
  intros Hwf Hk Hin Hold. unfold seen_recent.
  destruct (cleanup_recent_post b now Hwf)
    as (ids & ts & -> & [Hnd Hsync] & _ & _ & Hkept & _).
  rewrite Hk. simpl. rewrite bool_decide_eq_false_2; [reflexivity|].
  intros Hids. apply Hsync in Hids. apply in_map_iff in Hids as ([k' t'] & Ek & He).
  simpl in Ek. subst k'. destruct (Hkept _ He) as [Hb Hfresh]. simpl in Hfresh.
  rewrite (NoDup_keys_functional _ _ _ _ (proj1 (proj1 Hwf)) Hin Hb) in Hold. lra.
Qed.

(** An id marked as seen is reported as seen by every later
    [seen_recent] made within the TTL, as long as the cap leaves room for
    it. *)
Lemma marked_id_is_seen b v k t now :
  wf b ->
  hash_key v = Ok k ->
  (now - inject_Z (recent_ttl_seconds b) <= t)%Q ->
  Z.of_nat (size ({[k]} ∪ recent_ids b)) <= max_recent_items b ->
  fst (_mark_seen b v t) = Ok tt
  /\ fst (seen_recent (snd (_mark_seen b v t)) v now) = Ok true.
Proof.
  intros [Hs Hmax] Hk Httl Hcap. unfold _mark_seen. rewrite Hk. simpl.
  split; [reflexivity|].
  destruct (seen_recent_tracked
              (with_recent b ({[k]} ∪ recent_ids b)
                           (dict_store k t (recent_timestamps b)))
              v k t now Hk) as (ids' & ts' & ->); simpl; trivial.
  - apply NoDup_store, Hs.
  - apply elem_of_union_l, elem_of_singleton. reflexivity.
  - apply store_in.
Qed.

(** *** Concrete buses *)

Definition report (i : string) : dict :=
  [("id", VStr i); ("topic", VStr "news"); ("title", VStr "A");
   ("link", VStr "http://x/1"); ("published", VStr "2024-01-01T00:00:30Z");
   ("source", VStr "webhook:acme"); ("publisher", VStr "acme")].

Definition clock (t : Q) : readings := mkReadings "0.0" t t t t t.

(** A bus capped at one tracked id that accepted "a" at time 0 and "b" at
    time 1, and so tracks two ids until the next cleanup. *)
Definition one_id_bus : EventBus := EventBus_init 1 3600 10.
Definition over_cap : EventBus :=
  snd (xadd_json Schemas.iso_parse
         (snd (xadd_json Schemas.iso_parse one_id_bus "news.raw" (report "a")
                 "acme" (clock 0)))
         "news.raw" (report "b") "acme" (clock 1)).

Lemma over_cap_wf : wf over_cap.
Proof. apply xadd_json_wf, xadd_json_wf, init_wf. lia. Qed.

(** The cleanup at time 2 drops "a", marked at time 0, and keeps "b",
    marked at time 1. *)
Lemma cleanup_bounds_tracking_witness :
  Z.of_nat (size (recent_ids (snd (_cleanup_recent over_cap 2)))) <= 1
  /\ (snd (KStr "a", 0%Q) <= snd (KStr "b", 1%Q))%Q.
Proof.
  destruct (cleanup_bounds_tracking over_cap 2 over_cap_wf)
    as (_ & _ & Hsize & _ & _ & Hold).
  split; [exact Hsize|].
  apply (Hold (KStr "a", 0%Q) (KStr "b", 1%Q)).
  - vm_compute. auto.
  - vm_compute. intros [H|[]]. discriminate H.
  - vm_compute. auto.
Defined.

(** A bus with the default cap and TTL that accepted "a" at time 0. *)
Definition tracking_a : EventBus :=
  snd (xadd_json Schemas.iso_parse (EventBus_init 10000 3600 10) "news.raw"
         (report "a") "acme" (clock 0)).

Lemma tracking_a_wf : wf tracking_a.
Proof. apply xadd_json_wf, init_wf. lia. Qed.

Lemma expired_id_is_forgotten_witness :
  fst (seen_recent tracking_a (VStr "a") 3601) = Ok false.
Proof.
  apply (expired_id_is_forgotten tracking_a (VStr "a") (KStr "a") 0 3601
           tracking_a_wf eq_refl).
  - vm_compute. auto.
  - vm_compute. reflexivity.
Defined.

End RecentProps.

Module PublishProps.
Import Bus PyProps BusProps RecentProps.

Section Publish.

Variable date_parse : string -> option Schemas.datetime.

(** [xadd_json] from the limiter on, for data that got past validation
    with the id [v]. *)
Definition from_limiter (b : EventBus) (channel : string) (data : dict)
    (source : string) (clk : readings) (v : pyval) : result bool * EventBus :=
  let '(rate_limiter, b1) := _get_rate_limiter b source (at_limiter_init clk) in
  let '(allowed, rate_limiter) := allow rate_limiter (at_allow clk) in
  let b2 := with_rate_limiters b1 (<[source := rate_limiter]> (rate_limiters b1)) in
  if negb allowed then (Ok false, b2)
  else
    match seen_recent b2 v (at_cleanup clk) with
    | (Raise e, b3) => (Raise e, b3)
    | (Ok true, b3) => (Ok false, b3)
    | (Ok false, b3) =>
        let message := mkStreamMessage v channel data (at_message clk) source in
        let b4 := with_channels b3
                    (<[channel := deque_append channel_maxlen (history b3 channel)
                                               message]> (channels b3)) in
        match _mark_seen b4 v (at_mark clk) with
        | (Raise e, b5) => (Raise e, b5)
        | (Ok _, b5) =>
            (Ok true,
             with_subscribers b5
               (<[channel := default [] (subscribers b5 !! channel)]>
                  (subscribers b5)))
        end
    end.


Lemma xadd_json_with_id b channel data source clk v :
  passes_validation date_parse channel data ->
  lookup "id" data = Some v ->
  truthy v = true ->
  xadd_json date_parse b channel data source clk
  = from_limiter b channel data source clk v.
Proof.
  intros Hval Hl Ht. unfold xadd_json, from_limiter.
  assert (Hid : (if String.eqb channel "news.raw"
                 then if Schemas.validate_raw_item date_parse data
                      then Some (get data "id") else None
                 else Some (get_default data "id"
                              (VStr (channel +:+ ":" +:+ at_default_id clk))))
                = Some v).
  { unfold get, get_default. rewrite Hl.
    destruct (String.eqb_spec channel "news.raw") as [E|N]; [|reflexivity].
    rewrite (Hval E). reflexivity. }
  rewrite Hid, Ht. reflexivity.
Qed.

(** [xadd_json] on the raw-news channel. *)
Lemma xadd_json_raw b data source clk :
  xadd_json date_parse b "news.raw" data source clk
  = if Schemas.validate_raw_item date_parse data && truthy (get data "id")
    then from_limiter b "news.raw" data source clk (get data "id")
    else (Ok false, b).
Proof.
  unfold xadd_json, from_limiter. cbn [String.eqb Ascii.eqb Bool.eqb].
  destruct (Schemas.validate_raw_item date_parse data); [|reflexivity].
  destruct (truthy (get data "id")); reflexivity.
Qed.

(** On a well-formed bus a publish under a hashable id returns. *)
Lemma from_limiter_returns b channel data source clk v k :
  wf b -> hash_key v = Ok k ->
  exists r, fst (from_limiter b channel data source clk v) = Ok r.
Proof.
  intros Hwf Hh. unfold from_limiter.
  destruct (get_rate_limiter_frame b source (at_limiter_init clk)) as (rls & Hf).
  destruct (_get_rate_limiter b source (at_limiter_init clk)) as [rl b1].
  simpl in Hf. subst b1.
  destruct (allow rl (at_allow clk)) as [granted rl'].
  destruct granted; simpl; [|eauto].
  set (b2 := with_rate_limiters _ _).
  assert (Hwf2 : wf b2) by exact Hwf.
  destruct (cleanup_wf b2 (at_cleanup clk) Hwf2) as (ids & ts & Hc & _ & _).
  unfold seen_recent. rewrite Hc, Hh.
  destruct (bool_decide (k ∈ recent_ids (with_recent b2 ids ts))); [simpl; eauto|].
  unfold _mark_seen. rewrite Hh. simpl. eauto.
Qed.

Lemma publish_item_returns b it source clk :
  wf b ->
  exists r, fst (xadd_json date_parse b "news.raw" (Schemas.to_dict it) source clk)
            = Ok r.
Proof.
  intros Hwf. rewrite xadd_json_raw.
  destruct (_ && _); [|simpl; eauto].
  apply (from_limiter_returns _ _ _ _ _ _ (KStr (Schemas.id it)) Hwf). reflexivity.
Qed.

(** From the limiter on, the limiter of the source is what [allow] left,
    whatever comes after. *)
Lemma from_limiter_limiters b channel data source clk v :
  rate_limiters (snd (from_limiter b channel data source clk v))
  = <[source := snd (allow (fst (_get_rate_limiter b source (at_limiter_init clk)))
                           (at_allow clk))]> (rate_limiters b).
Proof.
  unfold from_limiter.
  pose proof (get_rate_limiter_insert b source (at_limiter_init clk)) as Hi.
  destruct (get_rate_limiter_frame b source (at_limiter_init clk)) as (rls & Hf).
  destruct (_get_rate_limiter b source (at_limiter_init clk)) as [rl b1].
  simpl in Hi, Hf. simpl fst.
  destruct (allow rl (at_allow clk)) as [granted rl']. simpl snd.
  rewrite Hi.
  set (b2 := with_rate_limiters b1 _).
  assert (E2 : rate_limiters b2 = <[source := rl']> (rate_limiters b)) by reflexivity.
  destruct granted; simpl; [|exact E2].
  destruct (seen_recent_frame b2 v (at_cleanup clk)) as (ids & ts & E3).
  destruct (seen_recent b2 v (at_cleanup clk)) as [[[|]|e] b3];
    simpl in E3; subst b3; try exact E2.
  set (b4 := with_channels _ _).
  destruct (mark_seen_frame b4 v (at_mark clk)) as (ids' & ts' & E5).
  destruct (_mark_seen b4 v (at_mark clk)) as [[u|e] b5];
    simpl in E5; subst b5; exact E2.
Qed.

(** X5: every publish attempt that gets past validation with an id
    leaves the limiter of its source as [allow] left it, whether the
    message is then accepted, refused as a duplicate or refused by the
    limiter itself: a duplicate costs a token. *)
Theorem every_attempt_debits_limiter b channel data source clk v :
  passes_validation date_parse channel data ->
  lookup "id" data = Some v ->
  truthy v = true ->
  rate_limiters (snd (xadd_json date_parse b channel data source clk))
  = <[source := snd (allow (fst (_get_rate_limiter b source (at_limiter_init clk)))
                           (at_allow clk))]> (rate_limiters b).
Proof.
  intros Hval Hl Ht.
  rewrite (xadd_json_with_id b channel data source clk v Hval Hl Ht).
  apply from_limiter_limiters.
Qed.

(** X6: an id that cannot be hashed (a non-empty list or dictionary)
    makes [xadd_json] raise [TypeError], after the limiter has granted the
    call and taken its token; no history changes. *)
Theorem unhashable_id_raises b channel data source clk v :
  wf b ->
  passes_validation date_parse channel data ->
  lookup "id" data = Some v ->
  truthy v = true ->
  hash_key v = Raise TypeError ->
  fst (allow (fst (_get_rate_limiter b source (at_limiter_init clk))) (at_allow clk))
  = true ->
  fst (xadd_json date_parse b channel data source clk) = Raise TypeError
  /\ channels (snd (xadd_json date_parse b channel data source clk)) = channels b.
Proof.
  intros Hwf Hval Hl Ht Hh Hallow.
  rewrite (xadd_json_with_id b channel data source clk v Hval Hl Ht).
  unfold from_limiter.
  destruct (get_rate_limiter_frame b source (at_limiter_init clk)) as (rls & Hf).
  destruct (_get_rate_limiter b source (at_limiter_init clk)) as [rl b1].
  simpl in Hf, Hallow. subst b1.
  destruct (allow rl (at_allow clk)) as [granted rl']. simpl in Hallow. subst granted.
  simpl negb. cbv iota.
  set (b2 := with_rate_limiters _ _).
  assert (Hwf2 : wf b2) by exact Hwf.
  destruct (cleanup_wf b2 (at_cleanup clk) Hwf2) as (ids & ts & Hc & _ & _).
  unfold seen_recent. rewrite Hc, Hh. simpl. split; reflexivity.
Qed.

(** *** A limit below one message in five seconds *)









(** *** Reading a channel *)

Lemma deque_append_newest {A} (d : list A) (x : A) :
  (List.length d <= 1000)%nat ->
  List.rev (deque_append channel_maxlen d x) = x :: List.firstn 999 (List.rev d).
Proof.
  intros Hlen. unfold deque_append, channel_maxlen.
  rewrite List.length_app. cbn [List.length].
  destruct (Nat.ltb_spec 1000 (List.length d + 1)) as [L|L].
  - destruct d as [|a d]; [cbn [List.length] in L; lia|].
    cbn [List.app List.tl]. rewrite List.rev_app_distr. cbn [List.rev List.app].
    f_equal. cbn [List.length] in Hlen, L.
    rewrite List.firstn_app, List.firstn_all2 by (rewrite List.length_rev; lia).
    rewrite List.length_rev.
    replace (999 - List.length d)%nat with 0%nat by lia.
    cbn [List.firstn]. rewrite List.app_nil_r. reflexivity.
  - rewrite List.rev_app_distr. cbn [List.rev List.app]. f_equal.
    rewrite List.firstn_all2 by (rewrite List.length_rev; lia). reflexivity.
Qed.

(** X8: after an accepted publish a read of the channel returns the
    published data first, followed by what a read of the 999 newest
    messages returned before the publish. *)
Theorem accepted_message_is_read_first b channel data source clk b' limit :
  (List.length (history b channel) <= 1000)%nat ->
  xadd_json date_parse b channel data source clk = (Ok true, b') ->
  1 <= limit ->
  fst (get_recent_messages b' channel limit)
  = data :: slice_to (limit - 1) (fst (get_recent_messages b channel 999)).
Proof.
  intros Hlen Hx Hlimit.
  destruct (xadd_json_channels date_parse b channel data source clk _ _ Hx)
    as [[_ (message_id & Hc)]|[Hne _]]; [|congruence].
  unfold get_recent_messages. cbn [fst].
  assert (Hh : history b' channel
               = deque_append channel_maxlen (history b channel)
                   (mkStreamMessage message_id channel data (at_message clk) source)).
  { unfold history at 1. rewrite Hc, lookup_insert_eq. reflexivity. }
  rewrite Hh, (deque_append_newest _ _ Hlen). unfold slice_to.
  destruct (Z.ltb_spec limit 0) as [L|_]; [lia|].
  destruct (Z.ltb_spec (limit - 1) 0) as [L|_]; [lia|].
  destruct (Z.ltb_spec 999 0) as [L|_]; [lia|].
  replace (Z.to_nat limit) with (S (Z.to_nat (limit - 1))) by lia.
  cbn [List.firstn List.map msg_data]. f_equal.
  rewrite List.firstn_map. reflexivity.
Qed.

End Publish.

(** Reading a channel is not destructive: whatever was read before, a
    read returns what it would have returned on the bus as it was, and a
    limit that is not negative bounds the number of messages returned. *)
Lemma reading_is_repeatable b channel limit :
  (forall channel' limit',
      fst (get_recent_messages (snd (get_recent_messages b channel limit))
             channel' limit')
      = fst (get_recent_messages b channel' limit'))
  /\ (0 <= limit ->
      Z.of_nat (List.length (fst (get_recent_messages b channel limit))) <= limit).
Proof.
  split.
  - intros channel' limit'. unfold get_recent_messages. cbn [fst snd].
    rewrite history_insert. destruct (decide (channel = channel')) as [->|Hne].
    + reflexivity.
    + reflexivity.
  - intros Hl. unfold get_recent_messages, slice_to. cbn [fst].
    destruct (Z.ltb_spec limit 0) as [L|_]; [lia|].
    rewrite List.length_map, List.length_firstn. lia.
Qed.

(** *** Subscribers *)

Definition callbacks (b : EventBus) (channel : string) : list nat :=
  default [] (subscribers b !! channel).

Lemma remove_first_absent x l : ~ In x l -> remove_first x l = l.
Proof.
  induction l as [|y l IH]; simpl; [reflexivity|]. intros H.
  destruct (Nat.eqb_spec x y) as [->|_]; [tauto|].
  rewrite IH by tauto. reflexivity.
Qed.

Lemma remove_first_last x l : ~ In x l -> remove_first x (l ++ [x]) = l.
Proof.
  induction l as [|y l IH]; simpl; intros H.
  - rewrite Nat.eqb_refl. reflexivity.
  - destruct (Nat.eqb_spec x y) as [->|_]; [tauto|].
    rewrite IH by tauto. reflexivity.
Qed.

(** X9: unsubscribing a callback that was subscribed once gives the
    channel its former list of callbacks back, unsubscribing one that is
    not subscribed changes no list, and neither touches another channel. *)
Theorem unsubscribe_undoes_subscribe b channel callback :
  ~ In callback (callbacks b channel) ->
  callbacks (unsubscribe (subscribe b channel callback) channel callback) channel
  = callbacks b channel
  /\ callbacks (unsubscribe b channel callback) channel = callbacks b channel
  /\ forall other, other <> channel ->
       callbacks (unsubscribe (subscribe b channel callback) channel callback) other
       = callbacks b other.
Proof.
  intros Hnew. unfold callbacks, unsubscribe, subscribe. cbn [subscribers with_subscribers].
  rewrite !lookup_insert_eq. cbn [default].
  split; [apply remove_first_last, Hnew|].
  split; [apply remove_first_absent, Hnew|].
  intros other Hne. rewrite !lookup_insert_ne by congruence. reflexivity.
Qed.

(** *** Concrete attempts *)

Definition fresh_bus : EventBus := EventBus_init 10000 3600 10.

Lemma every_attempt_debits_limiter_witness :
  tokens <$> (rate_limiters
                (snd (xadd_json Schemas.iso_parse tracking_a "news.raw" (report "a")
                        "acme" (clock 1))) !! "acme")
  = Some 49%Q
  /\ fst (xadd_json Schemas.iso_parse tracking_a "news.raw" (report "a") "acme"
            (clock 1)) = Ok false.
Proof.
  split; [|vm_compute; reflexivity].
  rewrite (every_attempt_debits_limiter Schemas.iso_parse tracking_a "news.raw"
             (report "a") "acme" (clock 1) (VStr "a")).
  - vm_compute. reflexivity.
  - intros _. vm_compute. reflexivity.
  - reflexivity.
  - reflexivity.
Defined.

(** A message on another channel whose id is a list. *)
Definition listed_id : dict := [("id", VList [VStr "a"]); ("title", VStr "A")].

Lemma unhashable_id_raises_witness :
  fst (xadd_json Schemas.iso_parse fresh_bus "news.processed" listed_id "acme"
         (clock 0)) = Raise TypeError
  /\ channels (snd (xadd_json Schemas.iso_parse fresh_bus "news.processed" listed_id
                      "acme" (clock 0))) = channels fresh_bus.
Proof.
  apply (unhashable_id_raises Schemas.iso_parse fresh_bus "news.processed" listed_id
           "acme" (clock 0) (VList [VStr "a"])).
  - apply init_wf. lia.
  - intros H. discriminate H.
  - reflexivity.
  - reflexivity.
  - reflexivity.
  - vm_compute. reflexivity.
Defined.


Lemma accepted_message_is_read_first_witness :
  fst (get_recent_messages
         (snd (xadd_json Schemas.iso_parse tracking_a "news.raw" (report "b") "acme"
                 (clock 1))) "news.raw" 2)
  = report "b" :: slice_to (2 - 1) (fst (get_recent_messages tracking_a "news.raw" 999)).
Proof.
  apply (accepted_message_is_read_first Schemas.iso_parse tracking_a "news.raw"
           (report "b") "acme" (clock 1)).
  - vm_compute. lia.
  - destruct (xadd_json Schemas.iso_parse tracking_a "news.raw" (report "b") "acme"
                (clock 1)) as [r b'] eqn:E.
    assert (Hr : fst (xadd_json Schemas.iso_parse tracking_a "news.raw" (report "b")
                        "acme" (clock 1)) = Ok true) by (vm_compute; reflexivity).
    rewrite E in Hr. simpl in Hr. subst r. reflexivity.
  - lia.
Defined.

Lemma unsubscribe_undoes_subscribe_witness :
  callbacks (unsubscribe (subscribe (subscribe fresh_bus "news.raw" 1) "news.raw" 2)
               "news.raw" 2) "news.raw"
  = callbacks (subscribe fresh_bus "news.raw" 1) "news.raw".
Proof.
  assert (H : ~ In 2%nat (callbacks (subscribe fresh_bus "news.raw" 1) "news.raw")).
  { vm_compute. intros [H|[]]. discriminate H. }
  exact (proj1 (unsubscribe_undoes_subscribe (subscribe fresh_bus "news.raw" 1)
                  "news.raw" 2%nat H)).
Defined.

End PublishProps.

Module IdentityProps.
Import Schemas Bus BusProps RecentProps PublishProps.

(** *** The shape of a generated id *)

Definition lower_hex (c : ascii) : Prop :=
  In c (list_ascii_of_string "0123456789abcdef").

Lemma hex_digit_lower_hex d : 0 <= d < 16 -> lower_hex (SHA256.hex_digit d).
Proof.
  intros H.
  assert (C : d = 0 \/ d = 1 \/ d = 2 \/ d = 3 \/ d = 4 \/ d = 5 \/ d = 6 \/ d = 7
              \/ d = 8 \/ d = 9 \/ d = 10 \/ d = 11 \/ d = 12 \/ d = 13 \/ d = 14
              \/ d = 15) by lia.
  unfold lower_hex.
  repeat (destruct C as [->|C]; [vm_compute; tauto|]).
  subst. vm_compute. tauto.
Qed.

Lemma digest_length msg : List.length (SHA256.digest msg) = 32%nat.
Proof.
  unfold SHA256.digest, SHA256.digest_words. cbv zeta.
  cbn [List.map List.concat SHA256.be_bytes List.app List.length]. reflexivity.
Qed.

Lemma hex_of_bytes_chars bs :
  Forall (fun b => 0 <= b < 256) bs ->
  List.length (list_ascii_of_string (SHA256.hex_of_bytes bs))
  = (2 * List.length bs)%nat
  /\ List.Forall lower_hex (list_ascii_of_string (SHA256.hex_of_bytes bs)).
Proof.
  unfold SHA256.hex_of_bytes. rewrite list_ascii_of_string_of_list_ascii.
  induction 1 as [|b bs Hb _ [IHl IHf]]; [split; [reflexivity | constructor]|].
  cbn [List.map List.concat List.app List.length]. split; [lia|].
  constructor; [|constructor; [|exact IHf]].
  - apply hex_digit_lower_hex.
    split; [apply Z.div_pos; lia | apply Z.div_lt_upper_bound; lia].
  - apply hex_digit_lower_hex. apply Z.mod_pos_bound. lia.
Qed.

Lemma substring_chars (n : nat) : forall s,
  list_ascii_of_string (String.substring 0 n s)
  = List.firstn n (list_ascii_of_string s).
Proof.
  induction n as [|n IH]; intros s.
  - destruct s; reflexivity.
  - destruct s as [|c s]; [reflexivity|]. cbn. rewrite IH. reflexivity.
Qed.

(** An id is well shaped when it is 16 lower-case hex digits. *)
Definition id_shaped (s : string) : Prop :=
  String.length s = 16%nat /\ List.Forall lower_hex (list_ascii_of_string s).

Lemma length_chars s : List.length (list_ascii_of_string s) = String.length s.
Proof. induction s as [|c s IH]; simpl; congruence. Qed.

Lemma sha256_16_shaped content : id_shaped (sha256_16 content).
Proof.
  unfold id_shaped, sha256_16, SHA256.hexdigest.
  destruct (hex_of_bytes_chars (SHA256.digest (SHA256.bytes_of_string content))
              (WebhookProps.digest_range _)) as [Hl Hf].
  rewrite digest_length in Hl.
  rewrite <- length_chars, substring_chars. split.
  - rewrite List.length_firstn, Hl. reflexivity.
  - apply List.Forall_forall. intros c Hc.
    apply (proj1 (List.Forall_forall _ _) Hf).
    rewrite <- (List.firstn_skipn 16). apply in_or_app. left. exact Hc.
Qed.

Lemma shaped_nonempty s : id_shaped s -> s <> "".
Proof. intros [H _] ->. discriminate H. Qed.

Section Identity.

Variable date_parse : string -> option datetime.

(** X10: every generated id, of the unified item and of the
    scheduler's own, is exactly 16 lower-case hexadecimal digits, whatever
    the fields hold; in particular it is never empty. *)
Theorem generated_ids_are_16_hex_digits (it : RawItem) (entry : Worker.RawItem) :
  id_shaped (make_id date_parse it)
  /\ id_shaped (Worker.generate_id entry)
  /\ make_id date_parse it <> ""
  /\ Worker.generate_id entry <> "".
Proof.
  unfold make_id, Worker.generate_id. cbv zeta.
  split; [apply sha256_16_shaped|]. split; [apply sha256_16_shaped|].
  split; apply shaped_nonempty, sha256_16_shaped.
Qed.

(** What the constructor returns. *)
Lemma post_init_ok it it' :
  __post_init__ date_parse it = Ok it' ->
  it' = (if String.eqb (id it) "" then with_id it (make_id date_parse it) else it)
  /\ id it' <> "" /\ title it' <> "" /\ link it' <> "" /\ published it' <> ""
  /\ source it' <> "" /\ publisher it' <> "".
Proof.
  unfold __post_init__, nonempty.
  set (it1 := if String.eqb (id it) "" then _ else it).
  destruct (String.eqb_spec (title it1) ""); simpl; [discriminate|].
  destruct (String.eqb_spec (link it1) ""); simpl; [discriminate|].
  destruct (String.eqb_spec (published it1) ""); simpl; [discriminate|].
  destruct (String.eqb_spec (source it1) ""); simpl; [discriminate|].
  destruct (String.eqb_spec (publisher it1) ""); simpl; [discriminate|].
  intros [= <-]. split; [reflexivity|]. repeat split; try assumption.
  unfold it1. destruct (String.eqb_spec (id it) "") as [E|N]; [|exact N].
  simpl. apply shaped_nonempty. unfold make_id. apply sha256_16_shaped.
Qed.

Lemma truthy_str s : s <> "" -> truthy (VStr s) = true.
Proof. intros H. simpl. destruct (String.eqb_spec s ""); [contradiction|reflexivity]. Qed.

(** The dictionary of an item its constructor accepted. *)
Lemma constructed_dict it it' :
  __post_init__ date_parse it = Ok it' ->
  id it' <> ""
  /\ lookup "id" (to_dict it') = Some (VStr (id it'))
  /\ (validate_raw_item date_parse (to_dict it') = true
      <-> exists dt, date_parse (published it') = Some dt).
Proof.
  intros H. destruct (post_init_ok it it' H) as (_ & Hi & Ht & Hl & Hp & Hs & Hr).
  split; [exact Hi|]. split; [reflexivity|].
  unfold validate_raw_item, required_fields, to_dict, get.
  cbn [forallb lookup String.eqb Ascii.eqb Bool.eqb List.app].
  rewrite !truthy_str by assumption. cbn [andb].
  destruct (date_parse (published it')) as [dt|]; split.
  - eauto.
  - reflexivity.
  - discriminate.
  - intros [dt [=]].
Qed.

(** X11: an item its constructor accepted carries a non-empty id, its
    dictionary holds that id, and the dictionary passes
    [validate_raw_item] exactly when the published string parses: an item
    can be built and yet never be published. *)
Theorem constructed_item_validates it it' :
  __post_init__ date_parse it = Ok it' ->
  id it' <> ""
  /\ lookup "id" (to_dict it') = Some (VStr (id it'))
  /\ (validate_raw_item date_parse (to_dict it') = true
      <-> exists dt, date_parse (published it') = Some dt).
Proof. apply constructed_dict. Qed.

(** X12: end to end, an item its constructor accepted, with a published
    string that parses and an id the bus does not track, is accepted by
    [publish_raw_item] on a well-formed bus whenever the limiter of the
    source grants the call; the bus then tracks its id. *)
Theorem constructed_item_is_accepted b it it' source clk dt :
  wf b ->
  __post_init__ date_parse it = Ok it' ->
  date_parse (published it') = Some dt ->
  KStr (id it') ∉ recent_ids b ->
  fst (allow (fst (_get_rate_limiter b source (at_limiter_init clk))) (at_allow clk))
  = true ->
  fst (publish_raw_item date_parse b (to_dict it') source clk) = Ok true
  /\ KStr (id it')
     ∈ recent_ids (snd (publish_raw_item date_parse b (to_dict it') source clk)).
Proof.
  intros Hwf Hc Hd Hnew Hallow.
  destruct (constructed_dict it it' Hc) as (Hi & Hl & Hv).
  assert (Hval : validate_raw_item date_parse (to_dict it') = true).
  { apply Hv. eauto. }
  assert (Hkey : item_key (to_dict it') = Some (KStr (id it'))).
  { unfold item_key. rewrite Hl, (truthy_str _ Hi). reflexivity. }
  destruct (allow (fst (_get_rate_limiter b source (at_limiter_init clk)))
                  (at_allow clk)) as [granted rl'] eqn:Ea.
  simpl in Hallow. subst granted.
  destruct (publish_accepted date_parse b "news.raw" (to_dict it') source clk
              (KStr (id it')) rl' Hwf (fun _ => Hval) Hkey Hnew Ea)
    as (b' & E & _ & _ & _ & _ & _ & Hin & _).
  unfold publish_raw_item. rewrite E. split; [reflexivity | exact Hin].
Qed.

(** X13: the legacy round trip.  An item its constructor accepted, once
    written by [to_legacy_dict] and read back by [from_legacy_dict], keeps
    its id, topic, title, link, published, source and publisher; the tags
    and the raw payload are lost and a missing summary comes back as the
    empty string. *)
Theorem legacy_round_trip it0 it :
  __post_init__ date_parse it0 = Ok it ->
  Legacy.from_legacy_dict date_parse (Legacy.to_legacy_dict it)
  = Ok (mkRawItem (id it) (topic it) (title it) (link it) (published it)
                  (source it) (publisher it)
                  (Some (default "" (summary it))) None None).
Proof.
  intros H. destruct (post_init_ok it0 it H) as (_ & Hi & Ht & Hl & Hp & Hs & Hr).
  destruct it as [i tp t l p s pb sm tg rp].
  cbn [id title link published source publisher topic summary] in *.
  apply String.eqb_neq in Hi, Ht, Hl, Hp, Hs, Hr.
  unfold Legacy.from_legacy_dict, Legacy.to_legacy_dict, Legacy.str_item, str_get.
  cbn [str_lookup String.eqb Ascii.eqb Bool.eqb bind].
  unfold __post_init__, nonempty.
  cbn [id title link published source publisher].
  rewrite Hi. cbn [id title link published source publisher].
  rewrite Ht, Hl, Hp, Hs, Hr. cbn [negb andb]. f_equal. f_equal.
  destruct sm as [x|]; [|reflexivity]. simpl.
  destruct (String.eqb_spec x "") as [->|_]; reflexivity.
Qed.

End Identity.

(** *** A concrete item *)

Definition wire_story : RawItem :=
  mkRawItem "" "markets" "A" "http://x/1" "2024-01-01T00:00:30Z" "webhook:acme"
            "acme" None (Some "a,b") None.

Definition built_story : RawItem := with_id wire_story "3dfb1ccb33b8c5b0".

Lemma wire_story_built : __post_init__ iso_parse wire_story = Ok built_story.
Proof. vm_compute. reflexivity. Qed.

Lemma constructed_item_validates_witness :
  validate_raw_item iso_parse (to_dict built_story) = true
  <-> exists dt, iso_parse (published built_story) = Some dt.
Proof.
  exact (proj2 (proj2 (constructed_item_validates iso_parse wire_story built_story
                         wire_story_built))).
Defined.

Lemma constructed_item_is_accepted_witness :
  fst (publish_raw_item iso_parse fresh_bus (to_dict built_story) "acme" (clock 0))
  = Ok true.
Proof.
  refine (proj1 (constructed_item_is_accepted iso_parse fresh_bus wire_story built_story
                   "acme" (clock 0) (DateTime 2024 1 1 0 0 30 0 (Some 0))
                   _ wire_story_built _ _ _)).
  - apply init_wf. lia.
  - vm_compute. reflexivity.
  - apply not_elem_of_empty.
  - vm_compute. reflexivity.
Defined.

Lemma legacy_round_trip_witness :
  Legacy.from_legacy_dict iso_parse (Legacy.to_legacy_dict built_story)
  = Ok (mkRawItem "3dfb1ccb33b8c5b0" "markets" "A" "http://x/1"
                  "2024-01-01T00:00:30Z" "webhook:acme" "acme" (Some "") None None).
Proof.
  exact (legacy_round_trip iso_parse wire_story built_story wire_story_built).
Defined.

End IdentityProps.

Module IngestProps.
Import Scheduler Ingest PyProps.

(** *** The interval *)

(** Settings that make sense: the floor is not negative and not above
    twice the baseline, which is not above the ceiling, and backing off
    does not shorten the interval. *)
Definition sane (cfg : Settings) : Prop :=
  0 <= poll_min_seconds cfg
  /\ poll_min_seconds cfg <= 2 * poll_baseline_seconds cfg
  /\ 2 * poll_baseline_seconds cfg <= poll_max_seconds cfg
  /\ (1 <= backoff_factor cfg)%Q.

Definition in_range (cfg : Settings) (state : HostState) : Prop :=
  (inject_Z (poll_min_seconds cfg) <= interval state)%Q
  /\ (interval state <= inject_Z (poll_max_seconds cfg))%Q.

Lemma sane_bounds cfg :
  sane cfg ->
  (0 <= inject_Z (poll_min_seconds cfg))%Q
  /\ (inject_Z (poll_min_seconds cfg) <= inject_Z (2 * poll_baseline_seconds cfg))%Q
  /\ (inject_Z (2 * poll_baseline_seconds cfg) <= inject_Z (poll_max_seconds cfg))%Q.
Proof.
  intros (H0 & H1 & H2 & _). change 0%Q with (inject_Z 0).
  rewrite <- !Zle_Qle. auto.
Qed.

(** The four interval rules of [_update_host_state]. *)
Lemma update_interval cfg st codes n now jitter :
  let i := interval st in
  let i' := interval (_update_host_state cfg st codes n now jitter) in
  i' = max_ (inject_Z (poll_min_seconds cfg)) (i * (9 # 10))%Q
  \/ i' = min_ (i * (11 # 10))%Q (inject_Z (2 * poll_baseline_seconds cfg))
  \/ i' = min_ (max_ i (inject_Z (backoff_base cfg)) * backoff_factor cfg)%Q
               (inject_Z (poll_max_seconds cfg))
  \/ i' = i.
Proof.
  unfold _update_host_state. cbv zeta.
  destruct (has_code 200 codes && (0 <? n)); [left; reflexivity|].
  destruct (has_code 304 codes || has_code 200 codes && (n =? 0));
    [right; left; reflexivity|].
  destruct (has_code 429 codes || has_code 403 codes || has_server_error codes
            || has_client_error codes); [right; right; left; reflexivity|].
  right; right; right; reflexivity.
Qed.

Lemma backoff_in_range cfg (i : Q) :
  sane cfg ->
  (inject_Z (poll_min_seconds cfg) <= i)%Q ->
  let i' := min_ (max_ i (inject_Z (backoff_base cfg)) * backoff_factor cfg)%Q
                 (inject_Z (poll_max_seconds cfg)) in
  (inject_Z (poll_min_seconds cfg) <= i')%Q /\ (i' <= inject_Z (poll_max_seconds cfg))%Q.
Proof.
  intros Hs Hlo. destruct (sane_bounds cfg Hs) as (B0 & B1 & B2).
  destruct Hs as (_ & _ & _ & Hf). cbv zeta.
  set (lo := inject_Z (poll_min_seconds cfg)) in *.
  set (cap := inject_Z (2 * poll_baseline_seconds cfg)) in *.
  set (hi := inject_Z (poll_max_seconds cfg)) in *.
  set (base := inject_Z (backoff_base cfg)) in *.
  set (f := backoff_factor cfg) in *. clearbody lo cap hi base f.
  assert (Hm : (i <= max_ i base)%Q).
  { destruct (max_spec i base) as [[L ->]|[L ->]]; lra. }
  assert (Hp : (max_ i base <= max_ i base * f)%Q).
  { set (m := max_ i base) in *. clearbody m.
    assert (0 <= m * (f - 1))%Q by (apply Qmult_le_0_compat; lra).
    lra. }
  set (m := (max_ i base * f)%Q) in *. clearbody m.
  destruct (min_spec m hi) as [[L ->]|[L ->]]; lra.
Qed.

Lemma after_in_range cfg st c :
  sane cfg -> in_range cfg st -> in_range cfg (after cfg st c).
Proof.
  intros Hs [Hlo Hhi]. unfold in_range, after.
  destruct (sane_bounds cfg Hs) as (B0 & B1 & B2).
  pose proof (backoff_in_range cfg (interval st) Hs Hlo) as Hb. cbv zeta in Hb.
  destruct (update_interval cfg st (codes c) (found c) (at_time c) (drawn_jitter c))
    as [E|[E|[E|E]]]; cbv zeta in E; rewrite E; clear E; [| |exact Hb|split; assumption].
  - clear Hb.
    set (lo := inject_Z (poll_min_seconds cfg)) in *.
    set (hi := inject_Z (poll_max_seconds cfg)) in *.
    set (cap := inject_Z (2 * poll_baseline_seconds cfg)) in *.
    set (i := interval st) in *. clearbody lo hi cap i.
    destruct (max_spec lo (i * (9 # 10))%Q) as [[L ->]|[L ->]]; split; lra.
  - clear Hb.
    set (lo := inject_Z (poll_min_seconds cfg)) in *.
    set (hi := inject_Z (poll_max_seconds cfg)) in *.
    set (cap := inject_Z (2 * poll_baseline_seconds cfg)) in *.
    set (i := interval st) in *. clearbody lo hi cap i.
    destruct (min_spec (i * (11 # 10))%Q cap) as [[L ->]|[L ->]]; split; lra.
Qed.


Definition idle_host : HostState := mkHostState 0 60 None None 0 0 None false.

Lemma defaults_sane : sane default_settings.
Proof. unfold sane. simpl. repeat split; try lia. discriminate. Qed.


(** *** Errors *)

(** A cycle in which no feed of the host answered 200 or 304 and at least
    one was rate limited, forbidden, failed on the server or did not
    answer at all. *)
Definition failed (status_codes : list (option Z)) : Prop :=
  has_code 200 status_codes = false
  /\ has_code 304 status_codes = false
  /\ (has_code 429 status_codes || has_code 403 status_codes
      || has_server_error status_codes || has_client_error status_codes) = true.

(** X15: a failed cycle backs the host off: the new interval is
    [min(max(interval, backoff_base) * backoff_factor, poll_max_seconds)],
    so it never exceeds the ceiling and, below the ceiling, is at least
    [backoff_factor] times the old one; the next poll is due one interval
    and one jitter after the cycle, and the failure is counted. *)
Theorem failed_cycle_backs_off cfg st status_codes n now jitter :
  failed status_codes ->
  (0 <= backoff_factor cfg)%Q ->
  let st' := _update_host_state cfg st status_codes n now jitter in
  interval st'
  = min_ (max_ (interval st) (inject_Z (backoff_base cfg)) * backoff_factor cfg)%Q
         (inject_Z (poll_max_seconds cfg))
  /\ (interval st' <= inject_Z (poll_max_seconds cfg))%Q
  /\ ((interval st * backoff_factor cfg <= interval st')%Q
      \/ interval st' = inject_Z (poll_max_seconds cfg))
  /\ next_due st' = (now + interval st' + jitter)%Q
  /\ consecutive_fail st' = consecutive_fail st + 1
  /\ backoff_logged st' = true.
Proof.
  intros (H200 & H304 & Herr) Hf st'.
  assert (E : interval st'
              = min_ (max_ (interval st) (inject_Z (backoff_base cfg))
                      * backoff_factor cfg)%Q (inject_Z (poll_max_seconds cfg))
              /\ next_due st' = (now + interval st' + jitter)%Q
              /\ consecutive_fail st' = consecutive_fail st + 1
              /\ backoff_logged st' = true).
  { subst st'. unfold _update_host_state. cbv zeta.
    rewrite H200, H304, Herr. simpl. repeat split. }
  destruct E as (Ei & En & Ec & El).
  split; [exact Ei|]. split; [|split; [|split; [exact En | split; [exact Ec | exact El]]]].
  - rewrite Ei.
    set (m := (max_ (interval st) (inject_Z (backoff_base cfg)) * backoff_factor cfg)%Q).
    set (hi := inject_Z (poll_max_seconds cfg)). clearbody m hi.
    destruct (min_spec m hi) as [[L ->]|[L ->]]; lra.
  - rewrite Ei.
    assert (Hm : (interval st * backoff_factor cfg
                  <= max_ (interval st) (inject_Z (backoff_base cfg))
                     * backoff_factor cfg)%Q).
    { apply Qmult_le_compat_r; [|exact Hf].
      destruct (max_spec (interval st) (inject_Z (backoff_base cfg)))
        as [[L ->]|[L ->]]; lra. }
    set (m := (max_ (interval st) (inject_Z (backoff_base cfg)) * backoff_factor cfg)%Q)
      in *.
    set (hi := inject_Z (poll_max_seconds cfg)). clearbody m hi.
    destruct (min_spec m hi) as [[L ->]|[L ->]]; [right; reflexivity | left; exact Hm].
Qed.

Lemma failed_cycle_backs_off_witness :
  Qeq (interval (_update_host_state default_settings idle_host [Some 429] 0 0 1)) 120
  /\ Qeq (next_due (_update_host_state default_settings idle_host [Some 429] 0 0 1))
         121.
Proof.
  assert (Hf : failed [Some 429]) by (repeat split).
  assert (H0 : (0 <= backoff_factor default_settings)%Q) by (vm_compute; discriminate).
  destruct (failed_cycle_backs_off default_settings idle_host [Some 429] 0 0 1 Hf H0)
    as (Ei & _ & _ & En & _).
  rewrite En, Ei. split; vm_compute; reflexivity.
Defined.




(** X17: a cycle in which every feed answered with a status that is
    none of 200, 304, 403, 429 and is below 500 (a 404, say) counts as a
    failure but leaves the interval as it was: the host is polled again
    after the same interval. *)
Theorem client_error_keeps_interval cfg st status_codes n now jitter :
  Forall (fun code => exists c, code = Some c /\ c <> 200 /\ c <> 304 /\ c <> 403
                                /\ c <> 429 /\ c < 500) status_codes ->
  let st' := _update_host_state cfg st status_codes n now jitter in
  interval st' = interval st
  /\ next_due st' = (now + interval st + jitter)%Q
  /\ consecutive_fail st' = consecutive_fail st + 1
  /\ backoff_logged st' = backoff_logged st.
Proof.
  intros Hall.
  assert (Hc : forall c, c = 200 \/ c = 304 \/ c = 403 \/ c = 429 ->
                         has_code c status_codes = false).
  { intros c Hc. unfold has_code. induction Hall as [|code l (x & -> & H) _ IH];
      [reflexivity|]. simpl. rewrite IH, orb_false_r. apply Z.eqb_neq. lia. }
  assert (Hs : has_server_error status_codes = false).
  { clear Hc. unfold has_server_error.
    induction Hall as [|code l (x & -> & H) _ IH]; [reflexivity|].
    simpl. rewrite IH, orb_false_r.
    destruct (Z.leb_spec 500 x); [lia|]. apply andb_false_r. }
  assert (Hn : has_client_error status_codes = false).
  { clear Hc Hs. unfold has_client_error.
    induction Hall as [|code l (x & -> & H) _ IH]; [reflexivity|].
    simpl. exact IH. }
  intros st'. subst st'. unfold _update_host_state. cbv zeta.
  rewrite !Hc, Hs, Hn by tauto. simpl. repeat split.
Qed.

Lemma client_error_keeps_interval_witness :
  interval (_update_host_state default_settings idle_host [Some 404] 0 0 1)
  = interval idle_host.
Proof.
  refine (proj1 (client_error_keeps_interval default_settings idle_host [Some 404]
                   0 0 1 _)).
  constructor; [|constructor]. exists 404. repeat split; lia.
Defined.

(** *** Due hosts *)

Lemma update_next_due cfg st status_codes n now jitter :
  next_due (_update_host_state cfg st status_codes n now jitter)
  = (now + interval (_update_host_state cfg st status_codes n now jitter) + jitter)%Q.
Proof.
  unfold _update_host_state. cbv zeta.
  destruct (has_code 200 status_codes && (0 <? n)); [reflexivity|].
  destruct (has_code 304 status_codes || has_code 200 status_codes && (n =? 0));
    [reflexivity|].
  destruct (has_code 429 status_codes || has_code 403 status_codes
            || has_server_error status_codes || has_client_error status_codes);
    reflexivity.
Qed.

(** X18: after a cycle handled at [now] with a jitter that is not
    negative, the host is not among the due hosts of any tick made before
    [now] plus its new interval; with settings that make sense and an
    interval in range, no tick made within [poll_min_seconds] of the cycle
    polls it. *)
Theorem host_rests_for_its_interval cfg host st status_codes n now jitter tick_time :
  (0 <= jitter)%Q ->
  let st' := _update_host_state cfg st status_codes n now jitter in
  ((tick_time < now + interval st')%Q -> due_hosts [(host, st')] tick_time = [])
  /\ (sane cfg -> in_range cfg st ->
      (tick_time < now + inject_Z (poll_min_seconds cfg))%Q ->
      due_hosts [(host, st')] tick_time = []).
Proof.
  intros Hj st'.
  assert (Hdue : next_due st' = (now + interval st' + jitter)%Q)
    by apply update_next_due.
  assert (Hrest : (tick_time < now + interval st')%Q -> due_hosts [(host, st')] tick_time = []).
  { intros Ht. unfold due_hosts. simpl. rewrite Hdue.
    destruct (Qle_bool (now + interval st' + jitter) tick_time) eqn:E; [|reflexivity].
    apply Qle_bool_iff in E. exfalso. lra. }
  split; [exact Hrest|].
  intros Hs Hr Ht. apply Hrest.
  assert (Hr' : in_range cfg st').
  { exact (after_in_range cfg st (mkCycle status_codes n now jitter) Hs Hr). }
  destruct Hr' as [Hlo _]. lra.
Qed.

Lemma host_rests_for_its_interval_witness :
  due_hosts [("feeds.example.com",
              _update_host_state default_settings idle_host [Some 200] 2 100 1)]
            (100 + 29)
  = [].
Proof.
  assert (Hj : (0 <= 1)%Q) by (vm_compute; discriminate).
  assert (Hr : in_range default_settings idle_host).
  { split; vm_compute; discriminate. }
  assert (Ht : (100 + 29 < 100 + inject_Z (poll_min_seconds default_settings))%Q)
    by reflexivity.
  exact (proj2 (host_rests_for_its_interval default_settings "feeds.example.com"
                  idle_host [Some 200] 2 100 1 (100 + 29) Hj)
               defaults_sane Hr Ht).
Defined.

(** *** Retry-After *)

(** X19: a 429 whose Retry-After header holds a number of seconds that
    is not negative is honoured up to the ceiling: for a host with that
    one feed, the interval the cycle leaves is at least the smaller of the
    header and [poll_max_seconds], never above [poll_max_seconds], and the
    next poll is not due before that much time has passed. *)
Theorem retry_after_is_honoured int_of_str cfg st etag_header last_modified_header
    header seconds parsed_items now jitter :
  header <> "" ->
  int_of_str header = Some seconds ->
  0 <= seconds ->
  (1 <= backoff_factor cfg)%Q ->
  (0 <= jitter)%Q ->
  let fetched :=
    _fetch_feed int_of_str st
      (Response 429 etag_header last_modified_header (Some header) parsed_items) in
  let st' :=
    _update_host_state cfg (snd fetched) [fst (fst fetched)] (snd (fst fetched))
                       now jitter in
  fst fetched = (Some 429, 0)
  /\ (min_ (inject_Z seconds) (inject_Z (poll_max_seconds cfg)) <= interval st')%Q
  /\ (interval st' <= inject_Z (poll_max_seconds cfg))%Q
  /\ (now + min_ (inject_Z seconds) (inject_Z (poll_max_seconds cfg))
      <= next_due st')%Q.
Proof.
  intros Hne Hint Hpos Hf Hj fetched st'.
  assert (Ef : fetched
               = ((Some 429, 0),
                  with_interval st (max_ (inject_Z seconds) (interval st)))).
  { subst fetched. unfold _fetch_feed. cbn [Z.eqb Pos.eqb].
    apply String.eqb_neq in Hne. rewrite Hne, Hint. reflexivity. }
  assert (Ei : interval st'
               = min_ (max_ (max_ (inject_Z seconds) (interval st))
                            (inject_Z (backoff_base cfg)) * backoff_factor cfg)%Q
                      (inject_Z (poll_max_seconds cfg))).
  { subst st'. rewrite Ef. reflexivity. }
  assert (En : next_due st' = (now + interval st' + jitter)%Q)
    by apply update_next_due.
  split; [rewrite Ef; reflexivity|].
  assert (Hs : (0 <= inject_Z seconds)%Q).
  { change 0%Q with (inject_Z 0). rewrite <- Zle_Qle. exact Hpos. }
  rewrite En, Ei.
  set (r := inject_Z seconds) in *.
  set (hi := inject_Z (poll_max_seconds cfg)) in *.
  set (base := inject_Z (backoff_base cfg)) in *.
  set (f := backoff_factor cfg) in *.
  set (i := interval st) in *. clearbody r hi base f i. clear Ef Ei En.
  assert (Hm : (r <= max_ (max_ r i) base)%Q).
  { destruct (max_spec r i) as [[L1 ->]|[L1 ->]];
      destruct (max_spec i base) as [[L2 E2]|[L2 E2]];
      destruct (max_spec r base) as [[L3 E3]|[L3 E3]];
      rewrite ?E2, ?E3; lra. }
  set (m := max_ (max_ r i) base) in *. clearbody m.
  assert (Hp : (m <= m * f)%Q).
  { assert (0 <= m * (f - 1))%Q by (apply Qmult_le_0_compat; lra). lra. }
  set (mf := (m * f)%Q) in *. clearbody mf.
  destruct (min_spec mf hi) as [[L ->]|[L ->]];
    destruct (min_spec r hi) as [[L' ->]|[L' ->]];
    (split; [|split]); lra.
Qed.

(** [int] on a string of decimal digits. *)
Definition decimal (s : string) : option Z :=
  Schemas.number (list_ascii_of_string s) 0.

Lemma retry_after_is_honoured_witness :
  (min_ (inject_Z 300) (inject_Z (poll_max_seconds default_settings))
   <= interval
        (_update_host_state default_settings
           (snd (_fetch_feed decimal idle_host (Response 429 None None (Some "300") 0)))
           [fst (fst (_fetch_feed decimal idle_host
                        (Response 429 None None (Some "300") 0)))]
           (snd (fst (_fetch_feed decimal idle_host
                        (Response 429 None None (Some "300") 0))))
           0 1))%Q.
Proof.
  assert (Hne : "300" <> "") by discriminate.
  assert (Hint : decimal "300" = Some 300) by reflexivity.
  assert (Hpos : 0 <= 300) by lia.
  assert (Hf : (1 <= backoff_factor default_settings)%Q) by (vm_compute; discriminate).
  assert (Hj : (0 <= 1)%Q) by (vm_compute; discriminate).
  exact (proj1 (proj2 (retry_after_is_honoured decimal default_settings idle_host
                         None None "300" 300 0 0 1 Hne Hint Hpos Hf Hj))).
Defined.

End IngestProps.

Module FeedProps.
Import Ingest IdentityProps.

(** *** The deduplication loop of [_parse_feed_content] *)






(** *** The snapshot *)

(** X21: the snapshot [_save_items] writes holds at most 1000 items and
    counts them in [total_items]; as long as no more than 1000 items are
    new they come first, in feed order, followed by the items the file
    held, oldest dropped. *)
Theorem save_keeps_newest_thousand new_items file now_iso :
  let saved := _save_items new_items file now_iso in
  (List.length (items saved) <= 1000)%nat
  /\ total_items saved = Z.of_nat (List.length (items saved))
  /\ last_updated saved = Some now_iso
  /\ ((List.length new_items <= 1000)%nat ->
      items saved
      = List.map asdict new_items
        ++ List.firstn (1000 - List.length new_items)
                       (items (default (mkFeedData [] None 0) file))).
Proof.
  intros saved. subst saved. unfold _save_items. cbn [items total_items last_updated].
  split; [rewrite List.length_firstn; lia|]. split; [reflexivity|].
  split; [reflexivity|]. intros Hlen.
  rewrite List.firstn_app, List.length_map.
  rewrite List.firstn_all2 by (rewrite List.length_map; lia). reflexivity.
Qed.

(** *** What the hub finds in the snapshot *)

Import Bus BusProps Hub HubProps.

(** X22: every item the scheduler constructs and saves suits the hub:
    its dictionary carries a non-empty hashable id, so the merged view
    does not drop it, and a string as published date, so the sort of the
    view does not fail on it; the legacy conversion of the hub gives it
    its category as topic. *)
Theorem saved_items_suit_the_hub (entry : Worker.RawItem) :
  let item := asdict (Worker.__post_init__ entry) in
  item_key item = Some (KStr (Worker.id (Worker.__post_init__ entry)))
  /\ Worker.id (Worker.__post_init__ entry) <> ""
  /\ usable_id item
  /\ string_published item
  /\ get (legacy_topic item) "topic" = opt_str (Worker.category entry)
  /\ item_key (legacy_topic item) = item_key item.
Proof.
  intros item.
  assert (Hid : Worker.id (Worker.__post_init__ entry) <> "").
  { unfold Worker.__post_init__.
    destruct (String.eqb_spec (Worker.id entry) "") as [E|N]; [|exact N].
    simpl. apply shaped_nonempty, sha256_16_shaped. }
  assert (Hcat : Worker.category (Worker.__post_init__ entry) = Worker.category entry).
  { unfold Worker.__post_init__. destruct (String.eqb (Worker.id entry) ""); reflexivity. }
  assert (Hkey : item_key item = Some (KStr (Worker.id (Worker.__post_init__ entry)))).
  { subst item. unfold item_key, asdict. cbn [lookup String.eqb Ascii.eqb Bool.eqb].
    rewrite (truthy_str _ Hid). reflexivity. }
  split; [exact Hkey|]. split; [exact Hid|].
  split; [intros _; eexists; reflexivity|].
  split; [eexists; reflexivity|].
  split; [|apply legacy_topic_id].
  subst item. unfold legacy_topic, asdict, has_key, get.
  cbn [lookup String.eqb Ascii.eqb Bool.eqb andb negb set].
  rewrite Hcat. reflexivity.
Qed.

(** *** Concrete polls *)

Definition entry_a : Worker.RawItem :=
  Worker.__post_init__
    (Worker.mkRawItem "" "A" "http://x/1" "2024-01-01T00:00:30+00:00" "feed"
                      "publisher" None (Some "markets")).
Definition entry_b : Worker.RawItem :=
  Worker.__post_init__
    (Worker.mkRawItem "" "B" "http://x/2" "2024-01-01T00:01:30+00:00" "feed"
                      "publisher" None None).

Definition first_poll : Z * (gset string * option FeedData) :=
  _parse_feed_content 20 ∅ None [Ok entry_a; Raise ValueError; Ok entry_b; Ok entry_a]
                      "2024-01-01T00:02:00+00:00".

Example first_poll_count : fst first_poll = 2.
Proof. vm_compute. reflexivity. Qed.


End FeedProps.

Module VendorProps.
Import Mappers Webhook.

(** *** Header names *)

(** Header names as the framework hands them over: in lower case. *)
Definition lower_case_names (headers : strdict) : Prop :=
  List.Forall (fun kv => lower (fst kv) = fst kv) headers.

Lemma str_lookup_capital k headers :
  lower_case_names headers -> lower k <> k -> str_lookup k headers = None.
Proof.
  intros Hall Hk. induction Hall as [|[k' v] rest Hlow _ IH]; [reflexivity|].
  simpl. destruct (String.eqb_spec k k') as [->|_]; [|exact IH].
  simpl in Hlow. contradiction.
Qed.

Lemma str_get_capital k headers :
  lower_case_names headers -> lower k <> k -> str_get headers k "" = "".
Proof.
  intros Hall Hk. unfold str_get. rewrite (str_lookup_capital k headers Hall Hk).
  reflexivity.
Qed.

(** X23: with header names in lower case, as the headers of a request
    come, no header is found under the capitalised names the webhook code
    looks up: [extract_vendor_from_headers] answers "unknown", the vendor
    of every task is the X-Vendor parameter of the request or "unknown",
    and the vendor hint of the mapper comes from the payload alone. *)
Theorem lower_case_headers_hide_vendor hdrs :
  lower_case_names hdrs ->
  extract_vendor_from_headers hdrs = "unknown"
  /\ (forall payload, webhook_vendor payload hdrs = webhook_vendor payload [])
  /\ (forall secret req t,
        headers req = hdrs ->
        In t (snd (receive_webhook secret req)) ->
        task_vendor t = or_str (x_vendor req) "unknown").
Proof.
  intros Hall.
  assert (Hx : str_get hdrs "X-Vendor" "" = "")
    by (apply str_get_capital; [exact Hall | discriminate]).
  assert (Hs : str_get hdrs "X-Source" "" = "")
    by (apply str_get_capital; [exact Hall | discriminate]).
  assert (Hu : str_get hdrs "User-Agent" "" = "")
    by (apply str_get_capital; [exact Hall | discriminate]).
  assert (Hg : str_get hdrs "X-GitHub-Event" "" = "")
    by (apply str_get_capital; [exact Hall | discriminate]).
  assert (Hk : str_get hdrs "X-Slack-Signature" "" = "")
    by (apply str_get_capital; [exact Hall | discriminate]).
  assert (He : extract_vendor_from_headers hdrs = "unknown").
  { unfold extract_vendor_from_headers, vendor_headers, first_vendor.
    rewrite Hx, Hs, Hu, Hg, Hk. reflexivity. }
  split; [exact He|]. split.
  - intros payload. unfold webhook_vendor. rewrite Hx, Hu. reflexivity.
  - intros secret req t Hh Hin. unfold receive_webhook in Hin. rewrite Hh, He in Hin.
    destruct (negb (String.eqb secret "") && String.eqb (signature_of req) "");
      [destruct Hin|].
    destruct (negb (String.eqb secret "")
              && negb (validate_signature (body req) (signature_of req) secret));
      [destruct Hin|].
    destruct (json req) as [payload|]; [|destruct Hin].
    destruct Hin as [<-|[]]. reflexivity.
Qed.

Definition curl_headers : strdict :=
  [("x-vendor", "reuters"); ("user-agent", "curl/8.5.0");
   ("content-type", "application/json")].

Lemma lower_case_headers_hide_vendor_witness :
  extract_vendor_from_headers curl_headers = "unknown".
Proof.
  refine (proj1 (lower_case_headers_hide_vendor curl_headers _)).
  repeat constructor.
Defined.

(** *** When the webhook mapper raises *)

(** The payload names its vendor with a string. *)
Definition names_vendor (payload : pyval) : Prop :=
  exists d, payload = VDict d
    /\ ((truthy (get_default d "vendor" (VStr "")) = true
         /\ exists s, get_default d "vendor" (VStr "") = VStr s)
        \/ (truthy (get_default d "vendor" (VStr "")) = false
            /\ exists s, get_default d "source" (VStr "unknown") = VStr s)).

Lemma obj_lower_ok v : (exists s, obj_lower v = Ok s) <-> exists s, v = VStr s.
Proof.
  split.
  - intros [s H]. destruct v; try discriminate. eauto.
  - intros [s ->]. simpl. eauto.
Qed.

Lemma webhook_vendor_ok payload headers :
  (exists vendor, webhook_vendor payload headers = Ok vendor)
  <-> str_get headers "X-Vendor" "" <> ""
      \/ str_get headers "User-Agent" "" <> ""
      \/ names_vendor payload.
Proof.
  unfold webhook_vendor.
  destruct (String.eqb_spec (str_get headers "X-Vendor" "") "") as [Ex|Nx]; simpl.
  2:{ split; [auto | eauto]. }
  destruct (String.eqb_spec (str_get headers "User-Agent" "") "") as [Eu|Nu]; simpl.
  2:{ split; [auto | eauto]. }
  unfold names_vendor. destruct payload as [| | | | |d]; simpl;
    try (split; [intros [? [=]] | intros [?|[?|(d & [=] & _)]]; contradiction]).
  destruct (truthy (get_default d "vendor" (VStr ""))) eqn:Ht.
  - rewrite obj_lower_ok. split.
    + intros Hs. right. right. exists d. split; [reflexivity|]. left. auto.
    + intros [?|[?|(d' & [= <-] & [[_ Hs]|[Hf _]])]]; try contradiction; [exact Hs|].
      congruence.
  - rewrite obj_lower_ok. split.
    + intros Hs. right. right. exists d. split; [reflexivity|]. right. auto.
    + intros [?|[?|(d' & [= <-] & [[Hf _]|[_ Hs]])]]; try contradiction; [|exact Hs].
      congruence.
Qed.

Section EntryPoint.

Variables wh_reuters wh_bloomberg wh_cnbc wh_yahoo wh_generic
  : pyval -> strdict -> result Schemas.RawItem.

Let map_webhook :=
  map_webhook_payload_to_raw wh_reuters wh_bloomberg wh_cnbc wh_yahoo wh_generic.

Lemma map_webhook_outcome payload headers :
  match webhook_vendor payload headers with
  | Ok _ => exists r, map_webhook payload headers = Ok r
  | Raise _ => map_webhook payload headers = Raise UnboundLocalError
  end.
Proof.
  unfold map_webhook, map_webhook_payload_to_raw.
  destruct (webhook_vendor payload headers) as [vendor|e]; simpl; [|reflexivity].
  destruct (if contains "reuters" vendor then _ else _); simpl; eauto.
Qed.

(** X24: [map_webhook_payload_to_raw] returns, an item or none, exactly
    when a vendor hint can be computed: when the X-Vendor or User-Agent
    header it finds is not empty, or the payload is a dictionary that
    names its vendor (or source) with a string.  In every other case it
    raises [UnboundLocalError], whatever the vendor mappers do. *)
Theorem webhook_mapper_returns_iff payload headers :
  ((exists r, map_webhook payload headers = Ok r)
   <-> str_get headers "X-Vendor" "" <> ""
       \/ str_get headers "User-Agent" "" <> ""
       \/ names_vendor payload)
  /\ ((exists r, map_webhook payload headers = Ok r)
      \/ map_webhook payload headers = Raise UnboundLocalError).
Proof.
  pose proof (map_webhook_outcome payload headers) as Ho.
  pose proof (webhook_vendor_ok payload headers) as Hv.
  destruct (webhook_vendor payload headers) as [vendor|e].
  - split; [|left; exact Ho]. split; [intros _; apply Hv; eauto | intros _; exact Ho].
  - split; [|right; exact Ho]. split.
    + intros [r Hr]. rewrite Ho in Hr. discriminate.
    + intros H. apply Hv in H as [vendor [=]].
Qed.

End EntryPoint.

End VendorProps.

Module WebhookAppProps.
Import Webhook WebhookApp Bus BusProps RecentProps.

(** *** The counters of the receiver *)

Lemma record_error_counters s error_type vendor :
  total_requests (record_error s error_type vendor) = total_requests s
  /\ valid_requests (record_error s error_type vendor) = valid_requests s
  /\ published_items (record_error s error_type vendor) = published_items s
  /\ duplicate_items (record_error s error_type vendor) = duplicate_items s
  /\ (error_type <> "rate_limited" ->
      rate_limited (record_error s error_type vendor) = rate_limited s)
  /\ (error_type = "invalid_signature" ->
      invalid_signatures (record_error s error_type vendor) = invalid_signatures s + 1
      /\ mapping_errors (record_error s error_type vendor) = mapping_errors s)
  /\ (error_type = "mapping_error" ->
      invalid_signatures (record_error s error_type vendor) = invalid_signatures s
      /\ mapping_errors (record_error s error_type vendor) = mapping_errors s + 1).
Proof.
  unfold record_error.
  destruct (String.eqb_spec error_type "invalid_signature") as [->|N1].
  { destruct (vendor_stats _ !! vendor); simpl;
      repeat split; try reflexivity; intros; discriminate. }
  destruct (String.eqb_spec error_type "mapping_error") as [->|N2].
  { destruct (vendor_stats _ !! vendor); simpl;
      repeat split; try reflexivity; intros; discriminate. }
  destruct (String.eqb_spec error_type "rate_limited") as [->|N3].
  { destruct (vendor_stats _ !! vendor); simpl;
      repeat split; try reflexivity; intros; try discriminate; contradiction. }
  destruct (vendor_stats s !! vendor); simpl;
    repeat split; try reflexivity; intros; contradiction.
Qed.

(** [receive_webhook] answers as its statistics-free reading does (in
    particular the vendor entry it indexes is always there, so no request
    ends in a 500), counts every request once in [total_requests] and once
    in exactly one of [valid_requests] (when accepted),
    [invalid_signatures] (401) and [mapping_errors] (400), and leaves the
    other counters alone. *)
Lemma receive_counts_each_request secret stats req :
  let r := WebhookApp.receive_webhook secret stats req in
  fst r = Webhook.receive_webhook secret req
  /\ total_requests (snd r) = total_requests stats + 1
  /\ match fst (fst r) with
     | Accepted =>
         valid_requests (snd r) = valid_requests stats + 1
         /\ invalid_signatures (snd r) = invalid_signatures stats
         /\ mapping_errors (snd r) = mapping_errors stats
     | HTTPException code _ =>
         valid_requests (snd r) = valid_requests stats
         /\ invalid_signatures (snd r)
            = invalid_signatures stats + (if code =? 401 then 1 else 0)
         /\ mapping_errors (snd r)
            = mapping_errors stats + (if code =? 400 then 1 else 0)
     end
  /\ published_items (snd r) = published_items stats
  /\ duplicate_items (snd r) = duplicate_items stats
  /\ rate_limited (snd r) = rate_limited stats.
Proof.
  intros r. subst r. unfold WebhookApp.receive_webhook, Webhook.receive_webhook.
  set (vendor := or_str (x_vendor req) (extract_vendor_from_headers (headers req))).
  set (s1 := record_request stats vendor).
  assert (H1 : total_requests s1 = total_requests stats + 1
               /\ valid_requests s1 = valid_requests stats
               /\ invalid_signatures s1 = invalid_signatures stats
               /\ mapping_errors s1 = mapping_errors stats
               /\ published_items s1 = published_items stats
               /\ duplicate_items s1 = duplicate_items stats
               /\ rate_limited s1 = rate_limited stats
               /\ exists entry, vendor_stats s1 !! vendor = Some entry).
  { subst s1. unfold record_request. simpl. repeat split.
    rewrite lookup_insert_eq. eauto. }
  destruct H1 as (T & V & I & M & P & D & R & entry & He).
  destruct (negb (String.eqb secret "") && String.eqb (signature_of req) "").
  { destruct (record_error_counters s1 "invalid_signature" vendor)
      as (T' & V' & P' & D' & R' & I' & _).
    destruct (I' eq_refl) as [Ii Im]. cbn [fst snd Z.eqb Pos.eqb].
    rewrite T', V', P', D', R', Ii, Im by discriminate.
    repeat split; lia. }
  destruct (negb (String.eqb secret "")
            && negb (validate_signature (body req) (signature_of req) secret)).
  { destruct (record_error_counters s1 "invalid_signature" vendor)
      as (T' & V' & P' & D' & R' & I' & _).
    destruct (I' eq_refl) as [Ii Im]. cbn [fst snd Z.eqb Pos.eqb].
    rewrite T', V', P', D', R', Ii, Im by discriminate.
    repeat split; lia. }
  destruct (json req) as [payload|].
  - unfold record_valid. cbn [vendor_stats]. rewrite He. cbn [fst snd].
    simpl. repeat split; lia.
  - destruct (record_error_counters s1 "mapping_error" vendor)
      as (T' & V' & P' & D' & R' & _ & M').
    destruct (M' eq_refl) as [Mi Mm]. cbn [fst snd Z.eqb Pos.eqb].
    rewrite T', V', P', D', R', Mi, Mm by discriminate.
    repeat split; lia.
Qed.

End WebhookAppProps.

Module TaskProps.
Import Webhook WebhookApp Bus BusProps RecentProps PublishProps WebhookAppProps.

Section Tasks.

Variables wh_reuters wh_bloomberg wh_cnbc wh_yahoo wh_generic
  : pyval -> strdict -> result Schemas.RawItem.
Variable date_parse : string -> option Schemas.datetime.

Let map_webhook :=
  Mappers.map_webhook_payload_to_raw wh_reuters wh_bloomberg wh_cnbc wh_yahoo
                                     wh_generic.
Let process :=
  process_webhook_payload wh_reuters wh_bloomberg wh_cnbc wh_yahoo wh_generic
                          date_parse.
Let test :=
  test_webhook wh_reuters wh_bloomberg wh_cnbc wh_yahoo wh_generic date_parse.

Definition outcomes (s : WebhookStats) : Z :=
  mapping_errors s + published_items s + duplicate_items s.

Definition untouched_by_task (s s' : WebhookStats) : Prop :=
  total_requests s' = total_requests s
  /\ valid_requests s' = valid_requests s
  /\ invalid_signatures s' = invalid_signatures s
  /\ rate_limited s' = rate_limited s.

Lemma mapping_error_recorded s vendor :
  outcomes (record_error s "mapping_error" vendor) = outcomes s + 1
  /\ mapping_errors (record_error s "mapping_error" vendor) = mapping_errors s + 1
  /\ untouched_by_task s (record_error s "mapping_error" vendor).
Proof.
  destruct (record_error_counters s "mapping_error" vendor)
    as (T & V & P & D & R & _ & M).
  destruct (M eq_refl) as [Mi Mm]. unfold outcomes, untouched_by_task.
  rewrite T, V, P, D, R, Mi, Mm by discriminate. repeat split; lia.
Qed.

Lemma process_outcome stats b payload headers vendor clk :
  let r := process (stats, b) payload headers vendor clk in
  outcomes (fst (snd r)) = outcomes stats + 1
  /\ (fst r = None <-> mapping_errors (fst (snd r)) = mapping_errors stats + 1)
  /\ (fst r = None -> channels (snd (snd r)) = channels b)
  /\ untouched_by_task stats (fst (snd r)).
Proof.
  intros r. subst r. unfold process, process_webhook_payload.
  destruct (mapping_error_recorded stats vendor) as (Ho & Hm & Hu).
  destruct (Mappers.map_webhook_payload_to_raw _ _ _ _ _ payload headers)
    as [[raw_item|]|e]; cbn [fst snd];
    try (split; [exact Ho|]; split; [tauto|]; split; [reflexivity | exact Hu]).
  destruct (Schemas.validate_raw_item date_parse (Schemas.to_dict raw_item));
    cbn [negb fst snd];
    try (split; [exact Ho|]; split; [tauto|]; split; [reflexivity | exact Hu]).
  pose proof (xadd_json_channels date_parse b "news.raw" (Schemas.to_dict raw_item)
                ("webhook:" +:+ vendor) clk) as Hc.
  destruct (xadd_json date_parse b "news.raw" (Schemas.to_dict raw_item)
                      ("webhook:" +:+ vendor) clk) as [[[|]|e] b'];
    cbn [fst snd].
  - unfold outcomes, untouched_by_task. simpl.
    split; [lia|]. split; [split; [discriminate | lia]|].
    split; [discriminate | repeat split].
  - unfold outcomes, untouched_by_task. simpl.
    split; [lia|]. split; [split; [discriminate | lia]|].
    split; [discriminate | repeat split].
  - split; [exact Ho|]. split; [tauto|]. split; [|exact Hu].
    intros _. destruct (Hc _ _ eq_refl) as [[[=] _]|[_ E]]. exact E.
Qed.

(** X25: a processed payload is counted once, in exactly one of
    [mapping_errors], [published_items] and [duplicate_items]: as a
    mapping error exactly when nothing is returned, and then no history
    has changed; the request counters and [rate_limited] are left alone,
    so a publish the limiter refused is counted as a duplicate. *)
Theorem process_counts_one_outcome stats b payload headers vendor clk :
  let r := process (stats, b) payload headers vendor clk in
  outcomes (fst (snd r)) = outcomes stats + 1
  /\ (fst r = None <-> mapping_errors (fst (snd r)) = mapping_errors stats + 1)
  /\ (fst r = None -> channels (snd (snd r)) = channels b)
  /\ untouched_by_task stats (fst (snd r)).
Proof. apply process_outcome. Qed.

(** X26: on a well-formed bus, a payload the mapper turned into an item
    whose dictionary passes validation is returned, whether the bus then
    accepted it or refused it as a duplicate or for the rate limit; the
    bus is left as [xadd_json] on the raw-news channel, under the source
    "webhook:" followed by the vendor, left it. *)
Theorem mapped_item_is_returned stats b payload headers vendor clk raw_item :
  wf b ->
  map_webhook payload headers = Ok (Some raw_item) ->
  Schemas.validate_raw_item date_parse (Schemas.to_dict raw_item) = true ->
  let r := process (stats, b) payload headers vendor clk in
  let sent := xadd_json date_parse b "news.raw" (Schemas.to_dict raw_item)
                        ("webhook:" +:+ vendor) clk in
  fst r = Some raw_item
  /\ snd (snd r) = snd sent
  /\ (fst sent = Ok true -> fst (snd r) = record_published stats)
  /\ (fst sent = Ok false -> fst (snd r) = record_duplicate stats).
Proof.
  intros Hwf Hmap Hval r sent. subst r sent.
  unfold process, process_webhook_payload. fold map_webhook. rewrite Hmap, Hval.
  cbn [negb].
  destruct (publish_item_returns date_parse b raw_item ("webhook:" +:+ vendor) clk Hwf)
    as [res Hres].
  destruct (xadd_json date_parse b "news.raw" (Schemas.to_dict raw_item)
                      ("webhook:" +:+ vendor) clk) as [[[|]|e] b'];
    cbn [fst snd] in *; try discriminate;
    (split; [reflexivity|]; split; [reflexivity|]; split; intros; try reflexivity;
     discriminate).
Qed.

(** X27: [test_webhook] answers 403 and touches nothing when a secret is
    configured.  Without a secret it never fails on the vendor hint, its
    X-Vendor header being never empty, and on a well-formed bus it
    answers success exactly when the payload was mapped to an item whose
    dictionary passes validation, published or not. *)
Theorem test_endpoint_gate secret stats b payload x_vendor clk :
  (secret <> "" ->
   test secret (stats, b) payload x_vendor clk
   = (TestHTTPException 403 "Test endpoint disabled when webhook secret is configured",
      (stats, b)))
  /\ (secret = "" ->
      let vendor := or_str x_vendor "test" in
      (exists mapped, map_webhook (VDict payload) [("X-Vendor", vendor)] = Ok mapped)
      /\ (wf b ->
          forall item_id,
            fst (test secret (stats, b) payload x_vendor clk) = TestSuccess item_id
            <-> exists raw_item,
                  map_webhook (VDict payload) [("X-Vendor", vendor)] = Ok (Some raw_item)
                  /\ Schemas.validate_raw_item date_parse (Schemas.to_dict raw_item)
                     = true
                  /\ item_id = Schemas.id raw_item)).
Proof.
  split.
  - intros Hs. unfold test, test_webhook. apply String.eqb_neq in Hs. rewrite Hs.
    reflexivity.
  - intros -> vendor.
    assert (Hv : vendor <> "").
    { subst vendor. unfold or_str. destruct x_vendor as [v|]; [|discriminate].
      destruct (String.eqb_spec v ""); [discriminate | assumption]. }
    assert (Hvend : (if String.eqb (match x_vendor with Some v => v | None => "test" end) ""
                     then "test" else match x_vendor with Some v => v | None => "test" end)
                    = vendor).
    { subst vendor. unfold or_str. destruct x_vendor as [v|]; reflexivity. }
    assert (Hmap : exists mapped,
               map_webhook (VDict payload) [("X-Vendor", vendor)] = Ok mapped).
    { pose proof (VendorProps.map_webhook_outcome wh_reuters wh_bloomberg wh_cnbc
                    wh_yahoo wh_generic (VDict payload) [("X-Vendor", vendor)]) as Ho.
      destruct (proj2 (VendorProps.webhook_vendor_ok (VDict payload)
                         [("X-Vendor", vendor)])) as [hint Hh].
      { left. unfold str_get. simpl. exact Hv. }
      rewrite Hh in Ho. exact Ho. }
    split; [exact Hmap|]. intros Hwf item_id.
    unfold test, test_webhook. cbn [String.eqb negb]. cbv zeta. rewrite Hvend.
    unfold process_webhook_payload. fold map_webhook.
    destruct Hmap as [mapped Hmap]. rewrite Hmap.
    destruct mapped as [raw_item|]; cbn [fst snd].
    2:{ split; [discriminate | intros (it & [=] & _)]. }
    destruct (Schemas.validate_raw_item date_parse (Schemas.to_dict raw_item)) eqn:Hval;
      cbn [negb fst snd].
    2:{ split; [discriminate|]. intros (it & [= <-] & Hv' & _). congruence. }
    destruct (publish_item_returns date_parse b raw_item ("webhook:" +:+ vendor) clk Hwf)
      as [res Hres].
    destruct (xadd_json date_parse b "news.raw" (Schemas.to_dict raw_item)
                        ("webhook:" +:+ vendor) clk) as [[[|]|e] b'];
      cbn [fst snd] in *; try discriminate.
    + split; [intros [= <-]; eauto | intros (it & [= <-] & _ & ->); reflexivity].
    + split; [intros [= <-]; eauto | intros (it & [= <-] & _ & ->); reflexivity].
Qed.

(** *** The counters over a run *)

(** What reaches the webhook application: a request on the receiver, a
    background task the scheduler runs, a request on the test endpoint. *)
Inductive event : Type :=
| Request (secret : string) (req : request)
| Task (payload : pyval) (headers : strdict) (vendor : string) (clk : readings)
| TestRequest (secret : string) (payload : dict) (x_vendor : option string)
              (clk : readings).

Definition handle (st : WebhookStats * EventBus) (e : event)
  : WebhookStats * EventBus :=
  match e with
  | Request secret req => (snd (WebhookApp.receive_webhook secret (fst st) req), snd st)
  | Task payload headers vendor clk => snd (process st payload headers vendor clk)
  | TestRequest secret payload x_vendor clk =>
      snd (test secret st payload x_vendor clk)
  end.

Definition is_request (e : event) : bool :=
  match e with Request _ _ => true | _ => false end.

Definition consistent (requests : Z) (s : WebhookStats) : Prop :=
  total_requests s = requests
  /\ valid_requests s + invalid_signatures s <= total_requests s
  /\ 0 <= valid_requests s /\ 0 <= invalid_signatures s
  /\ rate_limited s = 0.

Lemma task_keeps_consistent n st payload headers vendor clk :
  consistent n (fst st) ->
  consistent n (fst (snd (process st payload headers vendor clk))).
Proof.
  destruct st as [stats b]. intros (T & L & V & I & R).
  destruct (process_outcome stats b payload headers vendor clk)
    as (_ & _ & _ & T' & V' & I' & R').
  cbv zeta in T', V', I', R'. unfold consistent. cbn [fst] in *.
  rewrite T', V', I', R'. repeat split; lia.
Qed.

Lemma handle_consistent n st e :
  consistent n (fst st) ->
  consistent (n + (if is_request e then 1 else 0)) (fst (handle st e)).
Proof.
  intros Hc. destruct e as [secret req|payload headers vendor clk|secret payload xv clk];
    cbn [handle is_request fst snd].
  - destruct Hc as (T & L & V & I & R).
    destruct (receive_counts_each_request secret (fst st) req)
      as (_ & T' & Hcase & _ & _ & R'). cbv zeta in T', Hcase, R'.
    unfold consistent. rewrite T', R'.
    destruct (fst (fst (WebhookApp.receive_webhook secret (fst st) req)))
      as [|code detail].
    + destruct Hcase as (V' & I' & _). rewrite V', I'. repeat split; lia.
    + destruct Hcase as (V' & I' & _). rewrite V', I'.
      destruct (code =? 401); repeat split; lia.
  - rewrite Z.add_0_r. apply task_keeps_consistent, Hc.
  - rewrite Z.add_0_r. unfold test, test_webhook.
    destruct (negb (String.eqb secret "")); [exact Hc|]. cbv zeta.
    match goal with
    | |- context [process_webhook_payload _ _ _ _ _ _ st ?p ?h ?v clk] =>
        pose proof (task_keeps_consistent n st p h v clk Hc) as Ht;
        unfold process in Ht;
        destruct (process_webhook_payload wh_reuters wh_bloomberg wh_cnbc wh_yahoo
                    wh_generic date_parse st p h v clk) as [[raw_item|] st']
    end; exact Ht.
Qed.

(** X28: over any run of requests, background tasks and test requests
    from fresh statistics, [total_requests] counts the requests on the
    receiver, the valid and the badly signed ones together never exceed
    it, so that the success rate lies between 0 and 1, and [rate_limited]
    stays at zero: nothing ever records a rate-limited request. *)
Theorem counters_stay_consistent b events :
  let stats := fst (List.fold_left handle events (WebhookStats_init, b)) in
  total_requests stats = Z.of_nat (List.length (List.filter is_request events))
  /\ 0 <= valid_requests stats <= total_requests stats
  /\ (0 <= success_rate stats <= 1)%Q
  /\ rate_limited stats = 0.
Proof.
  intros stats.
  assert (Hrun : forall events n st,
             consistent n (fst st) ->
             consistent (n + Z.of_nat (List.length (List.filter is_request events)))
                        (fst (List.fold_left handle events st))).
  { clear stats events. induction events as [|e events IH]; intros n st Hc.
    - simpl. rewrite Z.add_0_r. exact Hc.
    - cbn [List.fold_left List.filter].
      pose proof (IH _ _ (handle_consistent n st e Hc)) as H.
      destruct (is_request e); cbn [List.length]; [|rewrite Z.add_0_r in H; exact H].
      rewrite Nat2Z.inj_succ.
      replace (n + Z.succ (Z.of_nat (List.length (List.filter is_request events))))
        with (n + 1 + Z.of_nat (List.length (List.filter is_request events))) by lia.
      exact H. }
  assert (H0 : consistent 0 (fst (WebhookStats_init, b))).
  { unfold consistent. simpl. repeat split; lia. }
  destruct (Hrun events 0 _ H0) as (T & L & V & I & R). fold stats in T, L, V, I, R.
  split; [lia|]. split; [lia|]. split; [|exact R].
  unfold success_rate.
  assert (Hd : (0 < inject_Z (Z.max 1 (total_requests stats)))%Q).
  { change 0%Q with (inject_Z 0). rewrite <- Zlt_Qlt. lia. }
  assert (Hv : (0 <= inject_Z (valid_requests stats))%Q).
  { change 0%Q with (inject_Z 0). rewrite <- Zle_Qle. exact V. }
  assert (Hle : (inject_Z (valid_requests stats)
                 <= inject_Z (Z.max 1 (total_requests stats)))%Q).
  { rewrite <- Zle_Qle. lia. }
  split.
  - apply Qle_shift_div_l; [exact Hd|]. lra.
  - apply Qle_shift_div_r; [exact Hd|]. lra.
Qed.

End Tasks.

(** *** A concrete task *)

(** A vendor mapper that answers with the same item whatever it is given. *)
Definition fixed_mapper (it : Schemas.RawItem) (payload : pyval) (headers : strdict)
  : result Schemas.RawItem := Ok it.

Definition acme_headers : strdict := [("X-Vendor", "acme")].

Lemma mapped_item_is_returned_witness :
  fst (process_webhook_payload
         (fixed_mapper IdentityProps.built_story) (fixed_mapper IdentityProps.built_story)
         (fixed_mapper IdentityProps.built_story) (fixed_mapper IdentityProps.built_story)
         (fixed_mapper IdentityProps.built_story) Schemas.iso_parse
         (WebhookStats_init, fresh_bus) (VDict []) acme_headers "acme" (clock 0))
  = Some IdentityProps.built_story.
Proof.
  assert (Hwf : wf fresh_bus) by (apply init_wf; vm_compute; discriminate).
  assert (Hmap : Mappers.map_webhook_payload_to_raw
                   (fixed_mapper IdentityProps.built_story)
                   (fixed_mapper IdentityProps.built_story)
                   (fixed_mapper IdentityProps.built_story)
                   (fixed_mapper IdentityProps.built_story)
                   (fixed_mapper IdentityProps.built_story) (VDict []) acme_headers
                 = Ok (Some IdentityProps.built_story)) by (vm_compute; reflexivity).
  assert (Hval : Schemas.validate_raw_item Schemas.iso_parse
                   (Schemas.to_dict IdentityProps.built_story) = true)
    by (vm_compute; reflexivity).
  exact (proj1 (mapped_item_is_returned _ _ _ _ _ Schemas.iso_parse WebhookStats_init
                  fresh_bus (VDict []) acme_headers "acme" (clock 0)
                  IdentityProps.built_story Hwf Hmap Hval)).
Defined.

End TaskProps.

Module ApiProps.
Import Bus Api.

(** X30: the health check never reports data.  The statistics it reads
    have no entry named total_items or last_updated, so every healthy
    answer says that no data is available and gives no time of last
    update, whatever the snapshot and the bus hold. *)
Theorem health_check_never_reports_data b rss_data :
  match fst (health_check b rss_data) with
  | Healthy data_available last_data_update =>
      data_available = false /\ last_data_update = None
  | Unhealthy status_code => status_code = 503
  end.
Proof.
  unfold health_check, get_stats.
  destruct (Hub._get_event_bus_items b 1000) as [event_items b'].
  destruct (sources_of (Ingest.items rss_data)) as [rss_sources|e]; [|reflexivity].
  destruct (sources_of event_items) as [event_sources|e]; [|reflexivity].
  simpl. split; reflexivity.
Qed.

Section Latest.

Variable aborted_sort : list dict -> list dict.





End Latest.

End ApiProps.
